(** * TRS-80 utilities: [edtasmcvt] and [stripcmd]

    A shallow embedding of the two byte-stream state machines of the
    repository, [edtasmcvt/edtasmcvt.c] and [stripcmd/stripcmd.c], and the
    properties of their behaviour.

    Conventions.
    - A value of C type [int] holding the result of [fgetc] is a [Z]; an
      input stream is the list of the bytes [fgetc] hands out, and the end of
      the list is the [-1] that ends the [while] loop.
    - A [FILE *] opened for writing is the list of bytes written to it so far,
      in order; [stdout] of [stripcmd] and [stderr] of both programs are lists
      of the [printf] calls made, one constructor per format string, carrying
      the arguments of the call.
    - [unsigned int], [uint16_t] and [uint8_t] wrap around, and the wrap is
      written out.  The [int] counters of [edtasmcvt] are mathematical
      integers: signed overflow is undefined in C and is reached only by a
      line of 2^31 bytes. *)

From Stdlib Require Import String Ascii ZArith List Bool Lia.
Import ListNotations.
Open Scope Z_scope.

(** ** Bytes and C strings *)

Definition is_byte (c : Z) : Prop := 0 <= c < 256.

Definition is_byteb (c : Z) : bool := (0 <=? c) && (c <? 256).

(** Conversion of an [int] to [unsigned char], as ["%c"] and a store into a
    [char] array do. *)
Definition to_uchar (c : Z) : Z := c mod 256.

(** Conversions to [uint8_t], [uint16_t] and [unsigned int]. *)
Definition uint8 (x : Z) : Z := x mod 2 ^ 8.
Definition uint16 (x : Z) : Z := x mod 2 ^ 16.
Definition uint (x : Z) : Z := x mod 2 ^ 32.

Definition byte_of_ascii (a : ascii) : Z := Z.of_nat (nat_of_ascii a).

Definition bytes_of_string (s : string) : list Z :=
  map byte_of_ascii (list_ascii_of_string s).

(** The outcome of one iteration of a [while ((ch = fgetc(infile)) != -1)]
    loop over a machine of type [M]: the loop goes on, or the function is
    left from inside the loop for a reason of type [R]. *)
Inductive outcome (R M : Type) : Type :=
| Next (m : M)
| Ret (r : R) (m : M).
Arguments Next {R M} m.
Arguments Ret {R M} r m.

Section Loop.
Context {R M : Type}.
Variable step : M -> Z -> outcome R M.

(** The bytes are consumed one at a time until one of them ends the loop;
    [Next m] means the input was exhausted with the machine in [m]. *)
Fixpoint feed (m : M) (input : list Z) : outcome R M :=
  match input with
  | [] => Next m
  | ch :: rest =>
      match step m ch with
      | Next m' => feed m' rest
      | stop => stop
      end
  end.

(** The bytes [fgetc] hands out before the loop ends, each with the
    machine as it was when the byte was read. *)
Fixpoint reads (m : M) (input : list Z) : list (M * Z) :=
  match input with
  | [] => []
  | ch :: rest =>
      (m, ch) :: match step m ch with
                 | Next m' => reads m' rest
                 | Ret _ _ => []
                 end
  end.
End Loop.

Definition machine_of {R M : Type} (o : outcome R M) : M :=
  match o with
  | Next m | Ret _ m => m
  end.

(** ** The C library, as far as the two programs use it *)

(** [getopt(3)] for an option string of plain letters: ["-"] is an operand,
    ["--"] ends the options and is skipped, and every character of an
    argument ["-xyz"] is an option character.  A scan gives what the
    successive calls return (['?'] for a character that is not in the option
    string) and [argv[optind..]] at the time [getopt] returns [-1].

    The libraries differ on an argument that begins with ['-'] and stands
    behind an operand.  [getopt_scan] is the scan POSIX describes, which
    ends at the first operand; [getopt_scan_permuting] is the scan of glibc
    in its default mode, which goes on to the end of the arguments or to
    ["--"] and moves the operands it passes behind the options.  The two
    agree on the argument lists of [options_first]: those in which no
    argument behind the first operand begins with ['-'].  The programs are
    modelled with [getopt_scan], and what is proved of their arguments is
    about such lists. *)
Section Getopt.
Variable optstring : string.

Fixpoint has_char (c : ascii) (s : string) : bool :=
  match s with
  | EmptyString => false
  | String d s' => Ascii.eqb c d || has_char c s'
  end.

Definition optchar (c : ascii) : ascii :=
  if has_char c optstring then c else "?"%char.

Fixpoint getopt_scan (args : list string) : list ascii * list string :=
  match args with
  | [] => ([], [])
  | a :: rest =>
      match a with
      | String "-" EmptyString => ([], args)
      | String "-" (String "-" EmptyString) => ([], rest)
      | String "-" cluster =>
          let (opts, operands) := getopt_scan rest in
          (map optchar (list_ascii_of_string cluster) ++ opts, operands)
      | _ => ([], args)
      end
  end.

Fixpoint getopt_scan_permuting (args : list string)
  : list ascii * list string :=
  match args with
  | [] => ([], [])
  | a :: rest =>
      match a with
      | String "-" EmptyString =>
          let (opts, operands) := getopt_scan_permuting rest in
          (opts, a :: operands)
      | String "-" (String "-" EmptyString) => ([], rest)
      | String "-" cluster =>
          let (opts, operands) := getopt_scan_permuting rest in
          (map optchar (list_ascii_of_string cluster) ++ opts, operands)
      | _ =>
          let (opts, operands) := getopt_scan_permuting rest in
          (opts, a :: operands)
      end
  end.
End Getopt.

(** An argument that does not begin with ['-']. *)
Definition plain (a : string) : bool :=
  match String.get 0 a with
  | Some c => negb (Ascii.eqb c "-")
  | None => true
  end.

(** No argument behind the first operand begins with ['-']. *)
Fixpoint options_first (args : list string) : bool :=
  match args with
  | [] => true
  | a :: rest =>
      match a with
      | String "-" EmptyString => forallb plain rest
      | String "-" (String "-" EmptyString) => true
      | String "-" _ => options_first rest
      | _ => forallb plain rest
      end
  end.

(** [s[j]] for a NUL-terminated string [s]: the terminator is at
    [strlen(s)], and nothing of the string lies behind it. *)
Definition char_at (s : string) (j : nat) : option ascii :=
  match String.get j s with
  | Some c => Some c
  | None => if Nat.eqb j (String.length s) then Some zero else None
  end.

(** What a run finds outside the program: the bytes [stdin] delivers, for
    each path whether [fopen(path, "r")] succeeds and the bytes that stream
    delivers, whether [fopen(path, "w+")] succeeds, and whether the output
    stream reports an error to [ferror] or fails in [fclose]. *)
Record env := Env {
  stdin : list Z;
  fopen_r : string -> option (list Z);
  fopen_w : string -> bool;
  ferror_out : bool;
  fclose_eof : bool
}.

(** [InputFile]: [stdin] or a file opened by [process_args]. *)
Inductive source := Stdin | In_file (path : string).

(** The bytes the input stream delivers. *)
Definition bytes_of (e : env) (src : source) : list Z :=
  match src with
  | Stdin => stdin e
  | In_file path =>
      match fopen_r e path with
      | Some bytes => bytes
      | None => []
      end
  end.

(** ** edtasmcvt/edtasmcvt.c *)

Module Edtasm.

Definition HEADERCHAR : Z := 0xd3.
Definition EOLCHAR : Z := 0x0d.
Definition EOFCHAR : Z := 0x1a.
Definition LINENUMCHAR (c : Z) : bool := (c >=? 0xb0) && (c <=? 0xb9).

Inductive edtasm_state := ES_HDR | ES_FNAME | ES_LINENUM | ES_LINETXT.

(** What the program writes to [stderr], a constructor per format string:
    ["Unexpected file format.\n"], ["Bad line number.\n"],
    ["Unexpected character following line number (%02x).\n"] and
    ["Bad state (%d, 0x%02x).\n"] in [process_file]; the message of [getopt]
    itself, ["\n"], ["Too many operands.\n\n"],
    ["Failed to open file '%s', %s (%d)\n\n"], the usage text and the two
    messages of [main] about the output file. *)
Inductive diag :=
| Unexpected_file_format
| Bad_line_number
| Unexpected_character (ch : Z)
| Bad_state (st : edtasm_state) (ch : Z)
(* process_args, usage and main *)
| Getopt_message
| Blank_line
| Too_many_operands
| Failed_to_open (path : string)
| Usage (pgmname : string)
| Error_detected_after_writing
| Error_detected_when_closing.

(** The locals of [process_file] and the two streams it writes. *)
Record machine := Machine {
  state : edtasm_state;
  fnc : Z;
  lncc : Z;
  tlcc : Z;
  outfile : list Z;
  stderr : list diag
}.

Definition set_state (st : edtasm_state) (m : machine) : machine :=
  Machine st (fnc m) (lncc m) (tlcc m) (outfile m) (stderr m).
Definition set_fnc (n : Z) (m : machine) : machine :=
  Machine (state m) n (lncc m) (tlcc m) (outfile m) (stderr m).
Definition set_lncc (n : Z) (m : machine) : machine :=
  Machine (state m) (fnc m) n (tlcc m) (outfile m) (stderr m).
Definition set_tlcc (n : Z) (m : machine) : machine :=
  Machine (state m) (fnc m) (lncc m) n (outfile m) (stderr m).

(** [fprintf(outfile, "%c", c)] *)
Definition putc (c : Z) (m : machine) : machine :=
  Machine (state m) (fnc m) (lncc m) (tlcc m)
          (outfile m ++ [to_uchar c]) (stderr m).

(** [fprintf(outfile, s)] for a format [s] without conversions. *)
Definition puts (s : list Z) (m : machine) : machine :=
  Machine (state m) (fnc m) (lncc m) (tlcc m) (outfile m ++ s) (stderr m).

Definition eprint (d : diag) (m : machine) : machine :=
  Machine (state m) (fnc m) (lncc m) (tlcc m) (outfile m) (stderr m ++ [d]).

Definition when (c : Z) (f : machine -> machine) (m : machine) : machine :=
  if c =? 0 then m else f m.

Definition NL : Z := 10.
Definition SPACE : Z := 0x20.
Definition TAB : Z := 0x09.

Section ProcessFile.
(** The global [Show_Linenums] and the parameters [show_hdr] and
    [cvt_newerfmt] of [process_file]. *)
Variables Show_Linenums show_hdr cvt_newerfmt : Z.

(** The [switch (state)] of the loop body. *)
Definition dispatch (m : machine) (ch : Z) : outcome Z machine :=
  match state m with
  | ES_FNAME =>
      let m1 :=
        when show_hdr
             (fun m => putc ch
                         (if fnc m =? 0
                          then puts (bytes_of_string "FILENAME: ") m
                          else m)) m in
      if fnc m1 =? 5 then
        Next (set_state ES_LINENUM
                (set_fnc 0 (when show_hdr (puts [NL; NL]) m1)))
      else Next (set_fnc (fnc m1 + 1) m1)
  | ES_LINENUM =>
      if LINENUMCHAR ch then
        let m1 := when Show_Linenums (putc (Z.land ch 0x7f)) m in
        if lncc m1 + 1 =? 5 then
          Next (set_state ES_LINETXT (set_lncc 0 m1))
        else Next (set_lncc (lncc m1 + 1) m1)
      else if ch =? EOFCHAR then Ret 0 m
      else Ret 2 (eprint Bad_line_number m)
  | ES_LINETXT =>
      if tlcc m =? 0 then
        let m1 := set_tlcc (tlcc m + 1) m in
        if (ch =? SPACE) || (ch =? TAB) then
          Next (when Show_Linenums
                     (putc (if (ch =? SPACE) && (cvt_newerfmt =? 1)
                            then TAB else ch)) m1)
        else Ret 2 (eprint (Unexpected_character ch) m1)
      else
        let m1 := set_tlcc (tlcc m + 1) m in
        if ch =? EOLCHAR then
          Next (set_state ES_LINENUM (set_tlcc 0 (puts [NL] m1)))
        else Next (putc ch m1)
  | ES_HDR => Ret 3 (eprint (Bad_state ES_HDR ch) m)
  end.

(** The body of the [while] loop: the first byte picks the starting state;
    the header marker is consumed by [continue], a line-number byte falls
    through to the [switch] in state [ES_LINENUM]. *)
Definition step (m : machine) (ch : Z) : outcome Z machine :=
  match state m with
  | ES_HDR =>
      if ch =? HEADERCHAR then Next (set_state ES_FNAME m)
      else if LINENUMCHAR ch then dispatch (set_state ES_LINENUM m) ch
      else Ret 2 (eprint Unexpected_file_format m)
  | _ => dispatch m ch
  end.

Definition init : machine := Machine ES_HDR 0 0 0 [] [].

(** What [process_file] returns, with the machine it leaves behind: [0]
    after the loop, the value of the [return] inside the loop otherwise. *)
Definition process_file (infile : list Z) : Z * machine :=
  match feed step init infile with
  | Next m => (0, m)
  | Ret code m => (code, m)
  end.
End ProcessFile.

(** [OutputFile]: [stdout] or a file opened by [process_args]. *)
Inductive sink := Stdout | Out_file (path : string).

Record globals := Globals {
  InputFile : source;
  OutputFile : sink;
  Cvt_Newer_Format : Z;
  Show_File_Hdr : Z;
  Show_Linenums : Z
}.

(** The [while ((opt = getopt(argc, argv, "cfs")) != -1)] loop; [None] is
    the [default:] case. *)
Fixpoint scan_options (opts : list ascii) (g : globals) : option globals :=
  match opts with
  | [] => Some g
  | opt :: rest =>
      if Ascii.eqb opt "c" then
        scan_options rest
          (Globals (InputFile g) (OutputFile g) 1 (Show_File_Hdr g)
                   (Show_Linenums g))
      else if Ascii.eqb opt "f" then
        scan_options rest
          (Globals (InputFile g) (OutputFile g) (Cvt_Newer_Format g) 1
                   (Show_Linenums g))
      else if Ascii.eqb opt "s" then
        scan_options rest
          (Globals (InputFile g) (OutputFile g) (Cvt_Newer_Format g)
                   (Show_File_Hdr g) 0)
      else None
  end.

(** [process_args]: the globals on success ([0]), the messages on [-1]. *)
Definition process_args (e : env) (argv : list string)
  : globals + list diag :=
  let (opts, operands) := getopt_scan "cfs" (tl argv) in
  match scan_options opts (Globals Stdin Stdout 0 0 1) with
  | None => inr [Getopt_message; Blank_line]
  | Some g =>
      if (2 <? length operands)%nat then inr [Too_many_operands]
      else
        match operands with
        | [] => inl g
        | ifile :: more =>
            match fopen_r e ifile with
            | None => inr [Failed_to_open ifile]
            | Some _ =>
                let g1 := Globals (In_file ifile) (OutputFile g)
                            (Cvt_Newer_Format g) (Show_File_Hdr g)
                            (Show_Linenums g) in
                match more with
                | [] => inl g1
                | ofile :: _ =>
                    if fopen_w e ofile then
                      inl (Globals (InputFile g1) (Out_file ofile)
                             (Cvt_Newer_Format g1) (Show_File_Hdr g1)
                             (Show_Linenums g1))
                    else inr [Failed_to_open ofile]
                end
            end
        end
  end.

(** A run of the program: its exit status, the stream the output went to
    ([None] when none was chosen before the exit), the bytes handed to that
    stream, and what was written to [stderr]. *)
Record run := Run {
  exit_status : Z;
  output_to : option sink;
  output : list Z;
  errors : list diag
}.

Definition main (e : env) (argv : list string) : run :=
  match process_args e argv with
  | inr msgs => Run 1 None [] (msgs ++ [Usage (hd EmptyString argv)])
  | inl g =>
      let (ret, m) :=
        process_file (Show_Linenums g) (Show_File_Hdr g) (Cvt_Newer_Format g)
                     (bytes_of e (InputFile g)) in
      if ret =? 0 then
        if ferror_out e then
          Run 3 (Some (OutputFile g)) (outfile m)
              (stderr m ++ [Error_detected_after_writing])
        else if fclose_eof e then
          Run 3 (Some (OutputFile g)) (outfile m)
              (stderr m ++ [Error_detected_when_closing])
        else Run 0 (Some (OutputFile g)) (outfile m) (stderr m)
      else Run ret (Some (OutputFile g)) (outfile m) (stderr m)
  end.

(** *** The format, as the header comment of the file gives it *)

(** A line record: the five line-number bytes, the byte after them and the
    text up to the end-of-line character. *)
Record line := Line {
  number : list Z;
  separator : Z;
  text : list Z
}.

Definition text_char (c : Z) : bool := is_byteb c && negb (c =? EOLCHAR).

Definition wf_line (l : line) : bool :=
  (length (number l) =? 5)%nat
  && forallb LINENUMCHAR (number l)
  && ((separator l =? SPACE) || (separator l =? TAB))
  && forallb text_char (text l).

Definition encode_line (l : line) : list Z :=
  number l ++ [separator l] ++ text l ++ [EOLCHAR].

(** Header, line records, end-of-file mark. *)
Definition stream (name : list Z) (ls : list line) : list Z :=
  [HEADERCHAR] ++ name ++ concat (map encode_line ls) ++ [EOFCHAR].

(** The line-number bytes with their high bit cleared. *)
Definition digits (l : line) : list Z :=
  map (fun c => Z.land c 0x7f) (number l).

(** An output line with its number and the separator [sep], and one
    without. *)
Definition numbered_line (sep : Z) (l : line) : list Z :=
  digits l ++ [sep] ++ text l ++ [NL].

Definition shown_line (l : line) : list Z := numbered_line (separator l) l.

Definition stripped_line (l : line) : list Z := text l ++ [NL].

(** What the filename header and a line record come out as, for each
    setting of the options. *)
Definition filename_block (show_hdr : Z) (name : list Z) : list Z :=
  if show_hdr =? 0 then []
  else bytes_of_string "FILENAME: " ++ map to_uchar name ++ [NL; NL].

Definition rendered_line (Show_Linenums cvt_newerfmt : Z) (l : line)
  : list Z :=
  if Show_Linenums =? 0 then stripped_line l
  else numbered_line
         (if (separator l =? SPACE) && (cvt_newerfmt =? 1) then TAB
          else separator l) l.

(** Two line records in the older format, [00010 LD A,1] and an empty
    line [00020], and the same in the newer format. *)
Definition sample_name : list Z := bytes_of_string "DEMO  ".

Definition sample_lines : list line :=
  [Line [0xb0; 0xb0; 0xb0; 0xb1; 0xb0] SPACE (bytes_of_string "LD A,1");
   Line [0xb0; 0xb0; 0xb0; 0xb2; 0xb0] SPACE []].

Definition sample_lines_newer : list line :=
  [Line [0xb0; 0xb0; 0xb0; 0xb1; 0xb0] TAB (bytes_of_string "LD A,1");
   Line [0xb0; 0xb0; 0xb0; 0xb2; 0xb0] TAB []].

Definition sample_env : env :=
  Env (stream sample_name sample_lines) (fun _ => None) (fun _ => false)
      false false.

(** A record whose text holds the byte [0x1a], before a plain one. *)
Definition sample_lines_1a : list line :=
  [Line [0xb0; 0xb0; 0xb0; 0xb0; 0xb5] TAB [0x41; 0x1a; 0x42];
   Line [0xb0; 0xb0; 0xb0; 0xb1; 0xb0] TAB (bytes_of_string "RET")].


(** The newer format: no filename header, the line records start the
    file. *)
Definition headerless (ls : list line) : list Z :=
  concat (map encode_line ls) ++ [EOFCHAR].

(** Two machines that differ in what they have written to [outfile] at
    most. *)
Definition same_control (m m' : machine) : Prop :=
  state m = state m' /\ fnc m = fnc m' /\ lncc m = lncc m' /\
  tlcc m = tlcc m' /\ stderr m = stderr m'.

(** The globals after an option loop over [opts] that met no unknown
    option. *)
Definition options_set (opts : list ascii) (g : globals) : globals :=
  Globals (InputFile g) (OutputFile g)
          (if existsb (Ascii.eqb "c") opts then 1 else Cvt_Newer_Format g)
          (if existsb (Ascii.eqb "f") opts then 1 else Show_File_Hdr g)
          (if existsb (Ascii.eqb "s") opts then 0 else Show_Linenums g).

(** A line record with its separator replaced by the tab of the newer
    format. *)
Definition to_newer (l : line) : line := Line (number l) TAB (text l).

(** An environment with one readable file, [in.asm]. *)
Definition sample_env_files : env :=
  Env [] (fun p => if String.eqb p "in.asm"
                   then Some (stream sample_name sample_lines) else None)
      (fun _ => true) false false.

End Edtasm.

(** ** stripcmd/stripcmd.c *)

Module Cmd.

Definition BLK_LEN (n : Z) : Z := if n <? 3 then n + 254 else n - 2.

Definition FNAME_SIZE : Z := 0xff.
Definition COMMENT_SIZE : Z := 0xff.

(** [enum cmd_header] *)
Definition LOADBLK : Z := 0x01.
Definition XFERADDR : Z := 0x02.
Definition FNAMEREC : Z := 0x05.
Definition COMMREC : Z := 0x1f.

Inductive cmd_state :=
| CMD_HDR
| LOADBLK_LEN | LOADBLK_ADDRLO | LOADBLK_ADDRHI
| XFER_LEN | XFER_ADDRLO | XFER_ADDRHI
| FNAMEREC_LEN | FNAMEREC_NAME
| COMMREC_LEN | COMMREC_STRING
| SKIP_BYTES
| EXTRA_BYTES.

Definition is_extra (st : cmd_state) : bool :=
  match st with
  | EXTRA_BYTES => true
  | _ => false
  end.

(** The calls of [printf], a constructor per format string:
    ["Load address == 0x%04x (len == 0x%02x)\n"],
    ["Transfer address == 0x%04x\n"], ["Filename = \"%s\"\n"],
    ["Comment = \"%s\"\n"], ["Found %u extraneous bytes at end of file.\n"]
    and ["CMD file looks good!\n"].  A ["%s"] argument is the bytes of the
    array up to its first NUL. *)
Inductive report :=
| Load_address (addr len : Z)
| Transfer_address (addr : Z)
| Filename (name : list Z)
| Comment (text : list Z)
| Found_extraneous_bytes (n : Z)
| CMD_file_looks_good.

(** What the program writes to [stderr]:
    ["Unexpected header byte (0x%02x).\n"],
    ["Unexpected transfer address length (%d).\n"],
    ["Unexpected file name size (0x%02x).\n"],
    ["Unexpected comment size (0x%02x).\n"], ["Unexpected state == %d\n"],
    and the messages of [process_args], [usage] and [main]. *)
Inductive diag :=
| Unexpected_header_byte (ch : Z)
| Unexpected_transfer_address_length (n : Z)
| Unexpected_file_name_size (n : Z)
| Unexpected_comment_size (n : Z)
| Unexpected_state (st : cmd_state)
| Getopt_message
| Blank_line
| Too_many_operands
| Failed_to_open (path : string)
| Usage (pgmname : string)
| Error_detected_after_writing
| Error_detected_when_closing.

(** How the function is left from inside the loop: by [return], or by a
    store past the end of [fname] or [comment], where C leaves the behaviour
    undefined and the model stops. *)
Inductive halt :=
| Return (code : Z)
| Out_of_bounds.

(** The locals of [process_file], the bytes written to [OutputFile]
    ([copy]), and the two standard streams. *)
Record machine := Machine {
  state : cmd_state;
  load_addr : Z;
  xfer_addr : Z;
  fname : list Z;
  fname_len : Z;
  fname_idx : Z;
  comment : list Z;
  comment_len : Z;
  comment_idx : Z;
  chskip : Z;
  extra_bytes : Z;
  copy : list Z;
  stdout : list report;
  stderr : list diag
}.

Definition set_state (v : cmd_state) (m : machine) : machine :=
  Machine v (load_addr m) (xfer_addr m) (fname m) (fname_len m) (fname_idx m)
    (comment m) (comment_len m) (comment_idx m) (chskip m) (extra_bytes m)
    (copy m) (stdout m) (stderr m).
Definition set_load_addr (v : Z) (m : machine) : machine :=
  Machine (state m) v (xfer_addr m) (fname m) (fname_len m) (fname_idx m)
    (comment m) (comment_len m) (comment_idx m) (chskip m) (extra_bytes m)
    (copy m) (stdout m) (stderr m).
Definition set_xfer_addr (v : Z) (m : machine) : machine :=
  Machine (state m) (load_addr m) v (fname m) (fname_len m) (fname_idx m)
    (comment m) (comment_len m) (comment_idx m) (chskip m) (extra_bytes m)
    (copy m) (stdout m) (stderr m).
Definition set_fname (v : list Z) (m : machine) : machine :=
  Machine (state m) (load_addr m) (xfer_addr m) v (fname_len m) (fname_idx m)
    (comment m) (comment_len m) (comment_idx m) (chskip m) (extra_bytes m)
    (copy m) (stdout m) (stderr m).
Definition set_fname_len (v : Z) (m : machine) : machine :=
  Machine (state m) (load_addr m) (xfer_addr m) (fname m) v (fname_idx m)
    (comment m) (comment_len m) (comment_idx m) (chskip m) (extra_bytes m)
    (copy m) (stdout m) (stderr m).
Definition set_fname_idx (v : Z) (m : machine) : machine :=
  Machine (state m) (load_addr m) (xfer_addr m) (fname m) (fname_len m) v
    (comment m) (comment_len m) (comment_idx m) (chskip m) (extra_bytes m)
    (copy m) (stdout m) (stderr m).
Definition set_comment (v : list Z) (m : machine) : machine :=
  Machine (state m) (load_addr m) (xfer_addr m) (fname m) (fname_len m)
    (fname_idx m) v (comment_len m) (comment_idx m) (chskip m)
    (extra_bytes m) (copy m) (stdout m) (stderr m).
Definition set_comment_len (v : Z) (m : machine) : machine :=
  Machine (state m) (load_addr m) (xfer_addr m) (fname m) (fname_len m)
    (fname_idx m) (comment m) v (comment_idx m) (chskip m)
    (extra_bytes m) (copy m) (stdout m) (stderr m).
Definition set_comment_idx (v : Z) (m : machine) : machine :=
  Machine (state m) (load_addr m) (xfer_addr m) (fname m) (fname_len m)
    (fname_idx m) (comment m) (comment_len m) v (chskip m)
    (extra_bytes m) (copy m) (stdout m) (stderr m).
Definition set_chskip (v : Z) (m : machine) : machine :=
  Machine (state m) (load_addr m) (xfer_addr m) (fname m) (fname_len m)
    (fname_idx m) (comment m) (comment_len m) (comment_idx m) v
    (extra_bytes m) (copy m) (stdout m) (stderr m).
Definition set_extra_bytes (v : Z) (m : machine) : machine :=
  Machine (state m) (load_addr m) (xfer_addr m) (fname m) (fname_len m)
    (fname_idx m) (comment m) (comment_len m) (comment_idx m) (chskip m)
    v (copy m) (stdout m) (stderr m).

(** [fwrite(&ch, 1, 1, OutputFile)]: one byte, the low-order byte of [ch]
    (the first byte of the [int] on a little-endian machine). *)
Definition fwrite (ch : Z) (m : machine) : machine :=
  Machine (state m) (load_addr m) (xfer_addr m) (fname m) (fname_len m)
    (fname_idx m) (comment m) (comment_len m) (comment_idx m) (chskip m)
    (extra_bytes m) (copy m ++ [to_uchar ch]) (stdout m) (stderr m).

Definition printf (r : report) (m : machine) : machine :=
  Machine (state m) (load_addr m) (xfer_addr m) (fname m) (fname_len m)
    (fname_idx m) (comment m) (comment_len m) (comment_idx m) (chskip m)
    (extra_bytes m) (copy m) (stdout m ++ [r]) (stderr m).

Definition eprint (d : diag) (m : machine) : machine :=
  Machine (state m) (load_addr m) (xfer_addr m) (fname m) (fname_len m)
    (fname_idx m) (comment m) (comment_len m) (comment_idx m) (chskip m)
    (extra_bytes m) (copy m) (stdout m) (stderr m ++ [d]).

(** [a[i] = v] on an array of [length a] elements: [None] past its end. *)
Fixpoint store_at (a : list Z) (i : nat) (v : Z) : option (list Z) :=
  match a, i with
  | [], _ => None
  | _ :: rest, O => Some (v :: rest)
  | x :: rest, S i' =>
      match store_at rest i' v with
      | Some rest' => Some (x :: rest')
      | None => None
      end
  end.

Definition store (a : list Z) (i : Z) (v : Z) : option (list Z) :=
  if i <? 0 then None else store_at a (Z.to_nat i) v.

(** The bytes ["%s"] prints: those before the first NUL. *)
Fixpoint c_str (a : list Z) : list Z :=
  match a with
  | [] => []
  | c :: rest => if c =? 0 then [] else c :: c_str rest
  end.

Definition unless (c : Z) (f : machine -> machine) (m : machine) : machine :=
  if c =? 0 then f m else m.

Section ProcessFile.
(** The globals [Quiet] and [OutputFile] (whether it is non-null).  The
    parameter [outfile] of [process_file] is not used by its body. *)
Variable Quiet : Z.
Variable OutputFile : bool.

(** The body of the [while] loop. *)
Definition step (m0 : machine) (ch : Z) : outcome halt machine :=
  let m := if negb (is_extra (state m0)) && OutputFile
           then fwrite ch m0 else m0 in
  match state m with
  | CMD_HDR =>
      if ch =? LOADBLK then Next (set_state LOADBLK_LEN m)
      else if ch =? XFERADDR then Next (set_state XFER_LEN m)
      else if ch =? FNAMEREC then Next (set_state FNAMEREC_LEN m)
      else if ch =? COMMREC then Next (set_state COMMREC_LEN m)
      else Ret (Return 2) (eprint (Unexpected_header_byte ch) m)
  | LOADBLK_LEN =>
      Next (set_state LOADBLK_ADDRLO (set_chskip (uint16 (BLK_LEN ch)) m))
  | LOADBLK_ADDRLO =>
      Next (set_state LOADBLK_ADDRHI (set_load_addr (uint16 ch) m))
  | LOADBLK_ADDRHI =>
      let m1 := set_load_addr
                  (uint16 (Z.lor (load_addr m) (Z.shiftl ch 8))) m in
      Next (set_state SKIP_BYTES
              (unless Quiet
                 (printf (Load_address (load_addr m1) (chskip m1))) m1))
  | XFER_LEN =>
      Next (set_state XFER_ADDRLO (set_chskip (uint16 (ch - 2)) m))
  | XFER_ADDRLO =>
      Next (set_state XFER_ADDRHI (set_xfer_addr (uint16 ch) m))
  | XFER_ADDRHI =>
      let m1 := set_xfer_addr
                  (uint16 (Z.lor (xfer_addr m) (Z.shiftl ch 8))) m in
      let m2 := unless Quiet (printf (Transfer_address (xfer_addr m1))) m1 in
      if negb (chskip m2 =? 0) then
        Ret (Return 2)
            (eprint (Unexpected_transfer_address_length (chskip m2)) m2)
      else Next (set_state EXTRA_BYTES (set_extra_bytes 0 m2))
  | FNAMEREC_LEN =>
      let m1 := set_fname_len (uint8 ch) m in
      if fname_len m1 >? FNAME_SIZE then
        Ret (Return 2)
            (eprint (Unexpected_file_name_size (fname_len m1)) m1)
      else Next (set_state FNAMEREC_NAME (set_fname_idx 0 m1))
  | FNAMEREC_NAME =>
      match store (fname m) (fname_idx m) (to_uchar ch) with
      | None => Ret Out_of_bounds m
      | Some a =>
          let m1 := set_fname_idx (uint (fname_idx m + 1)) (set_fname a m) in
          if fname_idx m1 =? fname_len m1 then
            match store (fname m1) (fname_idx m1) 0 with
            | None => Ret Out_of_bounds m1
            | Some a' =>
                let m2 := set_fname a' m1 in
                Next (set_state CMD_HDR
                        (unless Quiet
                           (printf (Filename (c_str (fname m2)))) m2))
            end
          else Next m1
      end
  | COMMREC_LEN =>
      let m1 := set_comment_len (uint8 ch) m in
      if comment_len m1 >? COMMENT_SIZE then
        Ret (Return 2)
            (eprint (Unexpected_comment_size (comment_len m1)) m1)
      else Next (set_state COMMREC_STRING (set_comment_idx 0 m1))
  | COMMREC_STRING =>
      match store (comment m) (comment_idx m) (to_uchar ch) with
      | None => Ret Out_of_bounds m
      | Some a =>
          let m1 := set_comment_idx (uint (comment_idx m + 1))
                      (set_comment a m) in
          if comment_idx m1 =? comment_len m1 then
            match store (comment m1) (comment_idx m1) 0 with
            | None => Ret Out_of_bounds m1
            | Some a' =>
                let m2 := set_comment a' m1 in
                Next (set_state CMD_HDR
                        (unless Quiet
                           (printf (Comment (c_str (comment m2)))) m2))
            end
          else Next m1
      end
  | SKIP_BYTES =>
      let m1 := set_chskip (uint (chskip m - 1)) m in
      if chskip m1 =? 0 then Next (set_state CMD_HDR m1) else Next m1
  | EXTRA_BYTES =>
      Next (set_extra_bytes (uint (extra_bytes m + 1)) m)
  end.

(** The arrays [fname] and [comment] have [FNAME_SIZE+1] and
    [COMMENT_SIZE+1] elements.  They are not initialised; every read of
    one (the ["%s"]) comes after a NUL was stored behind the bytes
    written, so their first contents are never seen, and the model starts
    them as zeros. *)
Definition init : machine :=
  Machine CMD_HDR 0 0
          (repeat 0 (Z.to_nat (FNAME_SIZE + 1))) 0 0
          (repeat 0 (Z.to_nat (COMMENT_SIZE + 1))) 0 0
          0 0 [] [] [].

(** The report after the loop. *)
Definition final_report (m : machine) : machine :=
  if Quiet <? 2 then
    printf CMD_file_looks_good
      (if extra_bytes m =? 0 then m
       else printf (Found_extraneous_bytes (extra_bytes m)) m)
  else m.

Definition process_file (infile : list Z) : halt * machine :=
  match feed step init infile with
  | Next m => (Return 0, final_report m)
  | Ret h m => (h, m)
  end.
End ProcessFile.

Record globals := Globals {
  Quiet : Z;
  InputFile : source;
  OutputFile : option string
}.

(** The [while ((opt = getopt(argc, argv, "q")) != -1)] loop over [Quiet];
    [None] is the [default:] case. *)
Fixpoint scan_options (opts : list ascii) (quiet : Z) : option Z :=
  match opts with
  | [] => Some quiet
  | opt :: rest =>
      if Ascii.eqb opt "q" then scan_options rest (quiet + 1) else None
  end.

(** The condition
    [(argc - optind) > 0 && argv[optind][0] != '-' && argv[optind][1] != 0]
    with its two short cuts; [None] when it reads behind the terminator of
    the operand. *)
Definition names_input_file (operands : list string) : option bool :=
  match operands with
  | [] => Some false
  | arg :: _ =>
      match char_at arg 0 with
      | None => None
      | Some c0 =>
          if negb (Ascii.eqb c0 "-") then
            match char_at arg 1 with
            | None => None
            | Some c1 => Some (negb (Ascii.eqb c1 zero))
            end
          else Some false
      end
  end.

Inductive args_result :=
| Args_ok (g : globals)
| Args_fail (msgs : list diag)
| Args_out_of_bounds.

(** The second half of [process_args]: the output operand. *)
Definition open_output (e : env) (quiet : Z) (input : source)
           (operands : list string) : args_result :=
  match operands with
  | _ :: ofile :: _ =>
      if fopen_w e ofile then Args_ok (Globals quiet input (Some ofile))
      else Args_fail [Failed_to_open ofile]
  | _ => Args_ok (Globals quiet input None)
  end.

Definition process_args (e : env) (argv : list string) : args_result :=
  let (opts, operands) := getopt_scan "q" (tl argv) in
  match scan_options opts 0 with
  | None => Args_fail [Getopt_message; Blank_line]
  | Some quiet =>
      if (2 <? length operands)%nat then Args_fail [Too_many_operands]
      else
        match names_input_file operands with
        | None => Args_out_of_bounds
        | Some true =>
            let ifile := hd EmptyString operands in
            match fopen_r e ifile with
            | Some _ => open_output e quiet (In_file ifile) operands
            | None => Args_fail [Failed_to_open ifile]
            end
        | Some false => open_output e quiet Stdin operands
        end
  end.

(** A run of the program: its exit status, the output file if one was
    opened, the bytes written to it, and the two standard streams. *)
Record run := Run {
  exit_status : halt;
  copy_to : option string;
  copied : list Z;
  printed : list report;
  errors : list diag
}.

Definition main (e : env) (argv : list string) : run :=
  match process_args e argv with
  | Args_out_of_bounds => Run Out_of_bounds None [] [] []
  | Args_fail msgs =>
      Run (Return 1) None [] [] (msgs ++ [Usage (hd EmptyString argv)])
  | Args_ok g =>
      let (h, m) :=
        process_file (Quiet g)
                     (match OutputFile g with Some _ => true | None => false end)
                     (bytes_of e (InputFile g)) in
      match h, OutputFile g with
      | Return 0, Some _ =>
          if ferror_out e then
            Run (Return 3) (OutputFile g) (copy m) (stdout m)
                (stderr m ++ [Error_detected_after_writing])
          else if fclose_eof e then
            Run (Return 3) (OutputFile g) (copy m) (stdout m)
                (stderr m ++ [Error_detected_when_closing])
          else Run (Return 0) (OutputFile g) (copy m) (stdout m) (stderr m)
      | _, _ => Run h (OutputFile g) (copy m) (stdout m) (stderr m)
      end
  end.

(** *** The format, as the parser reads it *)

(** The records that come before the transfer address. *)
Inductive record :=
| Load_block (n lo hi : Z) (payload : list Z)
| Filename_record (name : list Z)
| Comment_record (text : list Z).

Definition encode_record (r : record) : list Z :=
  match r with
  | Load_block n lo hi payload => [LOADBLK; n; lo; hi] ++ payload
  | Filename_record name => [FNAMEREC; Z.of_nat (length name)] ++ name
  | Comment_record text => [COMMREC; Z.of_nat (length text)] ++ text
  end.

(** A load block carries [BLK_LEN n] payload bytes; a name or a comment
    has between 1 and 255 bytes. *)
Definition wf_record (r : record) : bool :=
  match r with
  | Load_block n lo hi payload =>
      is_byteb n && is_byteb lo && is_byteb hi
      && forallb is_byteb payload
      && (Z.of_nat (length payload) =? BLK_LEN n)
  | Filename_record name =>
      forallb is_byteb name
      && (1 <=? Z.of_nat (length name)) && (Z.of_nat (length name) <=? 255)
  | Comment_record text =>
      forallb is_byteb text
      && (1 <=? Z.of_nat (length text)) && (Z.of_nat (length text) <=? 255)
  end.

(** A 16-bit address from its low and its high byte, as the parser builds
    it. *)
Definition le16 (lo hi : Z) : Z :=
  uint16 (Z.lor (uint16 lo) (Z.shiftl hi 8)).

Definition report_of (r : record) : report :=
  match r with
  | Load_block n lo hi _ => Load_address (le16 lo hi) (BLK_LEN n)
  | Filename_record name => Filename (c_str name)
  | Comment_record text => Comment (c_str text)
  end.

(** The transfer-address record, with the length byte that leaves no
    residue. *)
Definition transfer_record (lo hi : Z) : list Z := [XFERADDR; 2; lo; hi].

Definition encode (rs : list record) (lo hi : Z) : list Z :=
  concat (map encode_record rs) ++ transfer_record lo hi.

(** What the per-record lines of the report are at quiet level [Quiet]. *)
Definition detail (Quiet : Z) (reps : list report) : list report :=
  if Quiet =? 0 then reps else [].

Definition mirrored (OutputFile : bool) (bytes : list Z) : list Z :=
  if OutputFile then bytes else [].

(** The machine [m'] is back at a record header, having copied [bytes] and
    reported [reps] since [m]. *)
Definition advances (Quiet : Z) (OutputFile : bool) (m m' : machine)
           (bytes : list Z) (reps : list report) : Prop :=
  state m' = CMD_HDR /\
  length (fname m') = length (fname m) /\
  length (comment m') = length (comment m) /\
  copy m' = copy m ++ mirrored OutputFile bytes /\
  stdout m' = stdout m ++ detail Quiet reps /\
  stderr m' = stderr m.

(** The lines that end the report: the count of trailing bytes, if there
    are any, and the verdict. *)
Definition summary (Quiet : Z) (extra : Z) : list report :=
  if Quiet <? 2 then
    (if extra =? 0 then [] else [Found_extraneous_bytes extra])
    ++ [CMD_file_looks_good]
  else [].

(** A load block with length byte 10 and its 8 payload bytes, a filename
    record and the transfer address; five bytes to follow them. *)
Definition sample_records : list record :=
  [Load_block 10 0x00 0x52 [1; 2; 3; 4; 5; 6; 7; 8];
   Filename_record (bytes_of_string "DEMO")].

Definition sample_trailing : list Z := [0xe5; 0xe5; 0xe5; 0x00; 0x1a].

Definition sample_env : env :=
  Env (encode sample_records 0x00 0x52 ++ sample_trailing)
      (fun _ => None) (fun _ => true) false false.

(** Two machines with the same locals and the same [stderr]; with the same
    copy when [sc] is set, and the same report when [so] is set. *)
Definition alike (sc so : bool) (m m' : machine) : Prop :=
  state m = state m' /\ load_addr m = load_addr m' /\
  xfer_addr m = xfer_addr m' /\ fname m = fname m' /\
  fname_len m = fname_len m' /\ fname_idx m = fname_idx m' /\
  comment m = comment m' /\ comment_len m = comment_len m' /\
  comment_idx m = comment_idx m' /\ chskip m = chskip m' /\
  extra_bytes m = extra_bytes m' /\ stderr m = stderr m' /\
  (sc = true -> copy m = copy m') /\ (so = true -> stdout m = stdout m').

(** What the bytes read so far, [pre], say about a machine that is reading
    a name or a comment: they end with the record's type byte, its length
    byte [c] and the [fname_idx] bytes stored since; the index is below the
    length unless the length is 0. *)
Definition reading_name (tag : Z) (pre : list Z) (len idx : Z) : Prop :=
  exists p c q,
    pre = p ++ [tag; c] ++ q /\ len = uint8 c /\
    idx = Z.of_nat (length q) /\ (length q <= 256)%nat /\
    (uint8 c <> 0 -> Z.of_nat (length q) < uint8 c).

Definition history_ok (pre : list Z) (m : machine) : Prop :=
  length (fname m) = 256%nat /\ length (comment m) = 256%nat /\
  (state m = FNAMEREC_NAME ->
   reading_name FNAMEREC pre (fname_len m) (fname_idx m)) /\
  (state m = COMMREC_STRING ->
   reading_name COMMREC pre (comment_len m) (comment_idx m)) /\
  (state m = FNAMEREC_LEN -> exists p, pre = p ++ [FNAMEREC]) /\
  (state m = COMMREC_LEN -> exists p, pre = p ++ [COMMREC]).

(** A filename record followed by a byte that starts no record. *)
Definition sample_bad_env : env :=
  Env [FNAMEREC; 2; 0x41; 0x42; 0x07; 0x09]
      (fun _ => None) (fun _ => true) false false.

End Cmd.


(** * Properties *)

(** ** The read loop *)

Section LoopFacts.
Context {R M : Type}.
Variable step : M -> Z -> outcome R M.

Lemma feed_app (m : M) (a b : list Z) :
  feed step m (a ++ b) =
  match feed step m a with
  | Next m' => feed step m' b
  | stop => stop
  end.
Proof.
  revert m; induction a as [|ch a IH]; intros m; simpl; [reflexivity|].
  destruct (step m ch); auto.
Qed.

Lemma feed_app_next (m m' : M) (a b : list Z) :
  feed step m a = Next m' -> feed step m (a ++ b) = feed step m' b.
Proof. intros H; rewrite feed_app, H; reflexivity. Qed.

Lemma feed_app_ret (m m' : M) (r : R) (a b : list Z) :
  feed step m a = Ret r m' -> feed step m (a ++ b) = Ret r m'.
Proof. intros H; rewrite feed_app, H; reflexivity. Qed.

(** A return from inside the loop happens at one byte of the input, after
    the bytes before it were consumed. *)
Lemma feed_ret_inv (m m' : M) (r : R) (input : list Z) :
  feed step m input = Ret r m' ->
  exists pre ch post m1,
    input = pre ++ ch :: post /\
    feed step m pre = Next m1 /\
    step m1 ch = Ret r m'.
Proof.
  revert m; induction input as [|ch rest IH]; intros m; simpl.
  - discriminate.
  - destruct (step m ch) as [m2|r2 m2] eqn:E.
    + intros H. destruct (IH _ H) as (pre & c & post & m1 & -> & Hp & Hs).
      exists (ch :: pre), c, post, m1. simpl. rewrite E. auto.
    + intros H. exists [], ch, rest, m. simpl. rewrite E. auto.
Qed.

(** Cutting the input short either exhausts it or changes nothing. *)
Lemma feed_firstn (m : M) (input : list Z) (n : nat) :
  (exists m', feed step m (firstn n input) = Next m') \/
  feed step m (firstn n input) = feed step m input.
Proof.
  revert m n; induction input as [|ch rest IH]; intros m n.
  - rewrite firstn_nil. right; reflexivity.
  - destruct n as [|n]; simpl.
    + left; eauto.
    + destruct (step m ch); [apply IH | right; reflexivity].
Qed.

Lemma reads_bytes_next (m m' : M) (input : list Z) :
  feed step m input = Next m' -> map snd (reads step m input) = input.
Proof.
  revert m; induction input as [|ch rest IH]; intros m; simpl; [reflexivity|].
  destruct (step m ch) eqn:E; [|discriminate].
  intros H; rewrite (IH _ H); reflexivity.
Qed.

Lemma reads_bytes_ret (m m1 m' : M) (r : R) (pre post : list Z) (ch : Z) :
  feed step m pre = Next m1 -> step m1 ch = Ret r m' ->
  map snd (reads step m (pre ++ ch :: post)) = pre ++ [ch].
Proof.
  revert m; induction pre as [|c pre IH]; intros m; simpl.
  - intros [= ->] E; rewrite E; reflexivity.
  - destruct (step m c) eqn:E; [|discriminate].
    intros H Hs; rewrite (IH _ H Hs); reflexivity.
Qed.
End LoopFacts.

(** ** Bytes *)

Lemma to_uchar_byte (c : Z) : is_byteb c = true -> to_uchar c = c.
Proof.
  unfold is_byteb, to_uchar; rewrite andb_true_iff; intros [? ?].
  apply Z.mod_small; lia.
Qed.

(** Case analysis on every test of a goal. *)
Ltac break_ifs :=
  repeat match goal with
         | |- context [if ?c then _ else _] => destruct c eqn:?
         | |- context [match ?c with Some _ => _ | None => _ end] =>
             destruct c eqn:?
         end.

(** ** Arguments *)

(** An argument that does not begin with ['-'] ends the options and is the
    first operand. *)
Lemma getopt_scan_operand (optstring a : string) (rest : list string) :
  String.get 0 a <> Some "-"%char ->
  getopt_scan optstring (a :: rest) = ([], a :: rest).
Proof.
  destruct a as [|c s]; [reflexivity|]. cbn [String.get]. intros H.
  destruct c as [b0 b1 b2 b3 b4 b5 b6 b7].
  destruct b0, b1, b2, b3, b4, b5, b6, b7; try reflexivity.
  exfalso. apply H. reflexivity.
Qed.

Lemma plain_get (a : string) :
  plain a = true <-> String.get 0 a <> Some "-"%char.
Proof.
  unfold plain. destruct (String.get 0 a) as [c|]; [|split; congruence].
  rewrite negb_true_iff. split.
  - intros H E. injection E as ->. discriminate.
  - intros H. apply Ascii.eqb_neq. congruence.
Qed.

(** A permuting scan passes an argument that does not begin with ['-'] and
    keeps it as an operand. *)
Lemma getopt_scan_permuting_operand
      (optstring a : string) (rest : list string) :
  String.get 0 a <> Some "-"%char ->
  getopt_scan_permuting optstring (a :: rest) =
    (fst (getopt_scan_permuting optstring rest),
     a :: snd (getopt_scan_permuting optstring rest)).
Proof.
  destruct a as [|c s]; cbn [String.get]; intros H.
  - cbn [getopt_scan_permuting].
    destruct (getopt_scan_permuting optstring rest); reflexivity.
  - destruct c as [b0 b1 b2 b3 b4 b5 b6 b7].
    destruct b0, b1, b2, b3, b4, b5, b6, b7;
      try (cbn [getopt_scan_permuting];
           destruct (getopt_scan_permuting optstring rest); reflexivity).
    exfalso. apply H. reflexivity.
Qed.

Lemma getopt_scan_permuting_plain (optstring : string) (rest : list string) :
  forallb plain rest = true ->
  getopt_scan_permuting optstring rest = ([], rest).
Proof.
  induction rest as [|a rest IH]; [reflexivity|].
  cbn [forallb]. rewrite andb_true_iff. intros [Ha Hr].
  rewrite getopt_scan_permuting_operand by (apply plain_get, Ha).
  rewrite (IH Hr). reflexivity.
Qed.

(** An argument ["-x..."] other than ["--"] is a cluster of options for both
    scans. *)
Lemma getopt_scan_cluster (optstring s : string) (rest : list string) :
  s <> EmptyString -> s <> "-"%string ->
  getopt_scan optstring (String "-" s :: rest) =
    (map (optchar optstring) (list_ascii_of_string s)
       ++ fst (getopt_scan optstring rest),
     snd (getopt_scan optstring rest)) /\
  getopt_scan_permuting optstring (String "-" s :: rest) =
    (map (optchar optstring) (list_ascii_of_string s)
       ++ fst (getopt_scan_permuting optstring rest),
     snd (getopt_scan_permuting optstring rest)) /\
  options_first (String "-" s :: rest) = options_first rest.
Proof.
  intros H1 H2. destruct s as [|d s]; [congruence|].
  assert (E : d = "-"%char /\ s = EmptyString \/
              (d = "-"%char /\ s <> EmptyString) \/ d <> "-"%char).
  { destruct (ascii_dec d "-") as [->|N]; [|tauto].
    destruct s; [left; tauto|right; left; split; congruence]. }
  destruct E as [[-> ->]|[[-> N]|N]]; [congruence| |].
  - destruct s as [|d' s]; [congruence|].
    cbn [getopt_scan getopt_scan_permuting options_first].
    destruct (getopt_scan optstring rest),
             (getopt_scan_permuting optstring rest); auto.
  - destruct d as [b0 b1 b2 b3 b4 b5 b6 b7].
    destruct b0, b1, b2, b3, b4, b5, b6, b7;
      try (cbn [getopt_scan getopt_scan_permuting options_first];
           destruct (getopt_scan optstring rest),
                    (getopt_scan_permuting optstring rest); auto).
    congruence.
Qed.

(** Where the options come first, a permuting [getopt] returns the options
    and leaves the operands that a [getopt] stopping at the first operand
    does. *)
Lemma getopt_scan_permuting_agrees (optstring : string) (args : list string) :
  options_first args = true ->
  getopt_scan_permuting optstring args = getopt_scan optstring args.
Proof.
  induction args as [|a rest IH]; [reflexivity|]. intros H.
  destruct (plain a) eqn:P.
  - assert (Hr : forallb plain rest = true).
    { apply plain_get in P. destruct a as [|c s]; [exact H|].
      cbn [String.get] in P.
      destruct c as [b0 b1 b2 b3 b4 b5 b6 b7].
      destruct b0, b1, b2, b3, b4, b5, b6, b7; try exact H.
      exfalso. apply P. reflexivity. }
    apply plain_get in P.
    rewrite getopt_scan_permuting_operand, getopt_scan_operand by exact P.
    rewrite (getopt_scan_permuting_plain _ _ Hr). reflexivity.
  - destruct a as [|c s]; [discriminate|].
    unfold plain in P. cbn [String.get] in P.
    apply negb_false_iff, Ascii.eqb_eq in P. subst c.
    destruct s as [|d s].
    + cbn [options_first] in H. cbn [getopt_scan getopt_scan_permuting].
      rewrite (getopt_scan_permuting_plain _ _ H). reflexivity.
    + destruct (string_dec (String d s) "-") as [E|N].
      * injection E as -> ->. reflexivity.
      * destruct (getopt_scan_cluster optstring (String d s) rest)
          as (E1 & E2 & E3); [discriminate|exact N|].
        rewrite E1, E2, <- IH by (rewrite <- E3; exact H). reflexivity.
Qed.

(** Operands that do not begin with ['-'] are scanned alike by both. *)
Lemma getopt_scan_permuting_operands (optstring : string) (args : list string) :
  (forall a, In a args -> String.get 0 a <> Some "-"%char) ->
  getopt_scan_permuting optstring args = getopt_scan optstring args.
Proof.
  intros H.
  assert (F : forallb plain args = true).
  { apply forallb_forall. intros a Ha. apply plain_get, H, Ha. }
  rewrite (getopt_scan_permuting_plain _ _ F).
  destruct args as [|a rest]; [reflexivity|].
  symmetry. apply getopt_scan_operand, H. left. reflexivity.
Qed.

(** ** edtasmcvt *)

Module EdtasmFacts.
Import Edtasm.

Lemma LINENUMCHAR_range (c : Z) :
  LINENUMCHAR c = true <-> 0xb0 <= c <= 0xb9.
Proof. unfold LINENUMCHAR. rewrite andb_true_iff. lia. Qed.

(** Clearing the high bit of a line-number byte gives the ASCII digit. *)
Lemma linenum_digit (c : Z) :
  LINENUMCHAR c = true ->
  Z.land c 0x7f = c - 0x80 /\ 48 <= Z.land c 0x7f <= 57.
Proof.
  intros H; apply LINENUMCHAR_range in H.
  assert (E : c = 176 \/ c = 177 \/ c = 178 \/ c = 179 \/ c = 180 \/
              c = 181 \/ c = 182 \/ c = 183 \/ c = 184 \/ c = 185) by lia.
  repeat (destruct E as [->|E]; [cbn; lia|]); subst; cbn; lia.
Qed.

Lemma text_char_spec (c : Z) :
  text_char c = true -> to_uchar c = c /\ (c =? EOLCHAR) = false.
Proof.
  unfold text_char; rewrite andb_true_iff, negb_true_iff.
  intros [? ?]; split; [apply to_uchar_byte|]; assumption.
Qed.

Section Flags.
Variables sl sh cvt : Z.

Lemma step_fname (f l k : Z) (o : list Z) (e : list diag) (ch : Z) :
  step sl sh cvt (Machine ES_FNAME f l k o e) ch =
  let o' := if sh =? 0 then o
            else (if f =? 0 then o ++ bytes_of_string "FILENAME: " else o)
                 ++ [to_uchar ch] in
  if f =? 5 then
    Next (Machine ES_LINENUM 0 l k
                  (if sh =? 0 then o' else o' ++ [NL; NL]) e)
  else Next (Machine ES_FNAME (f + 1) l k o' e).
Proof.
  unfold step, dispatch, when; cbn [state].
  destruct (sh =? 0); cbn [fnc]; [reflexivity|].
  destruct (f =? 0); cbn [fnc putc puts]; reflexivity.
Qed.

Lemma feed_header (name : list Z) :
  length name = 6%nat ->
  feed (step sl sh cvt) init (HEADERCHAR :: name) =
  Next (Machine ES_LINENUM 0 0 0 (filename_block sh name) []).
Proof.
  intros H.
  destruct name as [|a [|b [|c [|d [|e [|f [|]]]]]]]; try discriminate H.
  unfold filename_block. cbn [feed map].
  change (step sl sh cvt init HEADERCHAR)
    with (@Next Z machine (Machine ES_FNAME 0 0 0 [] [])).
  cbv iota.
  do 6 (rewrite step_fname; cbn [Z.eqb Z.add Pos.add Pos.succ Pos.eqb]).
  destruct (sh =? 0); cbn [app]; reflexivity.
Qed.

(** The single steps of a line record. *)
Lemma step_linenum (f l k : Z) (o : list Z) (e : list diag) (ch : Z) :
  LINENUMCHAR ch = true ->
  step sl sh cvt (Machine ES_LINENUM f l k o e) ch =
  let o' := if sl =? 0 then o else o ++ [to_uchar (Z.land ch 0x7f)] in
  if l + 1 =? 5 then Next (Machine ES_LINETXT f 0 k o' e)
  else Next (Machine ES_LINENUM f (l + 1) k o' e).
Proof.
  intros H. unfold step, dispatch, when; cbn [state]. rewrite H.
  destruct (sl =? 0); cbn; destruct (l + 1 =? 5); reflexivity.
Qed.

Lemma step_separator (f l : Z) (o : list Z) (e : list diag) (ch : Z) :
  (ch =? SPACE) || (ch =? TAB) = true ->
  step sl sh cvt (Machine ES_LINETXT f l 0 o e) ch =
  Next (Machine ES_LINETXT f l 1
          (if sl =? 0 then o
           else o ++ [to_uchar (if (ch =? SPACE) && (cvt =? 1)
                                then TAB else ch)]) e).
Proof.
  intros H. unfold step, dispatch, when; cbn [state tlcc Z.eqb].
  rewrite H. destruct (sl =? 0); reflexivity.
Qed.

Lemma step_text (f l k : Z) (o : list Z) (e : list diag) (ch : Z) :
  k <> 0 -> ch <> EOLCHAR ->
  step sl sh cvt (Machine ES_LINETXT f l k o e) ch =
  Next (Machine ES_LINETXT f l (k + 1) (o ++ [to_uchar ch]) e).
Proof.
  intros Hk Hc. unfold step, dispatch; cbn [state tlcc].
  apply Z.eqb_neq in Hk, Hc. rewrite Hk, Hc. reflexivity.
Qed.

Lemma step_eol (f l k : Z) (o : list Z) (e : list diag) :
  k <> 0 ->
  step sl sh cvt (Machine ES_LINETXT f l k o e) EOLCHAR =
  Next (Machine ES_LINENUM f l 0 (o ++ [NL]) e).
Proof.
  intros Hk. unfold step, dispatch; cbn [state tlcc].
  apply Z.eqb_neq in Hk. rewrite Hk. reflexivity.
Qed.

Lemma step_eof (f l k : Z) (o : list Z) (e : list diag) :
  step sl sh cvt (Machine ES_LINENUM f l k o e) EOFCHAR =
  Ret 0 (Machine ES_LINENUM f l k o e).
Proof. reflexivity. Qed.

(** Line text behind the separator is echoed byte by byte. *)
Lemma feed_text (txt : list Z) :
  forallb text_char txt = true ->
  forall f l k o e, 0 < k ->
  feed (step sl sh cvt) (Machine ES_LINETXT f l k o e) txt =
  Next (Machine ES_LINETXT f l (k + Z.of_nat (length txt)) (o ++ txt) e).
Proof.
  induction txt as [|c txt IH]; intros H f l k o e Hk.
  - cbn. rewrite Z.add_0_r, app_nil_r. reflexivity.
  - cbn [forallb] in H. apply andb_true_iff in H as [Hc H].
    apply text_char_spec in Hc as [Hu Hc]. apply Z.eqb_neq in Hc.
    cbn [feed]. rewrite step_text by (assumption || lia).
    rewrite IH by (assumption || lia).
    rewrite Hu, <- app_assoc. cbn [app length].
    do 2 f_equal. lia.
Qed.

Lemma feed_line (l : line) :
  wf_line l = true ->
  forall f o e,
  feed (step sl sh cvt) (Machine ES_LINENUM f 0 0 o e) (encode_line l) =
  Next (Machine ES_LINENUM f 0 0 (o ++ rendered_line sl cvt l) e).
Proof.
  unfold wf_line. rewrite !andb_true_iff.
  intros [[[Hn Hd] Hs] Ht] f o e.
  destruct l as [num sep txt]; cbn [number separator text] in *.
  destruct num as [|a [|b [|c [|d [|g [|]]]]]]; try discriminate Hn.
  cbn [forallb] in Hd. rewrite !andb_true_iff in Hd.
  destruct Hd as (Ha & Hb & Hc & Hd & Hg & _).
  unfold encode_line, rendered_line, numbered_line, stripped_line, digits.
  cbn [number separator text map app].
  assert (Hs' : (sep =? SPACE) || (sep =? TAB) = true) by exact Hs.
  assert (Hu : to_uchar (if (sep =? SPACE) && (cvt =? 1) then TAB else sep)
               = if (sep =? SPACE) && (cvt =? 1) then TAB else sep).
  { destruct ((sep =? SPACE) && (cvt =? 1)); [reflexivity|].
    apply orb_true_iff in Hs as [E|E]; apply Z.eqb_eq in E; subst;
      reflexivity. }
  assert (Hu' : forall x, LINENUMCHAR x = true ->
                          to_uchar (Z.land x 0x7f) = Z.land x 0x7f).
  { intros x Hx. apply linenum_digit in Hx as [_ Hx].
    apply Z.mod_small; lia. }
  cbn [feed].
  rewrite (step_linenum _ _ _ _ _ a Ha); cbn -[step to_uchar Z.land].
  rewrite (step_linenum _ _ _ _ _ b Hb); cbn -[step to_uchar Z.land].
  rewrite (step_linenum _ _ _ _ _ c Hc); cbn -[step to_uchar Z.land].
  rewrite (step_linenum _ _ _ _ _ d Hd); cbn -[step to_uchar Z.land].
  rewrite (step_linenum _ _ _ _ _ g Hg); cbn -[step to_uchar Z.land].
  rewrite (step_separator _ _ _ _ _ Hs').
  rewrite feed_app, feed_text by (assumption || lia).
  cbn [feed]. rewrite step_eol by lia.
  rewrite Hu, !Hu' by assumption.
  destruct (sl =? 0); cbn; rewrite <- ?app_assoc; reflexivity.
Qed.

Lemma feed_lines (ls : list line) :
  forallb wf_line ls = true ->
  forall f o e,
  feed (step sl sh cvt) (Machine ES_LINENUM f 0 0 o e)
       (concat (map encode_line ls)) =
  Next (Machine ES_LINENUM f 0 0
          (o ++ concat (map (rendered_line sl cvt) ls)) e).
Proof.
  induction ls as [|l ls IH]; intros H f o e; cbn.
  - rewrite app_nil_r; reflexivity.
  - cbn in H. apply andb_true_iff in H as [Hl H].
    rewrite feed_app, feed_line, IH, app_assoc by assumption.
    reflexivity.
Qed.

(** A well-formed stream is read up to its end-of-file mark, where
    [process_file] returns 0; the output is the filename block (empty
    unless it is asked for) and the lines as the options render them. *)
Lemma process_stream (name : list Z) (ls : list line) (rest : list Z) :
  length name = 6%nat -> forallb wf_line ls = true ->
  process_file sl sh cvt (stream name ls ++ rest) =
  (0, Machine ES_LINENUM 0 0 0
        (filename_block sh name ++ concat (map (rendered_line sl cvt) ls))
        []).
Proof.
  intros Hn Hl. unfold process_file, stream.
  rewrite <- !app_assoc.
  change ([HEADERCHAR] ++ name ++ ?x) with ((HEADERCHAR :: name) ++ x).
  rewrite feed_app, feed_header by assumption.
  rewrite feed_app, feed_lines by assumption.
  cbn [app feed]. rewrite step_eof. reflexivity.
Qed.
End Flags.

Lemma digits_spec (l : line) :
  wf_line l = true ->
  length (digits l) = 5%nat /\
  digits l = map (fun c => c - 0x80) (number l) /\
  Forall (fun c => 48 <= c <= 57) (digits l).
Proof.
  unfold wf_line, digits. rewrite !andb_true_iff.
  intros [[[Hn Hd] _] _]. apply Nat.eqb_eq in Hn.
  rewrite length_map. split; [assumption|].
  rewrite forallb_forall in Hd. split.
  - apply map_ext_in. intros c Hc. apply linenum_digit, Hd, Hc.
  - apply Forall_forall. intros x Hx. apply in_map_iff in Hx as (c & <- & Hc).
    apply linenum_digit, Hd, Hc.
Qed.

Lemma rendered_shown (l : line) : rendered_line 1 0 l = shown_line l.
Proof.
  unfold rendered_line, shown_line. cbn. rewrite andb_false_r. reflexivity.
Qed.




(** The newlines of the output are those that end its lines, when no line
    text holds one. *)
Lemma count_newlines (ls : list line) :
  forallb wf_line ls = true ->
  (forall l, In l ls -> ~ In NL (text l)) ->
  count_occ Z.eq_dec (concat (map shown_line ls)) NL = length ls.
Proof.
  induction ls as [|l ls IH]; intros H Ht; [reflexivity|].
  cbn in H. apply andb_true_iff in H as [Hl H].
  cbn [map concat length]. rewrite count_occ_app, IH; auto using in_cons.
  f_equal. unfold shown_line, numbered_line.
  rewrite !count_occ_app.
  destruct (digits_spec l Hl) as (_ & _ & Hd).
  rewrite (proj1 (count_occ_not_In Z.eq_dec (digits l) NL)).
  - rewrite (proj1 (count_occ_not_In Z.eq_dec (text l) NL))
      by (apply Ht; left; reflexivity).
    unfold wf_line in Hl. rewrite !andb_true_iff, orb_true_iff in Hl.
    destruct Hl as [[_ [Hs|Hs]] _]; apply Z.eqb_eq in Hs; rewrite Hs;
      reflexivity.
  - intros Hin. rewrite Forall_forall in Hd. apply Hd in Hin.
    unfold NL in Hin. lia.
Qed.

(** C1. A valid 7-byte header, [N] well-formed line records and the
    end-of-file mark, converted with the default options (line numbers
    shown, no header, no conversion): [process_file] returns 0, nothing goes
    to [stderr], and the output is the [N] lines in order, each the five
    decimal digits (the line-number bytes with the high bit cleared), the
    separator as it was, the text as it was and one newline; the program
    run without options on that standard input exits 0 with that output on
    [stdout]. *)
Theorem c1_default_round_trip
        (name : list Z) (ls : list line) (e : env) (pgm : string) :
  length name = 6%nat ->
  forallb wf_line ls = true ->
  stdin e = stream name ls ->
  ferror_out e = false ->
  fclose_eof e = false ->
  process_file 1 0 0 (stream name ls) =
    (0, Machine ES_LINENUM 0 0 0 (concat (map shown_line ls)) []) /\
  main e [pgm] = Run 0 (Some Stdout) (concat (map shown_line ls)) [] /\
  length (map shown_line ls) = length ls /\
  Forall (fun l =>
            shown_line l =
              map (fun c => c - 0x80) (number l)
              ++ [separator l] ++ text l ++ [NL] /\
            length (number l) = 5%nat /\
            Forall (fun c => 48 <= c - 0x80 <= 57) (number l)) ls /\
  ((forall l, In l ls -> ~ In NL (text l)) ->
   count_occ Z.eq_dec (concat (map shown_line ls)) NL = length ls).
Proof.
  intros Hn Hl Hin Hfe Hfc.
  assert (P : process_file 1 0 0 (stream name ls) =
              (0, Machine ES_LINENUM 0 0 0 (concat (map shown_line ls)) [])).
  { rewrite <- (app_nil_r (stream name ls)).
    rewrite process_stream by assumption.
    cbn [filename_block Z.eqb app].
    rewrite (map_ext _ _ rendered_shown). reflexivity. }
  split; [exact P|]. split.
  { unfold main, process_args. cbn [tl getopt_scan scan_options].
    cbn [length Nat.ltb Nat.leb InputFile OutputFile Show_Linenums
         Show_File_Hdr Cvt_Newer_Format bytes_of].
    rewrite Hin, P. cbn [Z.eqb]. rewrite Hfe, Hfc. reflexivity. }
  split; [apply length_map|]. split.
  - apply Forall_forall. intros l Hl'.
    rewrite forallb_forall in Hl. specialize (Hl l Hl').
    destruct (digits_spec l Hl) as (H5 & Hd & Hr).
    unfold shown_line, numbered_line. rewrite Hd. split; [reflexivity|].
    rewrite Hd, length_map in H5. split; [assumption|].
    rewrite Hd in Hr. rewrite Forall_map in Hr. exact Hr.
  - apply count_newlines; assumption.
Qed.

Lemma c1_default_round_trip_witness :
  main sample_env ["edtasmcvt"%string] =
  Run 0 (Some Stdout) (concat (map shown_line sample_lines)) [].
Proof.
  exact (proj1 (proj2 (c1_default_round_trip
                         sample_name sample_lines sample_env "edtasmcvt"
                         eq_refl eq_refl eq_refl eq_refl eq_refl))).
Defined.

Lemma skipn_shown_line (l : line) :
  wf_line l = true -> skipn 6 (shown_line l) = stripped_line l.
Proof.
  intros H. destruct (digits_spec l H) as (H5 & _ & _).
  unfold shown_line, numbered_line, stripped_line.
  destruct (digits l) as [|a [|b [|c [|d [|g [|]]]]]]; try discriminate H5.
  reflexivity.
Qed.

(** C6. On a well-formed stream the strip option ([Show_Linenums = 0], set
    by [-s]) gives the output of the default options with the first six
    characters, the five digits and the separator, taken off each of its
    lines: the [N] texts, each with its newline. *)
Theorem c6_strip_drops_six
        (name : list Z) (ls : list line) (e : env) (pgm : string) :
  length name = 6%nat ->
  forallb wf_line ls = true ->
  stdin e = stream name ls ->
  ferror_out e = false ->
  fclose_eof e = false ->
  outfile (snd (process_file 1 0 0 (stream name ls))) =
    concat (map shown_line ls) /\
  process_file 0 0 0 (stream name ls) =
    (0, Machine ES_LINENUM 0 0 0
          (concat (map (fun l => skipn 6 (shown_line l)) ls)) []) /\
  map (fun l => skipn 6 (shown_line l)) ls = map stripped_line ls /\
  output (main e [pgm; "-s"%string]) =
    concat (map (skipn 6) (map shown_line ls)) /\
  exit_status (main e [pgm; "-s"%string]) = 0.
Proof.
  intros Hn Hl Hin Hfe Hfc.
  assert (E : map (fun l => skipn 6 (shown_line l)) ls = map stripped_line ls).
  { apply map_ext_in. intros l Hl'. apply skipn_shown_line.
    rewrite forallb_forall in Hl. apply Hl, Hl'. }
  assert (P : process_file 0 0 0 (stream name ls) =
              (0, Machine ES_LINENUM 0 0 0
                    (concat (map (fun l => skipn 6 (shown_line l)) ls)) [])).
  { rewrite <- (app_nil_r (stream name ls)).
    rewrite process_stream by assumption. rewrite E. reflexivity. }
  split.
  { rewrite <- (app_nil_r (stream name ls)).
    rewrite process_stream by assumption. cbn [snd outfile filename_block Z.eqb app].
    rewrite (map_ext _ _ rendered_shown). reflexivity. }
  split; [exact P|]. split; [exact E|].
  rewrite map_map.
  unfold main, process_args. cbn [tl getopt_scan list_ascii_of_string map app].
  cbn. rewrite Hin, P. cbn [Z.eqb]. rewrite Hfe, Hfc. split; reflexivity.
Qed.

Lemma c6_strip_drops_six_witness :
  output (main sample_env ["edtasmcvt"; "-s"]%string) =
  concat (map (skipn 6) (map shown_line sample_lines)).
Proof.
  exact (proj1 (proj2 (proj2 (proj2
           (c6_strip_drops_six sample_name sample_lines sample_env "edtasmcvt"
                               eq_refl eq_refl eq_refl eq_refl eq_refl))))).
Defined.






(** The only [return 0] inside the loop: the end-of-file mark, read where a
    line-number byte is expected; nothing is written there. *)
Lemma step_ret0 (sl sh cvt : Z) (m m' : machine) (ch : Z) :
  step sl sh cvt m ch = Ret 0 m' <->
  ch = EOFCHAR /\ state m = ES_LINENUM /\ m' = m.
Proof.
  split.
  - unfold step, dispatch. destruct (state m) eqn:Es;
      cbn [state set_state]; break_ifs; intros H; inversion H; subst.
    repeat split. apply Z.eqb_eq; assumption.
  - intros (-> & Es & ->). unfold step, dispatch. rewrite Es. reflexivity.
Qed.

(** A step that stays in the loop writes nothing to [stderr]. *)
Lemma step_next_stderr (sl sh cvt : Z) (m m' : machine) (ch : Z) :
  step sl sh cvt m ch = Next m' -> stderr m' = stderr m.
Proof.
  unfold step, dispatch, when. destruct m as [st f l k o e].
  destruct st; cbn [state set_state fnc lncc tlcc];
    break_ifs; intros H; inversion H; reflexivity.
Qed.

Lemma feed_next_stderr (sl sh cvt : Z) (input : list Z) (m m' : machine) :
  feed (step sl sh cvt) m input = Next m' -> stderr m' = stderr m.
Proof.
  revert m; induction input as [|ch rest IH]; intros m; cbn.
  - intros [= ->]; reflexivity.
  - destruct (step sl sh cvt m ch) eqn:E; [|discriminate].
    intros H. rewrite (IH _ H). eapply step_next_stderr, E.
Qed.

(** Fewer than five line-number bytes leave the machine in the line-number
    state. *)
Lemma feed_digits (sl sh cvt : Z) (ds : list Z) :
  forallb LINENUMCHAR ds = true ->
  forall f l k o e, 0 <= l -> l + Z.of_nat (length ds) < 5 ->
  exists o',
    feed (step sl sh cvt) (Machine ES_LINENUM f l k o e) ds =
    Next (Machine ES_LINENUM f (l + Z.of_nat (length ds)) k o' e).
Proof.
  induction ds as [|d ds IH]; intros H f l k o e Hl Hlt.
  - exists o. cbn. rewrite Z.add_0_r. reflexivity.
  - cbn [forallb] in H. apply andb_true_iff in H as [Hd H].
    cbn [feed]. rewrite step_linenum by assumption. cbv zeta.
    cbn [length] in Hlt |- *.
    replace (l + 1 =? 5) with false by (symmetry; apply Z.eqb_neq; lia).
    destruct (IH H f (l + 1) k
                 (if sl =? 0 then o else o ++ [to_uchar (Z.land d 0x7f)]) e)
      as [o' E]; [lia|lia|].
    exists o'. rewrite E. do 2 f_equal. lia.
Qed.

(** C8. [process_file] returns 0 in two ways and no other: the input is
    exhausted (the loop ends), in whatever state, or the byte [0x1a] is read
    in the line-number state.  The second happens at every digit position;
    the first raises no format error, even in the middle of a record: every
    truncation of a well-formed stream gives 0 and an empty [stderr].  With
    an output stream that reports no error, the exit status of the program
    is the value [process_file] returns. *)
Theorem c8_clean_termination
        (sl sh cvt : Z) (input name ds rest : list Z) (ls : list line)
        (n : nat) :
  length name = 6%nat ->
  forallb wf_line ls = true ->
  forallb LINENUMCHAR ds = true ->
  (length ds < 5)%nat ->
  (fst (process_file sl sh cvt input) = 0 <->
   (exists m, feed (step sl sh cvt) init input = Next m) \/
   (exists pre post m,
       input = pre ++ EOFCHAR :: post /\
       feed (step sl sh cvt) init pre = Next m /\
       state m = ES_LINENUM)) /\
  (forall m, feed (step sl sh cvt) init input = Next m ->
             process_file sl sh cvt input = (0, m) /\ stderr m = []) /\
  fst (process_file sl sh cvt
         ([HEADERCHAR] ++ name ++ concat (map encode_line ls)
          ++ ds ++ [EOFCHAR] ++ rest)) = 0 /\
  (let r := process_file sl sh cvt (firstn n (stream name ls)) in
   fst r = 0 /\ stderr (snd r) = []) /\
  (forall (e : env) (pgm : string),
      ferror_out e = false -> fclose_eof e = false ->
      exit_status (main e [pgm]) = fst (process_file 1 0 0 (stdin e))).
Proof.
  intros Hn Hl Hd H5. split; [|split; [|split; [|split]]].
  - unfold process_file. split.
    + destruct (feed (step sl sh cvt) init input) as [m|c m] eqn:E.
      * intros _. left. eauto.
      * cbn [fst]. intros ->. right.
        apply feed_ret_inv in E as (pre & ch & post & m1 & -> & Hp & Hs).
        apply step_ret0 in Hs as (-> & Hs & _). eauto 6.
    + intros [[m E]|(pre & post & m & -> & Hp & Hs)].
      * rewrite E. reflexivity.
      * rewrite (feed_app_next _ _ _ _ _ Hp). cbn [feed].
        rewrite (proj2 (step_ret0 sl sh cvt m m EOFCHAR)) by auto.
        reflexivity.
  - intros m E. unfold process_file. rewrite E. split; [reflexivity|].
    apply feed_next_stderr in E. exact E.
  - unfold process_file.
    change ([HEADERCHAR] ++ name ++ ?x) with ((HEADERCHAR :: name) ++ x).
    rewrite feed_app, feed_header by assumption.
    rewrite feed_app, feed_lines by assumption.
    destruct (feed_digits sl sh cvt ds Hd 0 0 0
                (filename_block sh name
                 ++ concat (map (rendered_line sl cvt) ls)) [])
      as [o' E]; [lia|lia|].
    rewrite feed_app, E. cbn [app feed]. rewrite step_eof. reflexivity.
  - cbv zeta.
    pose proof (process_stream sl sh cvt name ls [] Hn Hl) as P.
    rewrite app_nil_r in P. unfold process_file in *.
    destruct (feed_firstn (step sl sh cvt) init (stream name ls) n)
      as [[m E]|E].
    + rewrite E. split; [reflexivity|].
      apply feed_next_stderr in E. exact E.
    + rewrite E.
      destruct (feed (step sl sh cvt) init (stream name ls));
        inversion P; split; reflexivity.
  - intros e pgm Hfe Hfc. unfold main, process_args.
    cbn [tl getopt_scan scan_options].
    cbn [length Nat.ltb Nat.leb InputFile OutputFile Show_Linenums
         Show_File_Hdr Cvt_Newer_Format bytes_of].
    destruct (process_file 1 0 0 (stdin e)) as [r m]. cbn [fst].
    destruct (r =? 0) eqn:E; [|reflexivity].
    rewrite Hfe, Hfc. apply Z.eqb_eq in E. subst. reflexivity.
Qed.

Lemma c8_clean_termination_witness :
  fst (process_file 1 0 0
         ([HEADERCHAR] ++ sample_name
          ++ concat (map encode_line sample_lines)
          ++ [0xb0; 0xb0; 0xb3] ++ [EOFCHAR] ++ [0x41])) = 0 /\
  fst (process_file 1 0 0 (firstn 12 (stream sample_name sample_lines))) = 0.
Proof.
  pose proof (c8_clean_termination
                1 0 0 [] sample_name [0xb0; 0xb0; 0xb3] [0x41] sample_lines
                12 eq_refl eq_refl eq_refl
                (le_S _ _ (le_n 4))) as H.
  split; [exact (proj1 (proj2 (proj2 H)))
         | exact (proj1 (proj1 (proj2 (proj2 (proj2 H)))))].
Defined.

(** C10. In the line-text state, behind the separator, a byte other than
    [0x0d] is written out as it is and the state stays; so is the byte
    [0x1a], which ends nothing there.  A step returns 0 only on [0x1a] in
    the line-number state, and a well-formed stream whose texts hold
    [0x1a] is converted up to its end-of-file mark. *)
Theorem c10_text_echo
        (sl sh cvt : Z) (m : machine) (ch : Z)
        (name : list Z) (ls : list line) :
  state m = ES_LINETXT ->
  tlcc m <> 0 ->
  is_byte ch ->
  ch <> EOLCHAR ->
  length name = 6%nat ->
  forallb wf_line ls = true ->
  step sl sh cvt m ch =
    Next (Machine ES_LINETXT (fnc m) (lncc m) (tlcc m + 1)
                  (outfile m ++ [ch]) (stderr m)) /\
  step sl sh cvt m EOFCHAR =
    Next (Machine ES_LINETXT (fnc m) (lncc m) (tlcc m + 1)
                  (outfile m ++ [EOFCHAR]) (stderr m)) /\
  (forall (m0 m1 : machine) (c : Z),
      step sl sh cvt m0 c = Ret 0 m1 <->
      c = EOFCHAR /\ state m0 = ES_LINENUM /\ m1 = m0) /\
  process_file sl sh cvt (stream name ls) =
    (0, Machine ES_LINENUM 0 0 0
          (filename_block sh name
           ++ concat (map (rendered_line sl cvt) ls)) []).
Proof.
  intros Hs Hk Hb Hc Hn Hl.
  destruct m as [st f l k o e]; cbn [state tlcc fnc lncc outfile stderr] in *.
  subst st. split; [|split; [|split]].
  - rewrite step_text by assumption.
    unfold to_uchar. rewrite Z.mod_small by exact Hb. reflexivity.
  - rewrite step_text by (assumption || discriminate). reflexivity.
  - intros m0 m1 c. apply step_ret0.
  - rewrite <- (app_nil_r (stream name ls)).
    apply process_stream; assumption.
Qed.

Lemma c10_text_echo_witness :
  step 1 0 0 (Machine ES_LINETXT 0 0 2 [48; 48; 48; 48; 53; 9; 65] [])
       EOFCHAR =
    Next (Machine ES_LINETXT 0 0 3 [48; 48; 48; 48; 53; 9; 65; 26] []) /\
  process_file 1 0 0 (stream sample_name sample_lines_1a) =
    (0, Machine ES_LINENUM 0 0 0
          (concat (map (rendered_line 1 0) sample_lines_1a)) []).
Proof.
  assert (B : is_byte EOFCHAR) by (unfold is_byte, EOFCHAR; lia).
  assert (N : EOFCHAR <> EOLCHAR) by discriminate.
  assert (K : 2 <> 0) by discriminate.
  pose proof (c10_text_echo
                1 0 0 (Machine ES_LINETXT 0 0 2 [48; 48; 48; 48; 53; 9; 65] [])
                EOFCHAR sample_name sample_lines_1a
                eq_refl K B N eq_refl eq_refl) as H.
  split; [exact (proj1 H) | exact (proj2 (proj2 (proj2 H)))].
Defined.

(** *** Beyond the claims: the rest of [process_file] *)

Ltac simpl_step := cbn -[to_uchar Z.land bytes_of_string].

(** Case analysis on the tests of a goal, the inner ones first. *)
Ltac break_inner :=
  repeat (match goal with
          | |- context [if ?c then _ else _] =>
              lazymatch c with
              | context [if _ then _ else _] => fail
              | _ => destruct c eqn:?
              end
          end; simpl_step).

Lemma same_control_refl (m : machine) : same_control m m.
Proof. repeat split. Qed.

(** The options change what a step writes and nothing else. *)
Lemma step_same_control
      (sl sh cvt sl' sh' cvt' : Z) (m m' : machine) (ch : Z) :
  same_control m m' ->
  match step sl sh cvt m ch, step sl' sh' cvt' m' ch with
  | Next a, Next b => same_control a b
  | Ret c a, Ret c' b => c = c' /\ same_control a b
  | _, _ => False
  end.
Proof.
  destruct m as [st f l k o e], m' as [st' f' l' k' o' e'].
  unfold same_control; cbn [state fnc lncc tlcc stderr].
  intros (-> & -> & -> & -> & ->).
  unfold step, dispatch, when.
  destruct st'; destruct (sl =? 0), (sl' =? 0), (sh =? 0), (sh' =? 0);
    simpl_step; break_inner; try congruence; repeat split; reflexivity.
Qed.

Lemma feed_same_control
      (sl sh cvt sl' sh' cvt' : Z) (input : list Z) (m m' : machine) :
  same_control m m' ->
  match feed (step sl sh cvt) m input, feed (step sl' sh' cvt') m' input with
  | Next a, Next b => same_control a b
  | Ret c a, Ret c' b => c = c' /\ same_control a b
  | _, _ => False
  end.
Proof.
  revert m m'; induction input as [|ch rest IH]; intros m m' H; cbn [feed].
  - exact H.
  - pose proof (step_same_control sl sh cvt sl' sh' cvt' m m' ch H) as S.
    destruct (step sl sh cvt m ch), (step sl' sh' cvt' m' ch);
      try contradiction; [apply IH, S | exact S].
Qed.

(** X1. The value [process_file] returns and what it writes to [stderr] do
    not depend on the options: for every input, two runs under any two
    settings of [Show_Linenums], [show_hdr] and [cvt_newerfmt] return the
    same value, with the same messages, in the same state. *)
Theorem status_independent_of_options
        (sl sh cvt sl' sh' cvt' : Z) (input : list Z) :
  fst (process_file sl sh cvt input) = fst (process_file sl' sh' cvt' input) /\
  same_control (snd (process_file sl sh cvt input))
               (snd (process_file sl' sh' cvt' input)).
Proof.
  unfold process_file.
  pose proof (feed_same_control sl sh cvt sl' sh' cvt' input init init
                                (same_control_refl init)) as H.
  destruct (feed (step sl sh cvt) init input),
           (feed (step sl' sh' cvt') init input);
    try contradiction; cbn [fst snd]; [split; [reflexivity|exact H] | exact H].
Qed.

(** A return from inside the loop is a [return 0] that writes nothing or
    a [return 2] behind one message. *)
Lemma step_ret_cases (sl sh cvt : Z) (m m' : machine) (ch c : Z) :
  step sl sh cvt m ch = Ret c m' ->
  (c = 0 /\ stderr m' = stderr m) \/
  (c = 2 /\ exists d, stderr m' = stderr m ++ [d]).
Proof.
  destruct m as [st f l k o e].
  unfold step, dispatch, when.
  destruct st; destruct (sl =? 0), (sh =? 0);
    simpl_step; break_inner; try congruence;
    intros H; inversion H; subst; simpl_step;
    (left; split; reflexivity) || (right; split; [reflexivity|eauto]).
Qed.

(** X2. [process_file] returns 0 or 2 on every input, never the 3 of its
    [default:] branch; it returns 0 exactly when it has written nothing to
    [stderr], and 2 exactly when it has written one message. *)
Theorem returns_zero_or_two (sl sh cvt : Z) (input : list Z) :
  let r := process_file sl sh cvt input in
  (fst r = 0 \/ fst r = 2) /\
  (fst r = 0 <-> stderr (snd r) = []) /\
  (fst r = 2 <-> exists d, stderr (snd r) = [d]).
Proof.
  cbv zeta. unfold process_file.
  destruct (feed (step sl sh cvt) init input) as [m|c m] eqn:E; cbn [fst snd].
  - apply feed_next_stderr in E. cbn [stderr init] in E. rewrite E.
    split; [left; reflexivity|]. split; [tauto|].
    split; [discriminate|]. intros [d H]; discriminate H.
  - apply feed_ret_inv in E as (pre & ch & post & m1 & _ & Hp & Hs).
    apply feed_next_stderr in Hp. cbn [stderr init] in Hp.
    apply step_ret_cases in Hs as [[-> Hs]|[-> [d Hs]]]; rewrite Hs, Hp.
    + split; [left; reflexivity|]. split; [tauto|].
      split; [discriminate|]. intros [d H]; discriminate H.
    + split; [right; reflexivity|]. cbn [app].
      split; [split; discriminate|]. split; eauto.
Qed.

(** In the first state a line-number byte is handled as in the
    line-number state. *)
Lemma step_init_linenum (sl sh cvt : Z) (ch : Z) :
  LINENUMCHAR ch = true ->
  step sl sh cvt init ch = step sl sh cvt (Machine ES_LINENUM 0 0 0 [] []) ch.
Proof.
  intros H. unfold step. cbn [state init].
  replace (ch =? HEADERCHAR) with false.
  - rewrite H. reflexivity.
  - symmetry. apply Z.eqb_neq. apply LINENUMCHAR_range in H.
    unfold HEADERCHAR. lia.
Qed.

(** X3. A file in the newer format, without the filename header, is
    converted like one with the header: the first line-number byte is not
    lost to the format test, each record gives its line, and the
    header option writes nothing.  The file must start with a record: one
    that holds the end-of-file mark alone is rejected with status 2. *)
Theorem headerless_stream
        (sl sh cvt : Z) (l : line) (ls : list line) (rest : list Z) :
  wf_line l = true ->
  forallb wf_line ls = true ->
  process_file sl sh cvt (headerless (l :: ls) ++ rest) =
    (0, Machine ES_LINENUM 0 0 0
          (concat (map (rendered_line sl cvt) (l :: ls))) []) /\
  process_file sl sh cvt (headerless [] ++ rest) =
    (2, Machine ES_HDR 0 0 0 [] [Unexpected_file_format]).
Proof.
  intros Hl Hls. split; [|reflexivity].
  assert (W : forallb wf_line (l :: ls) = true)
    by (cbn [forallb]; rewrite Hl, Hls; reflexivity).
  pose proof (feed_lines sl sh cvt (l :: ls) W 0 [] []) as F.
  unfold process_file, headerless. rewrite <- app_assoc.
  assert (E : forall tail,
             feed (step sl sh cvt) init (encode_line l ++ tail) =
             feed (step sl sh cvt) (Machine ES_LINENUM 0 0 0 [] [])
                  (encode_line l ++ tail)).
  { intros tail. unfold wf_line in Hl. rewrite !andb_true_iff in Hl.
    destruct Hl as [[[Hn Hd] _] _].
    unfold encode_line. destruct (number l) as [|d ds]; [discriminate Hn|].
    cbn [forallb] in Hd. apply andb_true_iff in Hd as [Hd _].
    cbn [app feed]. rewrite (step_init_linenum sl sh cvt d Hd).
    reflexivity. }
  cbn [map concat] in *. rewrite <- app_assoc.
  rewrite E, app_assoc, feed_app, F. cbn [app feed].
  rewrite step_eof. reflexivity.
Qed.

Lemma headerless_stream_witness :
  process_file 1 1 0 (headerless sample_lines_newer ++ [0x00; 0x00]) =
    (0, Machine ES_LINENUM 0 0 0
          (concat (map (rendered_line 1 0) sample_lines_newer)) []).
Proof.
  exact (proj1 (headerless_stream
                  1 1 0
                  (Line [0xb0; 0xb0; 0xb0; 0xb1; 0xb0] TAB
                        (bytes_of_string "LD A,1"))
                  [Line [0xb0; 0xb0; 0xb0; 0xb2; 0xb0] TAB []]
                  [0x00; 0x00] eq_refl eq_refl)).
Defined.

Lemma name_bytes (name : list Z) :
  forallb is_byteb name = true -> map to_uchar name = name.
Proof.
  induction name as [|c name IH]; [reflexivity|].
  cbn [forallb]. rewrite andb_true_iff. intros [Hc Hb].
  cbn [map]. rewrite (to_uchar_byte c Hc), (IH Hb). reflexivity.
Qed.

(** X4. With the header option ([show_hdr] set by [-f]) the output of a
    well-formed stream is ["FILENAME: "], the six bytes of the name as
    they are in the file (trailing spaces included) and two newlines,
    followed by exactly what the run without the option writes. *)
Theorem header_option
        (sl cvt : Z) (name : list Z) (ls : list line) (e : env)
        (pgm : string) :
  length name = 6%nat ->
  forallb is_byteb name = true ->
  forallb wf_line ls = true ->
  stdin e = stream name ls ->
  ferror_out e = false ->
  fclose_eof e = false ->
  outfile (snd (process_file sl 1 cvt (stream name ls))) =
    bytes_of_string "FILENAME: " ++ name ++ [NL; NL]
    ++ outfile (snd (process_file sl 0 cvt (stream name ls))) /\
  fst (process_file sl 1 cvt (stream name ls)) = 0 /\
  main e [pgm; "-f"%string] =
    Run 0 (Some Stdout)
        (bytes_of_string "FILENAME: " ++ name ++ [NL; NL]
         ++ output (main e [pgm])) [].
Proof.
  intros Hn Hb Hl Hin Hfe Hfc.
  pose proof (name_bytes name Hb) as M.
  pose proof (process_stream sl 1 cvt name ls [] Hn Hl) as P1.
  pose proof (process_stream sl 0 cvt name ls [] Hn Hl) as P0.
  rewrite app_nil_r in P1, P0.
  split; [|split].
  - rewrite P1, P0. cbn [snd outfile filename_block Z.eqb app].
    rewrite M, <- !app_assoc. reflexivity.
  - rewrite P1. reflexivity.
  - pose proof (process_stream 1 1 0 name ls [] Hn Hl) as Q1.
    pose proof (process_stream 1 0 0 name ls [] Hn Hl) as Q0.
    rewrite app_nil_r in Q1, Q0.
    unfold main, process_args.
    cbn [tl getopt_scan list_ascii_of_string map app].
    cbn -[process_file]. rewrite Hin, Q1, Q0. cbn [Z.eqb].
    rewrite Hfe, Hfc. cbn [output outfile filename_block Z.eqb app].
    rewrite M, <- !app_assoc. reflexivity.
Qed.

Lemma header_option_witness :
  main sample_env ["edtasmcvt"; "-f"]%string =
    Run 0 (Some Stdout)
        (bytes_of_string "FILENAME: " ++ sample_name ++ [NL; NL]
         ++ output (main sample_env ["edtasmcvt"%string])) [].
Proof.
  exact (proj2 (proj2 (header_option 1 0 sample_name sample_lines sample_env
                                     "edtasmcvt" eq_refl eq_refl eq_refl
                                     eq_refl eq_refl eq_refl))).
Defined.

(** Line-number bytes short of five, with what they write. *)
Lemma feed_digits_out (sl sh cvt : Z) (ds : list Z) :
  forallb LINENUMCHAR ds = true ->
  forall f l k o e, 0 <= l -> l + Z.of_nat (length ds) < 5 ->
  feed (step sl sh cvt) (Machine ES_LINENUM f l k o e) ds =
  Next (Machine ES_LINENUM f (l + Z.of_nat (length ds)) k
                (o ++ if sl =? 0 then []
                      else map (fun c => Z.land c 0x7f) ds) e).
Proof.
  induction ds as [|d ds IH]; intros H f l k o e Hl Hlt.
  - cbn. rewrite Z.add_0_r. destruct (sl =? 0); rewrite app_nil_r; reflexivity.
  - cbn [forallb] in H. apply andb_true_iff in H as [Hd H].
    cbn [feed]. rewrite step_linenum by assumption. cbv zeta.
    cbn [length] in Hlt |- *.
    replace (l + 1 =? 5) with false by (symmetry; apply Z.eqb_neq; lia).
    rewrite IH by (assumption || lia).
    assert (U : to_uchar (Z.land d 0x7f) = Z.land d 0x7f).
    { apply linenum_digit in Hd as [_ Hd]. apply Z.mod_small. lia. }
    rewrite U. f_equal. f_equal; [lia|].
    destruct (sl =? 0); [reflexivity|].
    rewrite <- app_assoc. reflexivity.
Qed.

(** X5. The three format errors.  A first byte that is neither the header
    mark nor a line-number byte, a byte inside a line number that is
    neither a line-number byte nor the end-of-file mark, and a byte behind
    a line number that is neither a space nor a tab each end the run with
    status 2 and their own message; the rest of the input is not read, and
    what was written before the byte, the digits of the broken line
    included, stays written. *)
Theorem format_errors
        (sl sh cvt : Z) (name ds : list Z) (ls : list line) (l : line)
        (b1 b2 b3 : Z) (rest : list Z) :
  length name = 6%nat ->
  forallb wf_line ls = true ->
  wf_line l = true ->
  forallb LINENUMCHAR ds = true ->
  (length ds < 5)%nat ->
  b1 <> HEADERCHAR -> LINENUMCHAR b1 = false ->
  LINENUMCHAR b2 = false -> b2 <> EOFCHAR ->
  b3 <> SPACE -> b3 <> TAB ->
  process_file sl sh cvt (b1 :: rest) =
    (2, Machine ES_HDR 0 0 0 [] [Unexpected_file_format]) /\
  process_file sl sh cvt
    ([HEADERCHAR] ++ name ++ concat (map encode_line ls) ++ ds ++ b2 :: rest) =
    (2, Machine ES_LINENUM 0 (Z.of_nat (length ds)) 0
          (filename_block sh name ++ concat (map (rendered_line sl cvt) ls)
           ++ if sl =? 0 then [] else map (fun c => Z.land c 0x7f) ds)
          [Bad_line_number]) /\
  process_file sl sh cvt
    ([HEADERCHAR] ++ name ++ concat (map encode_line ls)
     ++ number l ++ b3 :: rest) =
    (2, Machine ES_LINETXT 0 0 1
          (filename_block sh name ++ concat (map (rendered_line sl cvt) ls)
           ++ if sl =? 0 then [] else digits l)
          [Unexpected_character b3]).
Proof.
  intros Hn Hls Hl Hd H5 Hb1 Hb1' Hb2 Hb2' Hb3 Hb3'.
  apply Z.eqb_neq in Hb1, Hb2', Hb3, Hb3'.
  split; [|split].
  - unfold process_file. cbn [feed]. unfold step. cbn [state init].
    rewrite Hb1, Hb1'. reflexivity.
  - unfold process_file.
    change ([HEADERCHAR] ++ name ++ ?x) with ((HEADERCHAR :: name) ++ x).
    rewrite feed_app, feed_header by assumption.
    rewrite feed_app, feed_lines by assumption.
    rewrite feed_app, feed_digits_out by (assumption || lia).
    cbn [feed]. unfold step, dispatch. cbn [state].
    rewrite Hb2, Hb2'. cbn [eprint state fnc lncc tlcc outfile stderr app].
    rewrite <- app_assoc. reflexivity.
  - unfold wf_line in Hl. rewrite !andb_true_iff in Hl.
    destruct Hl as [[[Hnum Hdig] _] _].
    unfold process_file, digits.
    change ([HEADERCHAR] ++ name ++ ?x) with ((HEADERCHAR :: name) ++ x).
    rewrite feed_app, feed_header by assumption.
    rewrite feed_app, feed_lines by assumption.
    destruct (number l) as [|d0 [|d1 [|d2 [|d3 [|d4 [|]]]]]];
      try discriminate Hnum.
    cbn [forallb] in Hdig. rewrite !andb_true_iff in Hdig.
    destruct Hdig as (H0 & H1 & H2 & H3 & H4 & _).
    change ([d0; d1; d2; d3; d4] ++ b3 :: rest)
      with ([d0; d1; d2; d3] ++ d4 :: b3 :: rest).
    rewrite feed_app, feed_digits_out
      by (cbn [forallb length]; rewrite ?H0, ?H1, ?H2, ?H3; reflexivity || lia).
    cbn [feed length]. rewrite step_linenum by assumption. cbv zeta.
    cbn [Z.add Z.of_nat Pos.of_succ_nat Pos.succ Z.eqb Pos.add Pos.eqb].
    unfold step, dispatch. cbn [state tlcc Z.eqb].
    rewrite Hb3, Hb3'.
    cbn [orb eprint set_tlcc state fnc lncc tlcc outfile stderr app Z.add].
    assert (U : to_uchar (Z.land d4 0x7f) = Z.land d4 0x7f).
    { apply linenum_digit in H4 as [_ H4]. apply Z.mod_small. lia. }
    rewrite U. destruct (sl =? 0); cbn [map app];
      rewrite <- ?app_assoc; reflexivity.
Qed.

Lemma format_errors_witness :
  process_file 1 0 0
    ([HEADERCHAR] ++ sample_name ++ concat (map encode_line sample_lines)
     ++ [0xb0; 0xb0] ++ [0x30; 0x41]) =
    (2, Machine ES_LINENUM 0 2 0
          (concat (map (rendered_line 1 0) sample_lines) ++ [0x30; 0x30])
          [Bad_line_number]).
Proof.
  assert (A : 0x41 <> HEADERCHAR) by discriminate.
  assert (B : 0x30 <> EOFCHAR) by discriminate.
  assert (C : 0x2c <> SPACE) by discriminate.
  assert (D : 0x2c <> TAB) by discriminate.
  exact (proj1 (proj2 (format_errors
                         1 0 0 sample_name [0xb0; 0xb0] sample_lines
                         (Line [0xb0; 0xb0; 0xb0; 0xb3; 0xb0] SPACE [])
                         0x41 0x30 0x2c [0x41]
                         eq_refl eq_refl eq_refl eq_refl
                         (le_S _ _ (le_S _ _ (le_n 3)))
                         A eq_refl eq_refl B C D))).
Defined.

(** A step only appends to the output. *)
Lemma step_output_grows (sl sh cvt : Z) (m : machine) (ch : Z) :
  exists s, outfile (machine_of (step sl sh cvt m ch)) = outfile m ++ s.
Proof.
  destruct m as [st f l k o e].
  unfold step, dispatch, when.
  destruct st; destruct (sl =? 0), (sh =? 0); simpl_step; break_inner;
    try congruence; rewrite <- ?app_assoc;
    (eexists; reflexivity) || (exists []; rewrite app_nil_r; reflexivity).
Qed.

Lemma feed_output_grows (sl sh cvt : Z) (input : list Z) (m : machine) :
  exists s,
    outfile (machine_of (feed (step sl sh cvt) m input)) = outfile m ++ s.
Proof.
  revert m; induction input as [|ch rest IH]; intros m; cbn [feed].
  - exists []. rewrite app_nil_r. reflexivity.
  - destruct (step_output_grows sl sh cvt m ch) as [s1 H1].
    destruct (step sl sh cvt m ch) as [m'|c m'] eqn:E; cbn [machine_of] in *.
    + destruct (IH m') as [s2 H2]. exists (s1 ++ s2).
      rewrite H2, H1, app_assoc. reflexivity.
    + exists s1. exact H1.
Qed.

(** X6. The converter works as a stream: what it has written for the first
    part of an input is the beginning of what it writes for the whole
    input, whatever the bytes and the options are, also when the run ends
    in a format error. *)
Theorem output_of_prefix_is_prefix (sl sh cvt : Z) (a b : list Z) :
  exists s,
    outfile (snd (process_file sl sh cvt (a ++ b))) =
    outfile (snd (process_file sl sh cvt a)) ++ s.
Proof.
  unfold process_file. rewrite feed_app.
  destruct (feed (step sl sh cvt) init a) as [m|c m]; cbn [snd].
  - destruct (feed_output_grows sl sh cvt b m) as [s H]. exists s.
    destruct (feed (step sl sh cvt) m b); exact H.
  - exists []. rewrite app_nil_r. reflexivity.
Qed.

(** *** Beyond the claims: [process_args] and [main] *)

(** The option loop: an unknown option ends it, wherever it stands;
    otherwise each of the three letters sets its flag, however often and
    in whatever order the letters come. *)
Lemma scan_options_spec (opts : list ascii) (g : globals) :
  scan_options opts g =
  if forallb (fun o => has_char o "cfs") opts
  then Some (options_set opts g) else None.
Proof.
  revert g; induction opts as [|o opts IH]; intros g.
  - destruct g; reflexivity.
  - unfold options_set. cbn [scan_options forallb existsb].
    rewrite (Ascii.eqb_sym "c" o), (Ascii.eqb_sym "f" o),
      (Ascii.eqb_sym "s" o), !IH. unfold options_set.
    cbn [InputFile OutputFile Cvt_Newer_Format Show_File_Hdr Show_Linenums].
    destruct (Ascii.eqb o "c") eqn:Ec.
    { apply Ascii.eqb_eq in Ec. subst o.
      change (has_char "c" "cfs") with true.
      cbn [Ascii.eqb Bool.eqb orb andb].
      destruct (forallb (fun o => has_char o "cfs") opts); [|reflexivity].
      destruct (existsb (Ascii.eqb "c") opts); reflexivity. }
    destruct (Ascii.eqb o "f") eqn:Ef.
    { apply Ascii.eqb_eq in Ef. subst o.
      change (has_char "f" "cfs") with true.
      cbn [Ascii.eqb Bool.eqb orb andb].
      destruct (forallb (fun o => has_char o "cfs") opts); [|reflexivity].
      destruct (existsb (Ascii.eqb "f") opts); reflexivity. }
    destruct (Ascii.eqb o "s") eqn:Es.
    { apply Ascii.eqb_eq in Es. subst o.
      change (has_char "s" "cfs") with true.
      cbn [Ascii.eqb Bool.eqb orb andb].
      destruct (forallb (fun o => has_char o "cfs") opts); [|reflexivity].
      destruct (existsb (Ascii.eqb "s") opts); reflexivity. }
    replace (has_char o "cfs") with false
      by (cbn [has_char]; rewrite Ec, Ef, Es; reflexivity).
    reflexivity.
Qed.

Lemma existsb_same (f : ascii -> bool) (l l' : list ascii) :
  (forall o, In o l <-> In o l') -> existsb f l = existsb f l'.
Proof.
  intros H. destruct (existsb f l) eqn:E.
  - apply existsb_exists in E as (x & Hx & Hf). symmetry.
    apply existsb_exists. exists x. split; [apply H, Hx|exact Hf].
  - destruct (existsb f l') eqn:E'; [|reflexivity].
    apply existsb_exists in E' as (x & Hx & Hf).
    assert (X : existsb f l = true)
      by (apply existsb_exists; exists x; split; [apply H, Hx|exact Hf]).
    congruence.
Qed.

Lemma forallb_same (f : ascii -> bool) (l l' : list ascii) :
  (forall o, In o l <-> In o l') -> forallb f l = forallb f l'.
Proof.
  intros H. destruct (forallb f l) eqn:E.
  - symmetry. apply forallb_forall. intros x Hx.
    rewrite forallb_forall in E. apply E, H, Hx.
  - destruct (forallb f l') eqn:E'; [|reflexivity].
    assert (X : forallb f l = true).
    { apply forallb_forall. intros x Hx.
      rewrite forallb_forall in E'. apply E', H, Hx. }
    congruence.
Qed.

(** X7. The option loop of [process_args] looks at which option letters
    occur and at nothing else: two option sequences with the same letters,
    in any order and with any repetitions, leave the same flags, or both
    fail on an unknown letter. *)
Theorem options_in_any_order (opts opts' : list ascii) (g : globals) :
  (forall o, In o opts <-> In o opts') ->
  scan_options opts g = scan_options opts' g.
Proof.
  intros H. rewrite !scan_options_spec. unfold options_set.
  rewrite (forallb_same _ opts opts' H).
  rewrite !(existsb_same _ opts opts' H). reflexivity.
Qed.

Lemma options_in_any_order_witness :
  scan_options ["s"; "c"; "s"; "f"]%char (Globals Stdin Stdout 0 0 1) =
  scan_options ["f"; "c"; "s"]%char (Globals Stdin Stdout 0 0 1).
Proof.
  apply options_in_any_order. intros o. cbn [In]. tauto.
Defined.

Lemma process_file_status (sl sh cvt : Z) (input : list Z) :
  fst (process_file sl sh cvt input) = 0 \/
  fst (process_file sl sh cvt input) = 2.
Proof.
  unfold process_file.
  destruct (feed (step sl sh cvt) init input) as [m|c m] eqn:E; cbn [fst].
  - left; reflexivity.
  - apply feed_ret_inv in E as (pre & ch & post & m1 & _ & _ & Hs).
    apply step_ret_cases in Hs as [[-> _]|[-> _]]; auto.
Qed.

(** X8. The exit status of the program is 0, 1, 2 or 3.  It is 1 exactly
    when [process_args] fails, and then nothing was converted; it is 3
    only when the conversion returned 0 and the output stream reports an
    error or fails to close; a format error gives 2 whatever the state of
    the output stream, which [main] does not look at in that case. *)
Theorem exit_statuses (e : env) (argv : list string) :
  let r := main e argv in
  (exit_status r = 0 \/ exit_status r = 1 \/
   exit_status r = 2 \/ exit_status r = 3) /\
  (exit_status r = 1 <-> exists msgs, process_args e argv = inr msgs) /\
  (exit_status r = 1 -> output_to r = None /\ output r = []) /\
  (exit_status r = 3 -> ferror_out e = true \/ fclose_eof e = true) /\
  (exit_status r = 2 ->
   forall fe fc : bool,
     main (Env (stdin e) (fopen_r e) (fopen_w e) fe fc) argv = r).
Proof.
  cbv zeta. unfold main.
  assert (A : forall fe fc,
             process_args (Env (stdin e) (fopen_r e) (fopen_w e) fe fc) argv
             = process_args e argv) by reflexivity.
  destruct (process_args e argv) as [g|msgs] eqn:P.
  - pose proof (process_file_status (Show_Linenums g) (Show_File_Hdr g)
                  (Cvt_Newer_Format g) (bytes_of e (InputFile g))) as S.
    assert (B : forall fe fc,
               bytes_of (Env (stdin e) (fopen_r e) (fopen_w e) fe fc)
                        (InputFile g) = bytes_of e (InputFile g))
      by reflexivity.
    destruct (process_file (Show_Linenums g) (Show_File_Hdr g)
                (Cvt_Newer_Format g) (bytes_of e (InputFile g)))
      as [ret m] eqn:F.
    cbn [fst] in S. destruct S as [-> | ->]; cbn [Z.eqb].
    + destruct (ferror_out e) eqn:Fe; [|destruct (fclose_eof e) eqn:Fc];
        cbn [exit_status output_to output];
        (split; [auto|]); (split; [split; [discriminate|intros [? H]; discriminate H]|]);
        (split; [discriminate|]);
        (split; [solve [auto] || discriminate|discriminate]).
    + cbn [exit_status output_to output].
      split; [auto|]. split; [split; [discriminate|intros [? H]; discriminate H]|].
      split; [discriminate|]. split; [discriminate|].
      intros _ fe fc. rewrite A, B, F. reflexivity.
  - cbn [exit_status output_to output].
    split; [auto|]. split; [split; eauto|]. split; [auto|].
    split; discriminate.
Qed.

(** X9. The operands, none of which begins with ['-'] (for such
    arguments a [getopt] that permutes and one that stops at the first
    operand scan alike).  The input file is opened first: when it cannot be
    opened the program exits with status 1 and the output file is not
    opened, so an existing file of that name is left alone.  When the
    output file cannot be opened the exit status is 1 as well, and a third
    operand is refused before any file is opened.  With both files open
    the conversion of the input file goes to the output file and not to
    standard output. *)
Theorem operands
        (e : env) (pgm ifile ofile third : string) (bytes : list Z) :
  String.get 0 ifile <> Some "-"%char ->
  String.get 0 ofile <> Some "-"%char ->
  String.get 0 third <> Some "-"%char ->
  (getopt_scan_permuting "cfs" [ifile; ofile] =
     getopt_scan "cfs" [ifile; ofile] /\
   getopt_scan_permuting "cfs" [ifile; ofile; third] =
     getopt_scan "cfs" [ifile; ofile; third]) /\
  (fopen_r e ifile = None ->
   main e [pgm; ifile; ofile] =
     Run 1 None [] [Failed_to_open ifile; Usage pgm]) /\
  (fopen_r e ifile = Some bytes -> fopen_w e ofile = false ->
   main e [pgm; ifile; ofile] =
     Run 1 None [] [Failed_to_open ofile; Usage pgm]) /\
  main e [pgm; ifile; ofile; third] =
    Run 1 None [] [Too_many_operands; Usage pgm] /\
  (fopen_r e ifile = Some bytes -> fopen_w e ofile = true ->
   ferror_out e = false -> fclose_eof e = false ->
   main e [pgm; ifile; ofile] =
     Run (fst (process_file 1 0 0 bytes)) (Some (Out_file ofile))
         (outfile (snd (process_file 1 0 0 bytes)))
         (stderr (snd (process_file 1 0 0 bytes)))).
Proof.
  intros Hi Ho Ht.
  assert (G : forall rest, getopt_scan "cfs" (ifile :: rest)
                           = ([], ifile :: rest))
    by (intros rest; apply getopt_scan_operand, Hi).
  split; [|split; [|split; [|split]]].
  - split; apply getopt_scan_permuting_operands; intros a Ha;
      repeat (destruct Ha as [<-|Ha]; [assumption|]); destruct Ha.
  - intros Hr. unfold main, process_args. cbn [tl]. rewrite G.
    cbn [scan_options length Nat.ltb Nat.leb]. rewrite Hr. reflexivity.
  - intros Hr Hw. unfold main, process_args. cbn [tl]. rewrite G.
    cbn [scan_options length Nat.ltb Nat.leb]. rewrite Hr, Hw. reflexivity.
  - unfold main, process_args. cbn [tl]. rewrite G. reflexivity.
  - intros Hr Hw Hfe Hfc. unfold main, process_args. cbn [tl]. rewrite G.
    cbn [scan_options length Nat.ltb Nat.leb]. rewrite Hr, Hw.
    cbn [InputFile OutputFile Show_Linenums Show_File_Hdr Cvt_Newer_Format
         bytes_of]. rewrite Hr.
    destruct (process_file_status 1 0 0 bytes) as [S|S];
      destruct (process_file 1 0 0 bytes) as [ret m]; cbn [fst snd] in *;
      subst ret; cbn [Z.eqb]; rewrite ?Hfe, ?Hfc; reflexivity.
Qed.

Lemma wf_to_newer (l : line) : wf_line l = true -> wf_line (to_newer l) = true.
Proof.
  unfold wf_line, to_newer. cbn [number separator text].
  rewrite !andb_true_iff. intros [[[Hn Hd] _] Ht]. auto.
Qed.

(** X10. What the convert option writes is what the same file in the
    newer format gives without the option: converting a well-formed
    stream with [cvt_newerfmt = 1] and converting the stream with every
    separator replaced by a tab give the same result, with line numbers
    shown or stripped, with or without the filename block. *)
Theorem convert_is_the_newer_format
        (sl sh : Z) (name : list Z) (ls : list line) :
  length name = 6%nat ->
  forallb wf_line ls = true ->
  process_file sl sh 1 (stream name ls) =
  process_file sl sh 0 (stream name (map to_newer ls)).
Proof.
  intros Hn Hl.
  assert (W : forallb wf_line (map to_newer ls) = true).
  { rewrite forallb_forall in *. intros l' Hin.
    apply in_map_iff in Hin as (l & <- & Hin). apply wf_to_newer, Hl, Hin. }
  rewrite <- (app_nil_r (stream name ls)),
    <- (app_nil_r (stream name (map to_newer ls))).
  rewrite !process_stream by assumption.
  rewrite map_map. do 4 f_equal. apply map_ext_in. intros l Hin.
  rewrite forallb_forall in Hl. specialize (Hl l Hin).
  unfold rendered_line, to_newer, numbered_line, stripped_line, digits.
  cbn [number separator text]. destruct (sl =? 0); [reflexivity|].
  unfold wf_line in Hl. rewrite !andb_true_iff, orb_true_iff in Hl.
  destruct Hl as [[_ [Hs|Hs]] _]; apply Z.eqb_eq in Hs; rewrite Hs;
    reflexivity.
Qed.

Lemma convert_is_the_newer_format_witness :
  process_file 1 0 1 (stream sample_name sample_lines) =
  process_file 1 0 0 (stream sample_name (map to_newer sample_lines)).
Proof.
  exact (convert_is_the_newer_format 1 0 sample_name sample_lines
                                     eq_refl eq_refl).
Defined.

Lemma split_at_newline (a a' r r' : list Z) :
  ~ In NL a -> ~ In NL a' ->
  a ++ NL :: r = a' ++ NL :: r' -> a = a' /\ r = r'.
Proof.
  revert a'; induction a as [|x a IH]; intros [|x' a'] Ha Ha' H;
    cbn [app] in H.
  - injection H as ->. auto.
  - injection H as <- _. exfalso. apply Ha'. left. reflexivity.
  - injection H as -> _. exfalso. apply Ha. left. reflexivity.
  - injection H as -> H.
    destruct (IH a') as [-> ->]; auto.
    + intros X. apply Ha. right. exact X.
    + intros X. apply Ha'. right. exact X.
Qed.

Lemma number_of_digits (n n' : list Z) :
  forallb LINENUMCHAR n = true -> forallb LINENUMCHAR n' = true ->
  map (fun c => Z.land c 0x7f) n = map (fun c => Z.land c 0x7f) n' ->
  n = n'.
Proof.
  revert n'; induction n as [|c n IH]; intros [|c' n'] H H' E;
    try discriminate E; [reflexivity|].
  cbn [forallb] in H, H'. apply andb_true_iff in H as [Hc H].
  apply andb_true_iff in H' as [Hc' H'].
  cbn [map] in E. injection E as E1 E2.
  apply linenum_digit in Hc as [Hc _]. apply linenum_digit in Hc' as [Hc' _].
  f_equal; [lia|]. apply IH; assumption.
Qed.

Lemma app_same_length (x y u v : list Z) :
  length x = length y -> x ++ u = y ++ v -> x = y /\ u = v.
Proof.
  revert y; induction x as [|a x IH]; intros [|b y] L H;
    try discriminate L; [auto|].
  cbn [app] in H. injection H as -> H. cbn [length] in L.
  destruct (IH y) as [-> ->]; [congruence|exact H|auto].
Qed.

Lemma shown_line_injective (l l' : line) (r r' : list Z) :
  wf_line l = true -> wf_line l' = true ->
  ~ In NL (text l) -> ~ In NL (text l') ->
  shown_line l ++ r = shown_line l' ++ r' -> l = l' /\ r = r'.
Proof.
  intros W W' T T'.
  destruct (digits_spec l W) as (L & _ & _).
  destruct (digits_spec l' W') as (L' & _ & _).
  unfold wf_line in W, W'. rewrite !andb_true_iff in W, W'.
  destruct W as [[[_ D] _] _], W' as [[[_ D'] _] _].
  unfold shown_line, numbered_line. rewrite <- !app_assoc.
  intros H.
  apply app_same_length in H as E; [|congruence].
  destruct E as [E1 E2]. cbn [app] in E2. injection E2 as Es Et.
  cbn [app] in Et.
  apply split_at_newline in Et as [Et Er]; try assumption.
  split; [|exact Er].
  destruct l as [n s t], l' as [n' s' t'].
  cbn [number separator text] in *. unfold digits in E1.
  cbn [number] in E1. rewrite (number_of_digits n n' D D' E1).
  subst. reflexivity.
Qed.

(** Lists of well-formed line records whose texts hold no newline byte and
    whose default-option lines concatenate to the same bytes are the same
    list. *)
Lemma shown_lines_injective (ls ls' : list line) :
  forallb wf_line ls = true ->
  forallb wf_line ls' = true ->
  (forall l, In l ls -> ~ In NL (text l)) ->
  (forall l, In l ls' -> ~ In NL (text l)) ->
  concat (map shown_line ls) = concat (map shown_line ls') ->
  ls = ls'.
Proof.
  revert ls'; induction ls as [|l ls IH]; intros [|l' ls'] W W' T T' H.
  - reflexivity.
  - exfalso. cbn [map concat] in H. unfold shown_line, numbered_line in H.
    destruct (digits l'); discriminate H.
  - exfalso. cbn [map concat] in H. unfold shown_line, numbered_line in H.
    destruct (digits l); discriminate H.
  - cbn [forallb] in W, W'. apply andb_true_iff in W as [Wl W].
    apply andb_true_iff in W' as [Wl' W'].
    cbn [map concat] in H.
    apply shown_line_injective in H as [-> H]; auto using in_eq.
    f_equal. apply IH; auto using in_cons.
Qed.

(** X11. With the default options [process_file] loses nothing of the line
    records: for two well-formed streams whose texts hold no newline byte,
    whatever their file names, the outputs of [process_file] are the same
    bytes exactly when the streams hold the same list of line records.  So
    the line-number bytes, the separators and the texts can be read back
    from the output, and streams that differ in a separator only are told
    apart. *)
Theorem default_output_determines_the_records
        (name name' : list Z) (ls ls' : list line) :
  length name = 6%nat ->
  length name' = 6%nat ->
  forallb wf_line ls = true ->
  forallb wf_line ls' = true ->
  (forall l, In l ls -> ~ In NL (text l)) ->
  (forall l, In l ls' -> ~ In NL (text l)) ->
  (outfile (snd (process_file 1 0 0 (stream name ls))) =
   outfile (snd (process_file 1 0 0 (stream name' ls'))) <->
   ls = ls').
Proof.
  intros Hn Hn' W W' T T'.
  pose proof (process_stream 1 0 0 name ls [] Hn W) as P.
  pose proof (process_stream 1 0 0 name' ls' [] Hn' W') as P'.
  rewrite app_nil_r in P, P'. rewrite P, P'. cbn [snd outfile].
  change (filename_block 0 name) with (@nil Z).
  change (filename_block 0 name') with (@nil Z). cbn [app].
  rewrite !(map_ext _ _ rendered_shown).
  split.
  - apply shown_lines_injective; assumption.
  - intros ->. reflexivity.
Qed.

Lemma default_output_determines_the_records_witness :
  outfile (snd (process_file 1 0 0 (stream sample_name sample_lines))) <>
  outfile (snd (process_file 1 0 0
                  (stream (bytes_of_string "OTHER ") sample_lines_newer))).
Proof.
  assert (T : forall l, In l sample_lines -> ~ In NL (text l)).
  { intros l [<-|[<-|[]]];
      cbn [text bytes_of_string list_ascii_of_string map In];
      unfold NL; intros H;
      repeat (destruct H as [H|H]; [discriminate H|]); exact H. }
  assert (T' : forall l, In l sample_lines_newer -> ~ In NL (text l)).
  { intros l [<-|[<-|[]]];
      cbn [text bytes_of_string list_ascii_of_string map In];
      unfold NL; intros H;
      repeat (destruct H as [H|H]; [discriminate H|]); exact H. }
  intros E.
  assert (D : sample_lines = sample_lines_newer).
  { exact (proj1 (default_output_determines_the_records
                    sample_name (bytes_of_string "OTHER ")
                    sample_lines sample_lines_newer
                    eq_refl eq_refl eq_refl eq_refl T T') E). }
  discriminate D.
Defined.

Lemma operands_witness :
  main sample_env_files ["edtasmcvt"; "missing.asm"; "out.txt"]%string =
    Run 1 None [] [Failed_to_open "missing.asm"; Usage "edtasmcvt"] /\
  main sample_env_files ["edtasmcvt"; "missing.asm"; "out.txt"; "x"]%string =
    Run 1 None [] [Too_many_operands; Usage "edtasmcvt"].
Proof.
  assert (H : String.get 0 "missing.asm" <> Some "-"%char) by discriminate.
  assert (H' : String.get 0 "out.txt" <> Some "-"%char) by discriminate.
  assert (H'' : String.get 0 "x" <> Some "-"%char) by discriminate.
  split.
  - exact (proj1 (proj2 (operands sample_env_files "edtasmcvt" "missing.asm"
                                  "out.txt" "x" [] H H' H''))
                 eq_refl).
  - exact (proj1 (proj2 (proj2 (proj2
             (operands sample_env_files "edtasmcvt" "missing.asm"
                       "out.txt" "x" [] H H' H''))))).
Defined.
End EdtasmFacts.

(** ** stripcmd *)

Module CmdFacts.
Import Cmd.

Lemma map_to_uchar_bytes (l : list Z) :
  forallb is_byteb l = true -> map to_uchar l = l.
Proof.
  induction l as [|c l IH]; cbn; [reflexivity|].
  rewrite andb_true_iff. intros [Hc Hl].
  rewrite (to_uchar_byte c Hc), (IH Hl). reflexivity.
Qed.

(** Stores into an array. *)
Lemma store_at_spec (a : list Z) (i : nat) (v : Z) :
  (i < length a)%nat ->
  store_at a i v = Some (firstn i a ++ v :: skipn (S i) a).
Proof.
  revert i; induction a as [|x a IH]; intros i H; cbn in H; [lia|].
  destruct i as [|i]; cbn [store_at]; [reflexivity|].
  rewrite IH by lia. reflexivity.
Qed.

Lemma store_at_none (a : list Z) (i : nat) (v : Z) :
  (length a <= i)%nat -> store_at a i v = None.
Proof.
  revert i; induction a as [|x a IH]; intros i H; [reflexivity|].
  cbn in H. destruct i as [|i]; [lia|]. cbn [store_at].
  rewrite IH by lia. reflexivity.
Qed.

Lemma store_spec (a : list Z) (i : nat) (v : Z) :
  (i < length a)%nat ->
  store a (Z.of_nat i) v = Some (firstn i a ++ v :: skipn (S i) a).
Proof.
  intros H. unfold store.
  replace (Z.of_nat i <? 0) with false by (symmetry; apply Z.ltb_ge; lia).
  rewrite Nat2Z.id. apply store_at_spec, H.
Qed.

Lemma store_none (a : list Z) (i : nat) (v : Z) :
  (length a <= i)%nat -> store a (Z.of_nat i) v = None.
Proof.
  intros H. unfold store.
  replace (Z.of_nat i <? 0) with false by (symmetry; apply Z.ltb_ge; lia).
  rewrite Nat2Z.id. apply store_at_none, H.
Qed.

Lemma length_stored (a : list Z) (i : nat) (v : Z) :
  (i < length a)%nat ->
  length (firstn i a ++ v :: skipn (S i) a) = length a.
Proof.
  intros H. rewrite length_app, length_firstn. cbn [length].
  rewrite length_skipn. lia.
Qed.

Lemma firstn_stored (a : list Z) (i : nat) (v : Z) :
  (i < length a)%nat ->
  firstn (S i) (firstn i a ++ v :: skipn (S i) a) = firstn i a ++ [v].
Proof.
  intros H.
  assert (L : length (firstn i a) = i) by (rewrite length_firstn; lia).
  rewrite firstn_app, L.
  replace (S i - i)%nat with 1%nat by lia.
  rewrite firstn_all2 by lia. reflexivity.
Qed.

(** ["%s"] stops at the NUL stored behind the bytes. *)
Lemma c_str_app_nul (x y : list Z) : c_str (x ++ 0 :: y) = c_str x.
Proof.
  induction x as [|c x IH]; cbn; [reflexivity|].
  destruct (c =? 0); [reflexivity|]. rewrite IH. reflexivity.
Qed.

Lemma uint_small (x : Z) : 0 <= x < 2 ^ 32 -> uint x = x.
Proof. intros H. apply Z.mod_small, H. Qed.

Section Globals.
Variable Quiet : Z.
Variable OutputFile : bool.

(** What a step does to the copy: the byte is appended unless the parser
    is in [EXTRA_BYTES] or there is no output file. *)
Lemma step_copy (m : machine) (ch : Z) :
  copy (machine_of (step Quiet OutputFile m ch)) =
  copy m ++ (if is_extra (state m) then []
             else mirrored OutputFile [to_uchar ch]).
Proof.
  unfold step, unless, mirrored. destruct m as [st la xa fn fl fi cm cl ci sk ex cp so se].
  destruct OutputFile, st;
    cbn -[uint uint8 uint16 Z.lor Z.shiftl BLK_LEN to_uchar store c_str];
    break_ifs; cbn [machine_of copy];
    rewrite ?app_nil_r; reflexivity.
Qed.

(** [EXTRA_BYTES] is never left. *)
Lemma step_extra (m : machine) (ch : Z) :
  state m = EXTRA_BYTES ->
  step Quiet OutputFile m ch =
  Next (set_extra_bytes (uint (extra_bytes m + 1)) m).
Proof. intros H. unfold step. rewrite H. cbn. rewrite H. reflexivity. Qed.

Lemma step_ret_not_extra (m m' : machine) (ch : Z) (h : halt) :
  step Quiet OutputFile m ch = Ret h m' -> is_extra (state m) = false.
Proof.
  destruct (state m) eqn:E; try reflexivity.
  rewrite (step_extra m ch E). discriminate.
Qed.

Lemma step_next_not_extra (m m' : machine) (ch : Z) :
  step Quiet OutputFile m ch = Next m' ->
  is_extra (state m') = false -> is_extra (state m) = false.
Proof.
  destruct (state m) eqn:E; try reflexivity.
  rewrite (step_extra m ch E). intros [= <-]. cbn. rewrite E. trivial.
Qed.

Lemma mirrored_app (a b : list Z) :
  mirrored OutputFile (a ++ b) =
  mirrored OutputFile a ++ mirrored OutputFile b.
Proof. unfold mirrored. destruct OutputFile; reflexivity. Qed.

(** The copy is the bytes read outside [EXTRA_BYTES], in order. *)
Lemma feed_copy (input : list Z) (m : machine) :
  copy (machine_of (feed (step Quiet OutputFile) m input)) =
  copy m ++
  mirrored OutputFile
    (map (fun r => to_uchar (snd r))
         (filter (fun r => negb (is_extra (state (fst r))))
                 (reads (step Quiet OutputFile) m input))).
Proof.
  revert m; induction input as [|ch rest IH]; intros m.
  - cbn. unfold mirrored. destruct OutputFile; rewrite app_nil_r; reflexivity.
  - cbn [feed reads filter fst snd].
    pose proof (step_copy m ch) as Hc.
    destruct (step Quiet OutputFile m ch) as [m'|h m'] eqn:E;
      cbn [machine_of] in Hc.
    + rewrite IH, Hc, <- app_assoc. f_equal.
      destruct (is_extra (state m)); cbn [negb app map snd];
        unfold mirrored; destruct OutputFile; reflexivity.
    + cbn [machine_of]. rewrite Hc.
      rewrite (step_ret_not_extra _ _ _ _ E). reflexivity.
Qed.

(** While the parser has not reached [EXTRA_BYTES], the copy is everything
    read. *)
Lemma feed_copy_all (pre : list Z) (m m1 : machine) :
  feed (step Quiet OutputFile) m pre = Next m1 ->
  is_extra (state m1) = false ->
  copy m1 = copy m ++ mirrored OutputFile (map to_uchar pre) /\
  is_extra (state m) = false.
Proof.
  revert m; induction pre as [|ch pre IH]; intros m; cbn [feed].
  - intros [= ->] H. split; [|exact H].
    unfold mirrored; destruct OutputFile; rewrite app_nil_r; reflexivity.
  - pose proof (step_copy m ch) as Hc.
    destruct (step Quiet OutputFile m ch) as [m'|h m'] eqn:E;
      [|discriminate].
    cbn [machine_of] in Hc. intros Hf Hx.
    destruct (IH _ Hf Hx) as [Hcp Hx'].
    pose proof (step_next_not_extra _ _ _ E Hx') as Hx0.
    split; [|exact Hx0].
    rewrite Hcp, Hc, Hx0, <- app_assoc. f_equal.
    cbn [map]. unfold mirrored; destruct OutputFile; reflexivity.
Qed.

(** A return with status 2 comes from a record header or from the end of
    a transfer-address record: the size checks of the two length bytes
    cannot fire on an 8-bit value. *)
Lemma step_ret2 (m m' : machine) (ch : Z) :
  step Quiet OutputFile m ch = Ret (Return 2) m' ->
  state m = CMD_HDR \/ state m = XFER_ADDRHI.
Proof.
  assert (B : (uint8 ch >? 255) = false).
  { unfold uint8. pose proof (Z.mod_pos_bound ch (2 ^ 8)). lia. }
  destruct m as [st la xa fn fl fi cm cl ci sk ex cp so se].
  destruct st; try (left; reflexivity); try (right; reflexivity);
    unfold step, unless; destruct OutputFile;
    cbn -[uint uint8 uint16 Z.lor Z.shiftl BLK_LEN to_uchar store c_str];
    unfold FNAME_SIZE, COMMENT_SIZE; rewrite ?B;
    break_ifs; discriminate.
Qed.

Ltac step_simpl :=
  cbn -[uint uint8 uint16 Z.lor Z.shiftl BLK_LEN to_uchar store c_str].

Ltac step_eq :=
  unfold step, unless, detail, mirrored; destruct OutputFile;
  destruct (Quiet =? 0); step_simpl;
  repeat (match goal with
          | |- context [if ?c then _ else _] => destruct c eqn:?
          | |- context [match ?c with Some _ => _ | None => _ end] =>
              destruct c eqn:?
          end; step_simpl);
  rewrite ?app_nil_r; reflexivity.

(** The steps, state by state. *)
Lemma step_hdr la xa fn fl fi cm cl ci sk ex cp so se ch :
  step Quiet OutputFile
       (Machine CMD_HDR la xa fn fl fi cm cl ci sk ex cp so se) ch =
  let cp' := cp ++ mirrored OutputFile [to_uchar ch] in
  if ch =? LOADBLK then
    Next (Machine LOADBLK_LEN la xa fn fl fi cm cl ci sk ex cp' so se)
  else if ch =? XFERADDR then
    Next (Machine XFER_LEN la xa fn fl fi cm cl ci sk ex cp' so se)
  else if ch =? FNAMEREC then
    Next (Machine FNAMEREC_LEN la xa fn fl fi cm cl ci sk ex cp' so se)
  else if ch =? COMMREC then
    Next (Machine COMMREC_LEN la xa fn fl fi cm cl ci sk ex cp' so se)
  else Ret (Return 2)
           (Machine CMD_HDR la xa fn fl fi cm cl ci sk ex cp' so
                    (se ++ [Unexpected_header_byte ch])).
Proof. step_eq. Qed.

Lemma step_loadblk_len la xa fn fl fi cm cl ci sk ex cp so se ch :
  step Quiet OutputFile
       (Machine LOADBLK_LEN la xa fn fl fi cm cl ci sk ex cp so se) ch =
  Next (Machine LOADBLK_ADDRLO la xa fn fl fi cm cl ci
                (uint16 (BLK_LEN ch)) ex
                (cp ++ mirrored OutputFile [to_uchar ch]) so se).
Proof. step_eq. Qed.

Lemma step_loadblk_addrlo la xa fn fl fi cm cl ci sk ex cp so se ch :
  step Quiet OutputFile
       (Machine LOADBLK_ADDRLO la xa fn fl fi cm cl ci sk ex cp so se) ch =
  Next (Machine LOADBLK_ADDRHI (uint16 ch) xa fn fl fi cm cl ci sk ex
                (cp ++ mirrored OutputFile [to_uchar ch]) so se).
Proof. step_eq. Qed.

Lemma step_loadblk_addrhi la xa fn fl fi cm cl ci sk ex cp so se ch :
  step Quiet OutputFile
       (Machine LOADBLK_ADDRHI la xa fn fl fi cm cl ci sk ex cp so se) ch =
  let la' := uint16 (Z.lor la (Z.shiftl ch 8)) in
  Next (Machine SKIP_BYTES la' xa fn fl fi cm cl ci sk ex
                (cp ++ mirrored OutputFile [to_uchar ch])
                (so ++ detail Quiet [Load_address la' sk]) se).
Proof. step_eq. Qed.

Lemma step_skip la xa fn fl fi cm cl ci sk ex cp so se ch :
  step Quiet OutputFile
       (Machine SKIP_BYTES la xa fn fl fi cm cl ci sk ex cp so se) ch =
  let cp' := cp ++ mirrored OutputFile [to_uchar ch] in
  if uint (sk - 1) =? 0 then
    Next (Machine CMD_HDR la xa fn fl fi cm cl ci (uint (sk - 1)) ex cp'
                  so se)
  else
    Next (Machine SKIP_BYTES la xa fn fl fi cm cl ci (uint (sk - 1)) ex cp'
                  so se).
Proof. step_eq. Qed.

Lemma step_xfer_len la xa fn fl fi cm cl ci sk ex cp so se ch :
  step Quiet OutputFile
       (Machine XFER_LEN la xa fn fl fi cm cl ci sk ex cp so se) ch =
  Next (Machine XFER_ADDRLO la xa fn fl fi cm cl ci (uint16 (ch - 2)) ex
                (cp ++ mirrored OutputFile [to_uchar ch]) so se).
Proof. step_eq. Qed.

Lemma step_xfer_addrlo la xa fn fl fi cm cl ci sk ex cp so se ch :
  step Quiet OutputFile
       (Machine XFER_ADDRLO la xa fn fl fi cm cl ci sk ex cp so se) ch =
  Next (Machine XFER_ADDRHI la (uint16 ch) fn fl fi cm cl ci sk ex
                (cp ++ mirrored OutputFile [to_uchar ch]) so se).
Proof. step_eq. Qed.

Lemma step_xfer_addrhi la xa fn fl fi cm cl ci sk ex cp so se ch :
  step Quiet OutputFile
       (Machine XFER_ADDRHI la xa fn fl fi cm cl ci sk ex cp so se) ch =
  let xa' := uint16 (Z.lor xa (Z.shiftl ch 8)) in
  let cp' := cp ++ mirrored OutputFile [to_uchar ch] in
  let so' := so ++ detail Quiet [Transfer_address xa'] in
  if negb (sk =? 0) then
    Ret (Return 2)
        (Machine XFER_ADDRHI la xa' fn fl fi cm cl ci sk ex cp' so'
                 (se ++ [Unexpected_transfer_address_length sk]))
  else Next (Machine EXTRA_BYTES la xa' fn fl fi cm cl ci sk 0 cp' so' se).
Proof. step_eq. Qed.

Lemma step_extra_bytes la xa fn fl fi cm cl ci sk ex cp so se ch :
  step Quiet OutputFile
       (Machine EXTRA_BYTES la xa fn fl fi cm cl ci sk ex cp so se) ch =
  Next (Machine EXTRA_BYTES la xa fn fl fi cm cl ci sk (uint (ex + 1)) cp
                so se).
Proof. step_eq. Qed.

Lemma step_fnamerec_len la xa fn fl fi cm cl ci sk ex cp so se ch :
  step Quiet OutputFile
       (Machine FNAMEREC_LEN la xa fn fl fi cm cl ci sk ex cp so se) ch =
  let cp' := cp ++ mirrored OutputFile [to_uchar ch] in
  if uint8 ch >? FNAME_SIZE then
    Ret (Return 2)
        (Machine FNAMEREC_LEN la xa fn (uint8 ch) fi cm cl ci sk ex cp' so
                 (se ++ [Unexpected_file_name_size (uint8 ch)]))
  else Next (Machine FNAMEREC_NAME la xa fn (uint8 ch) 0 cm cl ci sk ex cp'
                     so se).
Proof. step_eq. Qed.

Lemma step_fnamerec_name la xa fn fl fi cm cl ci sk ex cp so se ch :
  step Quiet OutputFile
       (Machine FNAMEREC_NAME la xa fn fl fi cm cl ci sk ex cp so se) ch =
  let cp' := cp ++ mirrored OutputFile [to_uchar ch] in
  match store fn fi (to_uchar ch) with
  | None =>
      Ret Out_of_bounds
          (Machine FNAMEREC_NAME la xa fn fl fi cm cl ci sk ex cp' so se)
  | Some a =>
      if uint (fi + 1) =? fl then
        match store a (uint (fi + 1)) 0 with
        | None =>
            Ret Out_of_bounds
                (Machine FNAMEREC_NAME la xa a fl (uint (fi + 1)) cm cl ci
                         sk ex cp' so se)
        | Some a' =>
            Next (Machine CMD_HDR la xa a' fl (uint (fi + 1)) cm cl ci sk
                          ex cp' (so ++ detail Quiet [Filename (c_str a')])
                          se)
        end
      else Next (Machine FNAMEREC_NAME la xa a fl (uint (fi + 1)) cm cl ci
                         sk ex cp' so se)
  end.
Proof. step_eq. Qed.

Lemma step_commrec_len la xa fn fl fi cm cl ci sk ex cp so se ch :
  step Quiet OutputFile
       (Machine COMMREC_LEN la xa fn fl fi cm cl ci sk ex cp so se) ch =
  let cp' := cp ++ mirrored OutputFile [to_uchar ch] in
  if uint8 ch >? COMMENT_SIZE then
    Ret (Return 2)
        (Machine COMMREC_LEN la xa fn fl fi cm (uint8 ch) ci sk ex cp' so
                 (se ++ [Unexpected_comment_size (uint8 ch)]))
  else Next (Machine COMMREC_STRING la xa fn fl fi cm (uint8 ch) 0 sk ex cp'
                     so se).
Proof. step_eq. Qed.

Lemma step_commrec_string la xa fn fl fi cm cl ci sk ex cp so se ch :
  step Quiet OutputFile
       (Machine COMMREC_STRING la xa fn fl fi cm cl ci sk ex cp so se) ch =
  let cp' := cp ++ mirrored OutputFile [to_uchar ch] in
  match store cm ci (to_uchar ch) with
  | None =>
      Ret Out_of_bounds
          (Machine COMMREC_STRING la xa fn fl fi cm cl ci sk ex cp' so se)
  | Some a =>
      if uint (ci + 1) =? cl then
        match store a (uint (ci + 1)) 0 with
        | None =>
            Ret Out_of_bounds
                (Machine COMMREC_STRING la xa fn fl fi a cl (uint (ci + 1))
                         sk ex cp' so se)
        | Some a' =>
            Next (Machine CMD_HDR la xa fn fl fi a' cl (uint (ci + 1)) sk
                          ex cp' (so ++ detail Quiet [Comment (c_str a')])
                          se)
        end
      else Next (Machine COMMREC_STRING la xa fn fl fi a cl (uint (ci + 1))
                         sk ex cp' so se)
  end.
Proof. step_eq. Qed.

(** Payload bytes are counted down; the header state comes back with the
    last of them and not before. *)
Lemma feed_skip (p : list Z) :
  forall la xa fn fl fi cm cl ci sk ex cp so se,
  0 < sk < 2 ^ 32 -> Z.of_nat (length p) <= sk ->
  feed (step Quiet OutputFile)
       (Machine SKIP_BYTES la xa fn fl fi cm cl ci sk ex cp so se) p =
  Next (Machine (if Z.of_nat (length p) =? sk then CMD_HDR else SKIP_BYTES)
                la xa fn fl fi cm cl ci (sk - Z.of_nat (length p)) ex
                (cp ++ mirrored OutputFile (map to_uchar p)) so se).
Proof.
  induction p as [|ch p IH]; intros la xa fn fl fi cm cl ci sk ex cp so se
                                    Hsk Hlen.
  - cbn [feed length map]. change (Z.of_nat 0) with 0.
    replace (0 =? sk) with false by (symmetry; apply Z.eqb_neq; lia).
    rewrite Z.sub_0_r. unfold mirrored.
    destruct OutputFile; rewrite app_nil_r; reflexivity.
  - cbn [feed]. rewrite step_skip. cbv zeta.
    rewrite uint_small by lia. cbn [length] in Hlen |- *.
    destruct (sk - 1 =? 0) eqn:E.
    + apply Z.eqb_eq in E. destruct p; [|cbn [length] in Hlen; lia].
      cbn [feed length map].
      replace (Z.of_nat 1 =? sk) with true by (symmetry; apply Z.eqb_eq; lia).
      reflexivity.
    + apply Z.eqb_neq in E. rewrite IH by lia.
      replace (Z.of_nat (length p) =? sk - 1)
        with (Z.of_nat (S (length p)) =? sk).
      2:{ destruct (Z.of_nat (S (length p)) =? sk) eqn:E1;
          [apply Z.eqb_eq in E1; symmetry; apply Z.eqb_eq; lia
          |apply Z.eqb_neq in E1; symmetry; apply Z.eqb_neq; lia]. }
      rewrite <- app_assoc, <- mirrored_app. cbn [map app].
      do 2 f_equal. lia.
Qed.

(** The bytes of a name are stored one behind the other; the last of
    them is followed by a NUL, the name is reported, and the header state
    comes back. *)
Lemma feed_fname (name : list Z) :
  forall sofar fn cp la xa fl cm cl ci sk ex so se,
  name <> [] ->
  length fn = 256%nat ->
  firstn (length sofar) fn = sofar ->
  fl = Z.of_nat (length sofar + length name) ->
  fl <= 255 ->
  exists fn',
    length fn' = 256%nat /\
    feed (step Quiet OutputFile)
         (Machine FNAMEREC_NAME la xa fn fl (Z.of_nat (length sofar))
                  cm cl ci sk ex cp so se) name =
    Next (Machine CMD_HDR la xa fn' fl fl cm cl ci sk ex
                  (cp ++ mirrored OutputFile (map to_uchar name))
                  (so ++ detail Quiet
                        [Filename (c_str (sofar ++ map to_uchar name))])
                  se).
Proof.
  induction name as [|ch name IH];
    intros sofar fn cp la xa fl cm cl ci sk ex so se Hne Hfn Hso Hfl H255;
    [congruence|].
  cbn [length] in Hfl.
  assert (Hlt : (length sofar < length fn)%nat) by lia.
  cbn [feed]. rewrite step_fnamerec_name. cbv zeta.
  rewrite (store_spec fn (length sofar) (to_uchar ch) Hlt).
  rewrite uint_small by lia.
  set (a := firstn (length sofar) fn ++ to_uchar ch
              :: skipn (S (length sofar)) fn).
  assert (Ha : length a = 256%nat)
    by (unfold a; rewrite length_stored; assumption).
  assert (Hfa : firstn (S (length sofar)) a = sofar ++ [to_uchar ch])
    by (unfold a; rewrite firstn_stored, Hso by assumption; reflexivity).
  replace (Z.of_nat (length sofar) + 1) with (Z.of_nat (S (length sofar)))
    by lia.
  destruct name as [|ch2 name].
  - replace (Z.of_nat (S (length sofar)) =? fl) with true
      by (symmetry; apply Z.eqb_eq; cbn [length] in Hfl; lia).
    assert (Hlt' : (S (length sofar) < length a)%nat)
      by (cbn [length] in Hfl; lia).
    rewrite (store_spec a (S (length sofar)) 0 Hlt').
    exists (firstn (S (length sofar)) a
            ++ 0 :: skipn (S (S (length sofar))) a).
    split; [rewrite length_stored; assumption|].
    cbn [feed map]. rewrite Hfa, c_str_app_nul.
    replace (Z.of_nat (S (length sofar))) with fl
      by (cbn [length] in Hfl; lia).
    reflexivity.
  - replace (Z.of_nat (S (length sofar)) =? fl) with false
      by (symmetry; apply Z.eqb_neq; cbn [length] in Hfl; lia).
    destruct (IH (sofar ++ [to_uchar ch]) a
                 (cp ++ mirrored OutputFile [to_uchar ch])
                 la xa fl cm cl ci sk ex so se)
      as (fn' & Hfn' & E).
    + discriminate.
    + exact Ha.
    + rewrite length_app. cbn [length].
      replace (length sofar + 1)%nat with (S (length sofar)) by lia.
      exact Hfa.
    + rewrite length_app. cbn [length] in *. lia.
    + exact H255.
    + exists fn'. split; [exact Hfn'|].
      rewrite length_app in E. cbn [length] in E.
      replace (length sofar + 1)%nat with (S (length sofar)) in E by lia.
      rewrite E. rewrite <- !app_assoc, <- mirrored_app. reflexivity.
Qed.

Lemma feed_comment (text : list Z) :
  forall sofar cm cp la xa fn fl fi cl sk ex so se,
  text <> [] ->
  length cm = 256%nat ->
  firstn (length sofar) cm = sofar ->
  cl = Z.of_nat (length sofar + length text) ->
  cl <= 255 ->
  exists cm',
    length cm' = 256%nat /\
    feed (step Quiet OutputFile)
         (Machine COMMREC_STRING la xa fn fl fi cm cl
                  (Z.of_nat (length sofar)) sk ex cp so se) text =
    Next (Machine CMD_HDR la xa fn fl fi cm' cl cl sk ex
                  (cp ++ mirrored OutputFile (map to_uchar text))
                  (so ++ detail Quiet
                        [Comment (c_str (sofar ++ map to_uchar text))])
                  se).
Proof.
  induction text as [|ch text IH];
    intros sofar cm cp la xa fn fl fi cl sk ex so se Hne Hcm Hso Hcl H255;
    [congruence|].
  cbn [length] in Hcl.
  assert (Hlt : (length sofar < length cm)%nat) by lia.
  cbn [feed]. rewrite step_commrec_string. cbv zeta.
  rewrite (store_spec cm (length sofar) (to_uchar ch) Hlt).
  rewrite uint_small by lia.
  set (a := firstn (length sofar) cm ++ to_uchar ch
              :: skipn (S (length sofar)) cm).
  assert (Ha : length a = 256%nat)
    by (unfold a; rewrite length_stored; assumption).
  assert (Hfa : firstn (S (length sofar)) a = sofar ++ [to_uchar ch])
    by (unfold a; rewrite firstn_stored, Hso by assumption; reflexivity).
  replace (Z.of_nat (length sofar) + 1) with (Z.of_nat (S (length sofar)))
    by lia.
  destruct text as [|ch2 text].
  - replace (Z.of_nat (S (length sofar)) =? cl) with true
      by (symmetry; apply Z.eqb_eq; cbn [length] in Hcl; lia).
    assert (Hlt' : (S (length sofar) < length a)%nat)
      by (cbn [length] in Hcl; lia).
    rewrite (store_spec a (S (length sofar)) 0 Hlt').
    exists (firstn (S (length sofar)) a
            ++ 0 :: skipn (S (S (length sofar))) a).
    split; [rewrite length_stored; assumption|].
    cbn [feed map]. rewrite Hfa, c_str_app_nul.
    replace (Z.of_nat (S (length sofar))) with cl
      by (cbn [length] in Hcl; lia).
    reflexivity.
  - replace (Z.of_nat (S (length sofar)) =? cl) with false
      by (symmetry; apply Z.eqb_neq; cbn [length] in Hcl; lia).
    destruct (IH (sofar ++ [to_uchar ch]) a
                 (cp ++ mirrored OutputFile [to_uchar ch])
                 la xa fn fl fi cl sk ex so se)
      as (cm' & Hcm' & E).
    + discriminate.
    + exact Ha.
    + rewrite length_app. cbn [length].
      replace (length sofar + 1)%nat with (S (length sofar)) by lia.
      exact Hfa.
    + rewrite length_app. cbn [length] in *. lia.
    + exact H255.
    + exists cm'. split; [exact Hcm'|].
      rewrite length_app in E. cbn [length] in E.
      replace (length sofar + 1)%nat with (S (length sofar)) in E by lia.
      rewrite E. rewrite <- !app_assoc, <- mirrored_app. reflexivity.
Qed.

Lemma BLK_LEN_range (n : Z) : 0 <= n < 256 -> 1 <= BLK_LEN n <= 256.
Proof. unfold BLK_LEN. destruct (n <? 3) eqn:E; lia. Qed.

Lemma is_byteb_spec (c : Z) : is_byteb c = true <-> 0 <= c < 256.
Proof. unfold is_byteb. rewrite andb_true_iff. lia. Qed.

Lemma mirrored_bytes (a b : list Z) :
  forallb is_byteb b = true ->
  mirrored OutputFile a ++ mirrored OutputFile (map to_uchar b) =
  mirrored OutputFile (a ++ b).
Proof.
  intros H. rewrite (map_to_uchar_bytes b H), mirrored_app. reflexivity.
Qed.

(** A well-formed record takes the parser from one record header to the
    next. *)
Lemma feed_record (r : record) (m : machine) :
  wf_record r = true ->
  state m = CMD_HDR ->
  length (fname m) = 256%nat ->
  length (comment m) = 256%nat ->
  exists m',
    feed (step Quiet OutputFile) m (encode_record r) = Next m' /\
    advances Quiet OutputFile m m' (encode_record r) [report_of r].
Proof.
  destruct m as [st la xa fn fl fi cm cl ci sk ex cp so se].
  cbn [state fname comment]. intros Hwf -> Hfn Hcm.
  destruct r as [n lo hi payload|name|text]; cbn [wf_record] in Hwf;
    rewrite !andb_true_iff in Hwf.
  - destruct Hwf as [[[[Hn Hlo] Hhi] Hp] Hlen].
    apply Z.eqb_eq in Hlen.
    pose proof (proj1 (is_byteb_spec n) Hn) as Rn.
    pose proof (BLK_LEN_range n Rn) as Rb.
    assert (U : uint16 (BLK_LEN n) = BLK_LEN n)
      by (apply Z.mod_small; change (2 ^ 16) with 65536; lia).
    cbn [encode_record app feed].
    rewrite step_hdr. cbv zeta. change (LOADBLK =? LOADBLK) with true.
    cbv iota.
    rewrite step_loadblk_len, step_loadblk_addrlo, step_loadblk_addrhi.
    cbv zeta. rewrite U.
    rewrite feed_skip by (change (2 ^ 32) with 4294967296; lia).
    rewrite Hlen, Z.eqb_refl.
    eexists. split; [reflexivity|].
    unfold advances; cbn [state fname comment copy stdout stderr].
    repeat split; try assumption.
    rewrite <- !app_assoc. f_equal.
    rewrite (to_uchar_byte n Hn), (to_uchar_byte lo Hlo),
      (to_uchar_byte hi Hhi), (map_to_uchar_bytes payload Hp).
    unfold mirrored. destruct OutputFile; reflexivity.
  - destruct Hwf as [[Hb H1] H255].
    apply Z.leb_le in H1, H255.
    assert (U : uint8 (Z.of_nat (length name)) = Z.of_nat (length name))
      by (apply Z.mod_small; change (2 ^ 8) with 256; lia).
    cbn [encode_record app feed].
    rewrite step_hdr. cbv zeta.
    change (FNAMEREC =? LOADBLK) with false.
    change (FNAMEREC =? XFERADDR) with false.
    change (FNAMEREC =? FNAMEREC) with true. cbv iota.
    rewrite step_fnamerec_len. cbv zeta. rewrite U.
    replace (Z.of_nat (length name) >? FNAME_SIZE) with false
      by (symmetry; unfold FNAME_SIZE; lia).
    destruct (feed_fname name [] fn
                ((cp ++ mirrored OutputFile [to_uchar FNAMEREC])
                 ++ mirrored OutputFile [to_uchar (Z.of_nat (length name))])
                la xa (Z.of_nat (length name)) cm cl ci sk ex so se)
      as (fn' & Hfn' & E);
      [destruct name; [cbn in H1; lia|discriminate]
      |assumption|reflexivity|reflexivity|assumption|].
    cbn [length app] in E. change (Z.of_nat 0) with 0 in E. rewrite E.
    eexists. split; [reflexivity|].
    unfold advances; cbn [state fname comment copy stdout stderr].
    rewrite (map_to_uchar_bytes name Hb).
    repeat split; try congruence.
    rewrite <- !app_assoc. f_equal.
    rewrite (to_uchar_byte (Z.of_nat (length name)))
      by (apply is_byteb_spec; lia).
    unfold mirrored. destruct OutputFile; reflexivity.
  - destruct Hwf as [[Hb H1] H255].
    apply Z.leb_le in H1, H255.
    assert (U : uint8 (Z.of_nat (length text)) = Z.of_nat (length text))
      by (apply Z.mod_small; change (2 ^ 8) with 256; lia).
    cbn [encode_record app feed].
    rewrite step_hdr. cbv zeta.
    change (COMMREC =? LOADBLK) with false.
    change (COMMREC =? XFERADDR) with false.
    change (COMMREC =? FNAMEREC) with false.
    change (COMMREC =? COMMREC) with true. cbv iota.
    rewrite step_commrec_len. cbv zeta. rewrite U.
    replace (Z.of_nat (length text) >? COMMENT_SIZE) with false
      by (symmetry; unfold COMMENT_SIZE; lia).
    destruct (feed_comment text [] cm
                ((cp ++ mirrored OutputFile [to_uchar COMMREC])
                 ++ mirrored OutputFile [to_uchar (Z.of_nat (length text))])
                la xa fn fl fi (Z.of_nat (length text)) sk ex so se)
      as (cm' & Hcm' & E);
      [destruct text; [cbn in H1; lia|discriminate]
      |assumption|reflexivity|reflexivity|assumption|].
    cbn [length app] in E. change (Z.of_nat 0) with 0 in E. rewrite E.
    eexists. split; [reflexivity|].
    unfold advances; cbn [state fname comment copy stdout stderr].
    rewrite (map_to_uchar_bytes text Hb).
    repeat split; try congruence.
    rewrite <- !app_assoc. f_equal.
    rewrite (to_uchar_byte (Z.of_nat (length text)))
      by (apply is_byteb_spec; lia).
    unfold mirrored. destruct OutputFile; reflexivity.
Qed.

Lemma feed_records (rs : list record) :
  forallb wf_record rs = true ->
  forall m,
  state m = CMD_HDR ->
  length (fname m) = 256%nat ->
  length (comment m) = 256%nat ->
  exists m',
    feed (step Quiet OutputFile) m (concat (map encode_record rs))
    = Next m' /\
    advances Quiet OutputFile m m' (concat (map encode_record rs))
             (map report_of rs).
Proof.
  induction rs as [|r rs IH]; intros Hwf m Hs Hfn Hcm.
  - exists m. split; [reflexivity|].
    unfold advances, mirrored, detail. cbn [map concat].
    destruct OutputFile, (Quiet =? 0); rewrite !app_nil_r;
      repeat split; assumption.
  - cbn [forallb] in Hwf. apply andb_true_iff in Hwf as [Hr Hwf].
    destruct (feed_record r m Hr Hs Hfn Hcm)
      as (m1 & E1 & S1 & F1 & C1 & P1 & O1 & D1).
    destruct (IH Hwf m1 S1) as (m2 & E2 & S2 & F2 & C2 & P2 & O2 & D2);
      [congruence|congruence|].
    exists m2. cbn [map concat]. split.
    + rewrite (feed_app_next _ _ _ _ _ E1). exact E2.
    + unfold advances. repeat split; try congruence.
      * rewrite P2, P1, <- app_assoc, <- mirrored_app. reflexivity.
      * rewrite O2, O1, <- app_assoc. f_equal.
        unfold detail. destruct (Quiet =? 0); reflexivity.
Qed.

Lemma le16_steps (lo hi : Z) :
  uint16 (Z.lor (uint16 lo) (Z.shiftl hi 8)) = le16 lo hi.
Proof. reflexivity. Qed.

Lemma feed_transfer (lo hi : Z) (m : machine) :
  is_byteb lo = true -> is_byteb hi = true ->
  state m = CMD_HDR ->
  exists m',
    feed (step Quiet OutputFile) m (transfer_record lo hi) = Next m' /\
    state m' = EXTRA_BYTES /\
    extra_bytes m' = 0 /\
    copy m' = copy m ++ mirrored OutputFile (transfer_record lo hi) /\
    stdout m' = stdout m ++ detail Quiet [Transfer_address (le16 lo hi)] /\
    stderr m' = stderr m.
Proof.
  destruct m as [st la xa fn fl fi cm cl ci sk ex cp so se].
  cbn [state copy stdout stderr]. intros Hlo Hhi ->.
  unfold transfer_record. cbn [feed].
  rewrite step_hdr. cbv zeta.
  change (XFERADDR =? LOADBLK) with false.
  change (XFERADDR =? XFERADDR) with true. cbv iota.
  rewrite step_xfer_len, step_xfer_addrlo, step_xfer_addrhi. cbv zeta.
  change (uint16 (2 - 2)) with 0. cbn [Z.eqb negb].
  eexists. split; [reflexivity|].
  cbn [state extra_bytes copy stdout stderr]. repeat split.
  rewrite <- !app_assoc. f_equal.
  rewrite (to_uchar_byte lo Hlo), (to_uchar_byte hi Hhi).
  unfold mirrored. destruct OutputFile; reflexivity.
Qed.

(** Behind the transfer address every byte is counted and none is
    copied. *)
Lemma feed_trailing (t : list Z) :
  forall m,
  state m = EXTRA_BYTES ->
  0 <= extra_bytes m < 2 ^ 32 ->
  exists m',
    feed (step Quiet OutputFile) m t = Next m' /\
    state m' = EXTRA_BYTES /\
    extra_bytes m' = uint (extra_bytes m + Z.of_nat (length t)) /\
    copy m' = copy m /\ stdout m' = stdout m /\ stderr m' = stderr m.
Proof.
  induction t as [|ch t IH]; intros m Hs Hx.
  - exists m. cbn [feed length]. rewrite Z.add_0_r, uint_small by assumption.
    repeat split; (reflexivity || assumption).
  - destruct m as [st la xa fn fl fi cm cl ci sk ex cp so se].
    cbn [state extra_bytes copy stdout stderr] in *. subst st.
    cbn [feed]. rewrite step_extra_bytes.
    destruct (IH (Machine EXTRA_BYTES la xa fn fl fi cm cl ci sk
                          (uint (ex + 1)) cp so se))
      as (m' & E & S' & X' & C' & O' & D').
    + reflexivity.
    + cbn [extra_bytes]. apply Z.mod_pos_bound. reflexivity.
    + exists m'. cbn [extra_bytes copy stdout stderr] in *.
      repeat split; try assumption.
      rewrite X'. unfold uint. rewrite Zplus_mod_idemp_l.
      f_equal. cbn [length]. lia.
Qed.

Lemma final_report_spec (m : machine) :
  state (final_report Quiet m) = state m /\
  copy (final_report Quiet m) = copy m /\
  stdout (final_report Quiet m) =
    stdout m ++ summary Quiet (extra_bytes m) /\
  stderr (final_report Quiet m) = stderr m.
Proof.
  unfold final_report, summary.
  destruct (Quiet <? 2), (extra_bytes m =? 0);
    cbn [state copy stdout stderr printf app];
    rewrite <- ?app_assoc, ?app_nil_r; repeat split; reflexivity.
Qed.

(** A well-formed stream with bytes behind its transfer address: the
    copy is the stream without them, the report names every record and
    counts them. *)
Lemma process_encoded (rs : list record) (lo hi : Z) (t : list Z) :
  forallb wf_record rs = true ->
  is_byteb lo = true -> is_byteb hi = true ->
  exists m,
    process_file Quiet OutputFile (encode rs lo hi ++ t) = (Return 0, m) /\
    state m = EXTRA_BYTES /\
    copy m = mirrored OutputFile (encode rs lo hi) /\
    stdout m =
      detail Quiet (map report_of rs ++ [Transfer_address (le16 lo hi)])
      ++ summary Quiet (uint (Z.of_nat (length t))) /\
    stderr m = [].
Proof.
  intros Hwf Hlo Hhi.
  destruct (feed_records rs Hwf init)
    as (m1 & E1 & S1 & F1 & C1 & P1 & O1 & D1); try reflexivity.
  destruct (feed_transfer lo hi m1 Hlo Hhi S1)
    as (m2 & E2 & S2 & X2 & P2 & O2 & D2).
  destruct (feed_trailing t m2 S2)
    as (m3 & E3 & S3 & X3 & P3 & O3 & D3).
  { rewrite X2. change (2 ^ 32) with 4294967296. lia. }
  destruct (final_report_spec m3) as (S4 & P4 & O4 & D4).
  exists (final_report Quiet m3).
  unfold process_file, encode. rewrite <- app_assoc.
  rewrite (feed_app_next _ _ _ _ _ E1), (feed_app_next _ _ _ _ _ E2), E3.
  split; [reflexivity|]. split; [congruence|]. split; [|split].
  - rewrite P4, P3, P2, P1, mirrored_app. reflexivity.
  - rewrite O4, O3, O2, O1, X3, X2. cbn [stdout init app Z.add].
    f_equal. unfold detail. destruct (Quiet =? 0); reflexivity.
  - rewrite D4, D3, D2, D1. reflexivity.
Qed.

Lemma final_report_extra (m : machine) :
extra_bytes (final_report Quiet m) = extra_bytes m.
Proof.
unfold final_report.
destruct (Quiet <? 2), (extra_bytes m =? 0); reflexivity.
Qed.

(** The same for any input whatever: once the last byte [c] of a
    transfer-address record with no residue has been read, the copy is
    everything read so far, and it stays so. *)
Lemma strip_after_transfer (p : list Z) (c : Z) (t : list Z) (m1 : machine) :
feed (step Quiet OutputFile) init p = Next m1 ->
state m1 = XFER_ADDRHI ->
chskip m1 = 0 ->
Z.of_nat (length t) < 2 ^ 32 ->
exists m,
  process_file Quiet OutputFile (p ++ c :: t) = (Return 0, m) /\
  state m = EXTRA_BYTES /\
  copy m = mirrored OutputFile (map to_uchar (p ++ [c])) /\
  extra_bytes m = Z.of_nat (length t).
Proof.
intros Hp Hs Hk Ht.
destruct (feed_copy_all p init m1 Hp) as [Hc _]; [rewrite Hs; reflexivity|].
destruct m1 as [st la xa fn fl fi cm cl ci sk ex cp so se].
cbn [state chskip copy init app] in Hs, Hk, Hc. subst st sk.
destruct (feed_trailing t
            (Machine EXTRA_BYTES la (uint16 (Z.lor xa (Z.shiftl c 8)))
                     fn fl fi cm cl ci 0 0
                     (cp ++ mirrored OutputFile [to_uchar c])
                     (so ++ detail Quiet
                           [Transfer_address
                              (uint16 (Z.lor xa (Z.shiftl c 8)))]) se))
  as (m3 & E3 & S3 & X3 & P3 & _).
{ reflexivity. }
{ cbn [extra_bytes]. change (2 ^ 32) with 4294967296. lia. }
exists (final_report Quiet m3).
unfold process_file. rewrite (feed_app_next _ _ _ _ _ Hp).
cbn [feed]. rewrite step_xfer_addrhi. cbv zeta. cbn [Z.eqb negb].
rewrite E3.
destruct (final_report_spec m3) as (S4 & P4 & _).
split; [reflexivity|]. split; [congruence|]. split.
- rewrite P4, P3. cbn [copy]. rewrite Hc, map_app, mirrored_app.
  reflexivity.
- rewrite final_report_extra, X3. cbn [extra_bytes].
  apply uint_small. lia.
Qed.
End Globals.

(** C2, where the code departs from it.  A filename or comment record
    with length byte 0 stands in front of the transfer-address record, and
    five bytes follow that record.  The copy is the whole input, the five
    bytes included, and the report says the file looks good, without a
    count: the parser never leaves the name state (the defect of C4), so it
    reads no transfer-address record and no byte in [EXTRA_BYTES].  So it
    is for the program run on that standard input with an output operand.
    With a name of one byte in the place of the empty one the five bytes
    are stripped and counted. *)
Theorem c2_zero_length_record_keeps_trailing :
  (let input := [FNAMEREC; 0] ++ transfer_record 0x00 0x52 ++ sample_trailing in
   let r := process_file 0 true input in
   fst r = Return 0 /\ copy (snd r) = input /\
   state (snd r) = FNAMEREC_NAME /\ extra_bytes (snd r) = 0 /\
   stdout (snd r) = [CMD_file_looks_good] /\
   main (Env input (fun _ => None) (fun _ => true) false false)
        ["stripcmd"; "-"; "out.cmd"]%string =
     Run (Return 0) (Some "out.cmd"%string) input [CMD_file_looks_good] []) /\
  (let input := [COMMREC; 0] ++ transfer_record 0x00 0x52 ++ sample_trailing in
   let r := process_file 0 true input in
   fst r = Return 0 /\ copy (snd r) = input /\
   state (snd r) = COMMREC_STRING /\ extra_bytes (snd r) = 0 /\
   stdout (snd r) = [CMD_file_looks_good]) /\
  (let kept := [FNAMEREC; 1; 0x41] ++ transfer_record 0x00 0x52 in
   let r := process_file 0 true (kept ++ sample_trailing) in
   fst r = Return 0 /\ copy (snd r) = kept /\
   state (snd r) = EXTRA_BYTES /\ extra_bytes (snd r) = 5 /\
   stdout (snd r) =
     [Filename [0x41]; Transfer_address 0x5200; Found_extraneous_bytes 5;
      CMD_file_looks_good]).
Proof. vm_compute. repeat split. Qed.

(** X27. With an output file, the copy is, for every input, the bytes read
    outside the state [EXTRA_BYTES], in the order read: no byte read in
    [EXTRA_BYTES] is in it.  For a stream of records with names and
    comments of 1 to 255 bytes and load blocks with [BLK_LEN n] payload
    bytes, with [K] bytes behind its transfer-address record, the copy is
    the input without its last [K] bytes, [process_file] returns 0, and
    below quiet level 2 the report holds the count [K] when [K > 0] (and no
    count when [K = 0]); so it is for the program run on that standard
    input with an output operand that does not begin with ['-'].  For any
    other input the same holds from the point where the parser has read a
    transfer-address record. *)
Theorem copy_strips_trailing_bytes
        (Quiet : Z) (rs : list record) (lo hi : Z) (t : list Z)
        (e : env) (pgm ofile : string) :
  forallb wf_record rs = true ->
  is_byteb lo = true ->
  is_byteb hi = true ->
  Z.of_nat (length t) < 2 ^ 32 ->
  stdin e = encode rs lo hi ++ t ->
  fopen_w e ofile = true ->
  ferror_out e = false ->
  fclose_eof e = false ->
  String.get 0 ofile <> Some "-"%char ->
  (forall input : list Z,
      copy (snd (process_file Quiet true input)) =
      map (fun r => to_uchar (snd r))
          (filter (fun r => negb (is_extra (state (fst r))))
                  (reads (step Quiet true) init input))) /\
  (exists m,
      process_file Quiet true (encode rs lo hi ++ t) = (Return 0, m) /\
      copy m = encode rs lo hi /\
      copy m = firstn (length (encode rs lo hi ++ t) - length t)
                      (encode rs lo hi ++ t) /\
      stdout m =
        detail Quiet (map report_of rs ++ [Transfer_address (le16 lo hi)])
        ++ summary Quiet (Z.of_nat (length t)) /\
      stderr m = []) /\
  (Quiet < 2 -> t <> [] ->
   In (Found_extraneous_bytes (Z.of_nat (length t)))
      (summary Quiet (Z.of_nat (length t)))) /\
  (summary Quiet 0 = if Quiet <? 2 then [CMD_file_looks_good] else []) /\
  (forall (p : list Z) (c : Z) (m1 : machine),
      feed (step Quiet true) init p = Next m1 ->
      state m1 = XFER_ADDRHI ->
      chskip m1 = 0 ->
      exists m,
        process_file Quiet true (p ++ c :: t) = (Return 0, m) /\
        copy m = map to_uchar (p ++ [c]) /\
        extra_bytes m = Z.of_nat (length t)) /\
  getopt_scan_permuting "q" ["-"%string; ofile] =
    getopt_scan "q" ["-"%string; ofile] /\
  main e [pgm; "-"%string; ofile] =
    Run (Return 0) (Some ofile) (encode rs lo hi)
        (map report_of rs ++ [Transfer_address (le16 lo hi)]
         ++ summary 0 (Z.of_nat (length t))) [].
Proof.
  intros Hwf Hlo Hhi Ht Hin Hfw Hfe Hfc Ho.
  assert (G : forall q,
             exists m,
               process_file q true (encode rs lo hi ++ t) = (Return 0, m) /\
               copy m = encode rs lo hi /\
               stdout m =
                 detail q (map report_of rs
                           ++ [Transfer_address (le16 lo hi)])
                 ++ summary q (Z.of_nat (length t)) /\
               stderr m = []).
  { intros q.
    destruct (process_encoded q true rs lo hi t Hwf Hlo Hhi)
      as (m & P & _ & C & O & D).
    rewrite uint_small in O by lia.
    exists m. auto. }
  split; [|split; [|split; [|split; [|split; [|split]]]]].
  - intros input. unfold process_file.
    pose proof (feed_copy Quiet true input init) as H.
    cbn [copy init app mirrored] in H.
    destruct (feed (step Quiet true) init input) as [m|h m];
      cbn [machine_of snd] in *; [|exact H].
    rewrite (proj1 (proj2 (final_report_spec Quiet m))). exact H.
  - destruct (G Quiet) as (m & P & C & O & D).
    exists m. repeat split; try assumption.
    rewrite C, length_app.
    replace (length (encode rs lo hi) + length t - length t)%nat
      with (length (encode rs lo hi) + 0)%nat by lia.
    rewrite firstn_app_2, firstn_O, app_nil_r. reflexivity.
  - intros Hq Hne. unfold summary.
    replace (Quiet <? 2) with true by (symmetry; apply Z.ltb_lt; lia).
    replace (Z.of_nat (length t) =? 0) with false.
    + left; reflexivity.
    + symmetry; apply Z.eqb_neq. destruct t; [congruence|]. cbn [length]. lia.
  - reflexivity.
  - intros p c m1 Hp Hs Hk.
    destruct (strip_after_transfer Quiet true p c t m1 Hp Hs Hk Ht)
      as (m & P & _ & C & X).
    exists m. auto.
  - apply getopt_scan_permuting_agrees. cbn [options_first forallb].
    rewrite (proj2 (plain_get ofile) Ho). reflexivity.
  - destruct (G 0) as (m & P & C & O & D).
    unfold main, process_args. cbn [tl getopt_scan scan_options].
    cbn [length Nat.ltb Nat.leb names_input_file char_at String.get
         Ascii.eqb Bool.eqb negb open_output].
    rewrite Hfw. cbn [Cmd.Quiet Cmd.InputFile Cmd.OutputFile bytes_of].
    rewrite Hin, P, Hfe, Hfc, C, O, D. unfold detail. cbn [Z.eqb].
    rewrite <- app_assoc. reflexivity.
Qed.

Lemma copy_strips_trailing_bytes_witness :
  main sample_env ["stripcmd"; "-"; "out.cmd"]%string =
  Run (Return 0) (Some "out.cmd"%string) (encode sample_records 0x00 0x52)
      (map report_of sample_records ++ [Transfer_address (le16 0x00 0x52)]
       ++ summary 0 5) [].
Proof.
  assert (K : Z.of_nat (length sample_trailing) < 2 ^ 32) by (cbn; lia).
  assert (N : String.get 0 "out.cmd" <> Some "-"%char) by discriminate.
  exact (proj2 (proj2 (proj2 (proj2 (proj2 (proj2
           (copy_strips_trailing_bytes
              0 sample_records 0x00 0x52 sample_trailing sample_env
              "stripcmd" "out.cmd"
              eq_refl eq_refl eq_refl K eq_refl eq_refl eq_refl
              eq_refl N))))))).
Defined.

(** C3, where the code departs from it.  Standard input is used when the
    operand is absent or is ["-"], and an operand of two characters or more
    that does not begin with ['-'] is opened; but an operand of a single
    character, such as the file name ["a"], is not opened either: the
    condition of [process_args] sends every one-character operand, and
    every operand that begins with ['-'], to standard input. *)
Theorem c3_single_character_operand (e : env) :
  process_args e ["stripcmd"; "a"]%string = Args_ok (Globals 0 Stdin None) /\
  (forall (c : ascii) (more : list string),
      names_input_file (String c EmptyString :: more) = Some false) /\
  (forall (s : string) (more : list string),
      names_input_file (String "-" s :: more) = Some false) /\
  process_args e ["stripcmd"%string] = Args_ok (Globals 0 Stdin None) /\
  process_args e ["stripcmd"; "-"]%string = Args_ok (Globals 0 Stdin None) /\
  process_args e ["stripcmd"; "ab"]%string =
    match fopen_r e "ab" with
    | Some _ => Args_ok (Globals 0 (In_file "ab") None)
    | None => Args_fail [Failed_to_open "ab"]
    end /\
  exit_status (main (Env [] (fun _ => None) (fun _ => false) false false)
                    ["stripcmd"; "ab"]%string) = Return 1.
Proof.
  split; [reflexivity|]. split.
  { intros c more. unfold names_input_file, char_at. cbn.
    destruct (Ascii.eqb c "-"); reflexivity. }
  split; [intros s more; reflexivity|].
  split; [reflexivity|]. split; [reflexivity|]. split; [|reflexivity].
  unfold process_args. cbn. destruct (fopen_r e "ab"); reflexivity.
Qed.

(** C4, where the code departs from it.  After a filename or a comment
    record with length byte 0 the parser does not return to the header
    state: the bytes that follow, here a whole transfer-address record, are
    taken as name bytes, nothing is reported for them, and the 257th of
    them is stored past the end of the array.  A record of length 1 is read
    as the claim says. *)
Theorem c4_zero_length_name :
  (let r := process_file 0 true [FNAMEREC; 0; XFERADDR; 2; 0x00; 0x52] in
   fst r = Return 0 /\ state (snd r) = FNAMEREC_NAME /\
   fname_idx (snd r) = 4 /\ stdout (snd r) = [CMD_file_looks_good]) /\
  (let r := process_file 0 true [COMMREC; 0; XFERADDR; 2; 0x00; 0x52] in
   fst r = Return 0 /\ state (snd r) = COMMREC_STRING /\
   comment_idx (snd r) = 4 /\ stdout (snd r) = [CMD_file_looks_good]) /\
  (let r := process_file 0 true ([FNAMEREC; 0] ++ repeat 0x41 256) in
   fst r = Return 0 /\ state (snd r) = FNAMEREC_NAME) /\
  fst (process_file 0 true ([FNAMEREC; 0] ++ repeat 0x41 257))
    = Out_of_bounds /\
  fst (process_file 0 true ([COMMREC; 0] ++ repeat 0x41 257))
    = Out_of_bounds /\
  (let r := process_file 0 true [FNAMEREC; 1; 0x41; XFERADDR; 2; 0x00; 0x52] in
   fst r = Return 0 /\ state (snd r) = EXTRA_BYTES /\
   stdout (snd r) =
     [Filename [0x41]; Transfer_address 0x5200; CMD_file_looks_good]).
Proof. vm_compute. repeat split. Qed.

(** C5. [BLK_LEN] maps a length byte [n] to [n + 254] below 3 and to
    [n - 2] from 3 on: 0, 1, 2, 3 and 255 give 254, 255, 256, 1 and 253.
    After a load-block header with length byte [n] the parser is in
    [SKIP_BYTES] for as long as fewer than [BLK_LEN n] payload bytes were
    read, and back in the header state with the last of them. *)
Theorem c5_load_block_length
        (Quiet : Z) (OutputFile : bool) (n lo hi : Z) (payload : list Z)
        (k : nat) (m : machine) :
  0 <= n < 256 ->
  state m = CMD_HDR ->
  Z.of_nat (length payload) = BLK_LEN n ->
  (k < length payload)%nat ->
  BLK_LEN n = (if n <? 3 then n + 254 else n - 2) /\
  (BLK_LEN 0 = 254 /\ BLK_LEN 1 = 255 /\ BLK_LEN 2 = 256 /\
   BLK_LEN 3 = 1 /\ BLK_LEN 255 = 253) /\
  (exists m',
      feed (step Quiet OutputFile) m ([LOADBLK; n; lo; hi] ++ payload)
      = Next m' /\
      state m' = CMD_HDR /\ chskip m' = 0) /\
  (exists m',
      feed (step Quiet OutputFile) m ([LOADBLK; n; lo; hi] ++ firstn k payload)
      = Next m' /\
      state m' = SKIP_BYTES /\ chskip m' = BLK_LEN n - Z.of_nat k).
Proof.
  intros Hn Hs Hlen Hk.
  split; [reflexivity|]. split; [repeat split|].
  destruct m as [st la xa fn fl fi cm cl ci sk ex cp so se].
  cbn [state] in Hs; subst st.
  pose proof (BLK_LEN_range n Hn) as Rb.
  assert (U : uint16 (BLK_LEN n) = BLK_LEN n)
    by (apply Z.mod_small; change (2 ^ 16) with 65536; lia).
  assert (H32 : 0 < BLK_LEN n < 2 ^ 32)
    by (change (2 ^ 32) with 4294967296; lia).
  split.
  - cbn [app feed]. rewrite step_hdr. cbv zeta.
    change (LOADBLK =? LOADBLK) with true. cbv iota.
    rewrite step_loadblk_len, step_loadblk_addrlo, step_loadblk_addrhi.
    cbv zeta. rewrite U. rewrite feed_skip by lia.
    rewrite Hlen, Z.eqb_refl, Z.sub_diag.
    eexists. split; [reflexivity|]. split; reflexivity.
  - assert (Lk : length (firstn k payload) = k)
      by (rewrite length_firstn; lia).
    cbn [app feed]. rewrite step_hdr. cbv zeta.
    change (LOADBLK =? LOADBLK) with true. cbv iota.
    rewrite step_loadblk_len, step_loadblk_addrlo, step_loadblk_addrhi.
    cbv zeta. rewrite U. rewrite feed_skip by lia.
    rewrite Lk.
    replace (Z.of_nat k =? BLK_LEN n) with false
      by (symmetry; apply Z.eqb_neq; lia).
    eexists. split; [reflexivity|]. split; reflexivity.
Qed.

Lemma c5_load_block_length_witness :
  exists m',
    feed (step 0 true) init ([LOADBLK; 2; 0x00; 0x52] ++ repeat 0xe5 256)
    = Next m' /\
    state m' = CMD_HDR /\ chskip m' = 0.
Proof.
  assert (R : 0 <= 2 < 256) by lia.
  assert (K : (255 < length (repeat 0xe5 256))%nat)
    by (rewrite repeat_length; lia).
  exact (proj1 (proj2 (proj2
           (c5_load_block_length 0 true 2 0x00 0x52 (repeat 0xe5 256) 255
                                 init R eq_refl eq_refl K)))).
Defined.

(** C9. When the run ends with exit status 2 and an output file was
    opened, the input was read up to an offending byte, that byte stood
    where a record header or the last byte of a transfer-address record was
    expected, and the copy holds every byte read, the offending one
    included; [main] returns the status and leaves the copy as it is. *)
Theorem c9_partial_copy_on_error
        (e : env) (argv : list string) (g : globals) (ofile : string) :
  process_args e argv = Args_ok g ->
  OutputFile g = Some ofile ->
  exit_status (main e argv) = Return 2 ->
  exists pre ch post m1 m,
    bytes_of e (InputFile g) = pre ++ ch :: post /\
    feed (step (Quiet g) true) init pre = Next m1 /\
    step (Quiet g) true m1 ch = Ret (Return 2) m /\
    (state m1 = CMD_HDR \/ state m1 = XFER_ADDRHI) /\
    map snd (reads (step (Quiet g) true) init (bytes_of e (InputFile g)))
      = pre ++ [ch] /\
    process_file (Quiet g) true (bytes_of e (InputFile g)) = (Return 2, m) /\
    copy m = map to_uchar (pre ++ [ch]) /\
    copy_to (main e argv) = Some ofile /\
    copied (main e argv) = map to_uchar (pre ++ [ch]).
Proof.
  intros Ha Ho. unfold main. rewrite Ha, Ho.
  unfold process_file.
  destruct (feed (step (Quiet g) true) init (bytes_of e (InputFile g)))
    as [m'|h m] eqn:E.
  - destruct (ferror_out e), (fclose_eof e); cbn; discriminate.
  - destruct h as [code|]; [|cbn; discriminate].
    intros Hx.
    assert (Hc : code = 2).
    { destruct code as [|p|p]; cbn in Hx;
        [destruct (ferror_out e), (fclose_eof e); discriminate Hx
        |congruence|congruence]. }
    subst code. clear Hx.
    pose proof E as E'.
    apply feed_ret_inv in E' as (pre & ch & post & m1 & Hin & Hp & Hs).
    exists pre, ch, post, m1, m.
    assert (Hx : is_extra (state m1) = false)
      by (eapply step_ret_not_extra, Hs).
    assert (Hcopy : copy m = map to_uchar (pre ++ [ch])).
    { pose proof (step_copy (Quiet g) true m1 ch) as Hc.
      rewrite Hs, Hx in Hc. cbn [machine_of mirrored] in Hc.
      destruct (feed_copy_all (Quiet g) true pre init m1 Hp Hx) as [Hc1 _].
      rewrite Hc, Hc1, map_app. reflexivity. }
    repeat split; try assumption.
    + eapply step_ret2, Hs.
    + rewrite Hin. eapply reads_bytes_ret; eassumption.
Qed.

Lemma c9_partial_copy_on_error_witness :
  exists pre ch post m1 m,
    [FNAMEREC; 2; 0x41; 0x42; 0x07; 0x09] = pre ++ ch :: post /\
    feed (step 0 true) init pre = Next m1 /\
    step 0 true m1 ch = Ret (Return 2) m /\
    (state m1 = CMD_HDR \/ state m1 = XFER_ADDRHI) /\
    map snd (reads (step 0 true) init [FNAMEREC; 2; 0x41; 0x42; 0x07; 0x09])
      = pre ++ [ch] /\
    process_file 0 true [FNAMEREC; 2; 0x41; 0x42; 0x07; 0x09]
      = (Return 2, m) /\
    copy m = map to_uchar (pre ++ [ch]) /\
    copy_to (main sample_bad_env ["stripcmd"; "-"; "out.cmd"]%string)
      = Some "out.cmd"%string /\
    copied (main sample_bad_env ["stripcmd"; "-"; "out.cmd"]%string)
      = map to_uchar (pre ++ [ch]).
Proof.
  exact (c9_partial_copy_on_error
           sample_bad_env ["stripcmd"; "-"; "out.cmd"]%string
           (Globals 0 Stdin (Some "out.cmd"%string)) "out.cmd"
           eq_refl eq_refl eq_refl).
Defined.

(** *** Beyond the claims: the rest of [process_file] *)

Ltac simpl_step :=
  cbn -[uint uint8 uint16 Z.lor Z.shiftl BLK_LEN to_uchar store c_str].

(** Case analysis on the tests of a goal, the inner ones first. *)
Ltac break_inner :=
  repeat (match goal with
          | |- context [if ?c then _ else _] =>
              lazymatch c with
              | context [if _ then _ else _] => fail
              | context [match _ with Some _ => _ | None => _ end] => fail
              | _ => destruct c eqn:?
              end
          | |- context [match ?c with Some _ => _ | None => _ end] =>
              lazymatch c with
              | context [if _ then _ else _] => fail
              | context [match _ with Some _ => _ | None => _ end] => fail
              | _ => destruct c eqn:?
              end
          end; simpl_step).

Lemma alike_refl (sc so : bool) (m : machine) : alike sc so m m.
Proof. unfold alike. repeat split; reflexivity. Qed.

(** The quiet level and the presence of an output file change the report
    and the copy and nothing else. *)
Lemma step_alike
      (q q' : Z) (out out' sc so : bool) (m m' : machine) (ch : Z) :
  (sc = true -> out = out') ->
  (so = true -> (q =? 0) = (q' =? 0)) ->
  alike sc so m m' ->
  match step q out m ch, step q' out' m' ch with
  | Next a, Next b => alike sc so a b
  | Ret h a, Ret h' b => h = h' /\ alike sc so a b
  | _, _ => False
  end.
Proof.
  intros Hc Ho.
  destruct m as [st la xa fn fl fi cm cl ci sk ex cp so0 se],
           m' as [st' la' xa' fn' fl' fi' cm' cl' ci' sk' ex' cp' so0' se'].
  unfold alike;
    cbn [state load_addr xfer_addr fname fname_len fname_idx comment
         comment_len comment_idx chskip extra_bytes copy stdout stderr].
  intros (-> & -> & -> & -> & -> & -> & -> & -> & -> & -> & -> & -> & Cp & So).
  unfold step, unless.
  destruct sc, so, out, out', (q =? 0), (q' =? 0);
    try (specialize (Hc eq_refl); discriminate Hc);
    try (specialize (Ho eq_refl); discriminate Ho);
    try (specialize (Cp eq_refl); subst cp');
    try (specialize (So eq_refl); subst so0');
    clear Hc Ho;
    destruct st'; simpl_step; break_inner; try congruence;
    repeat split; try reflexivity; try discriminate.
Qed.

Lemma feed_alike
      (q q' : Z) (out out' sc so : bool) (input : list Z) (m m' : machine) :
  (sc = true -> out = out') ->
  (so = true -> (q =? 0) = (q' =? 0)) ->
  alike sc so m m' ->
  match feed (step q out) m input, feed (step q' out') m' input with
  | Next a, Next b => alike sc so a b
  | Ret h a, Ret h' b => h = h' /\ alike sc so a b
  | _, _ => False
  end.
Proof.
  intros Hc Ho. revert m m'.
  induction input as [|ch rest IH]; intros m m' H; cbn [feed].
  - exact H.
  - pose proof (step_alike q q' out out' sc so m m' ch Hc Ho H) as S.
    destruct (step q out m ch), (step q' out' m' ch);
      try contradiction; [apply IH, S | exact S].
Qed.

Lemma final_report_alike (q q' : Z) (sc so : bool) (m m' : machine) :
  (so = true -> q = q') ->
  alike sc so m m' ->
  alike sc so (final_report q m) (final_report q' m').
Proof.
  intros Hq.
  destruct m as [st la xa fn fl fi cm cl ci sk ex cp so0 se],
           m' as [st' la' xa' fn' fl' fi' cm' cl' ci' sk' ex' cp' so0' se'].
  unfold alike;
    cbn [state load_addr xfer_addr fname fname_len fname_idx comment
         comment_len comment_idx chskip extra_bytes copy stdout stderr].
  intros (-> & -> & -> & -> & -> & -> & -> & -> & -> & -> & -> & -> & Cp & So).
  unfold final_report. cbn [extra_bytes].
  destruct so; [rewrite <- (Hq eq_refl), (So eq_refl)|];
    destruct (q <? 2), (q' <? 2), (ex' =? 0); cbn;
    repeat split; try reflexivity; try assumption; discriminate.
Qed.

(** X12. The quiet level changes the report and nothing else: for every
    input, with or without an output file, two runs at any two quiet levels
    return the same value, write the same copy and the same messages, and
    end with the same locals. *)
Theorem quiet_changes_the_report_only
        (q q' : Z) (out : bool) (input : list Z) :
  fst (process_file q out input) = fst (process_file q' out input) /\
  copy (snd (process_file q out input))
    = copy (snd (process_file q' out input)) /\
  alike true false (snd (process_file q out input))
                   (snd (process_file q' out input)).
Proof.
  assert (A : fst (process_file q out input) = fst (process_file q' out input)
              /\ alike true false (snd (process_file q out input))
                                  (snd (process_file q' out input))).
  { unfold process_file.
    pose proof (feed_alike q q' out out true false input init init
                  (fun _ => eq_refl)
                  (fun H : false = true =>
                     False_ind _ (Bool.diff_false_true H))
                  (alike_refl true false init)) as H.
    destruct (feed (step q out) init input),
             (feed (step q' out) init input);
      try contradiction; cbn [fst snd].
    - split; [reflexivity|]. apply final_report_alike; [discriminate|exact H].
    - exact H. }
  destruct A as [A1 A2]. split; [exact A1|]. split; [|exact A2].
  unfold alike in A2. apply A2. reflexivity.
Qed.

(** The returns from inside the loop are [return 2] and the stores past an
    array; there is no [return 0] there and no [return 3]. *)
Lemma step_ret_kinds (q : Z) (out : bool) (m m' : machine) (ch : Z) (h : halt) :
  step q out m ch = Ret h m' -> h = Return 2 \/ h = Out_of_bounds.
Proof.
  destruct m as [st la xa fn fl fi cm cl ci sk ex cp so se].
  unfold step, unless.
  destruct st, out, (q =? 0); simpl_step; break_inner; try congruence;
    intros H; inversion H; auto.
Qed.

(** At a quiet level other than 0 a step prints nothing. *)
Lemma step_quiet (q : Z) (out : bool) (m : machine) (ch : Z) :
  q <> 0 -> stdout (machine_of (step q out m ch)) = stdout m.
Proof.
  intros Hq. apply Z.eqb_neq in Hq.
  destruct m as [st la xa fn fl fi cm cl ci sk ex cp so se].
  unfold step, unless. rewrite Hq.
  destruct st, out; simpl_step; break_inner; reflexivity.
Qed.

Lemma feed_quiet (q : Z) (out : bool) (input : list Z) (m : machine) :
  q <> 0 -> stdout (machine_of (feed (step q out) m input)) = stdout m.
Proof.
  intros Hq. revert m; induction input as [|ch rest IH]; intros m;
    cbn [feed]; [reflexivity|].
  pose proof (step_quiet q out m ch Hq) as S.
  destruct (step q out m ch) as [m'|h m']; cbn [machine_of] in *.
  - rewrite IH. exact S.
  - exact S.
Qed.

(** X13. The quiet levels.  At a level other than 0 no record is reported:
    the report is the closing lines alone (the count of trailing bytes, if
    there are any, and the verdict) when the run returns 0, and it is
    empty when the run ends in an error; from level 2 on it is empty in
    every case. *)
Theorem quiet_levels (q : Z) (out : bool) (input : list Z) :
  q <> 0 ->
  let r := process_file q out input in
  stdout (snd r) =
    match fst r with
    | Return 0 => summary q (extra_bytes (snd r))
    | _ => []
    end /\
  (2 <= q -> stdout (snd r) = []).
Proof.
  intros Hq. cbv zeta. unfold process_file.
  pose proof (feed_quiet q out input init Hq) as F. cbn [stdout init] in F.
  destruct (feed (step q out) init input) as [m|h m] eqn:E;
    cbn [machine_of fst snd] in *.
  - destruct (final_report_spec q m) as (_ & _ & O & _).
    rewrite O, F, final_report_extra. cbn [app].
    split; [reflexivity|]. intros H2. unfold summary.
    replace (q <? 2) with false by (symmetry; apply Z.ltb_ge; lia).
    reflexivity.
  - apply feed_ret_inv in E as (pre & ch & post & m1 & _ & _ & Hs).
    apply step_ret_kinds in Hs as [-> | ->]; auto.
Qed.

Lemma quiet_levels_witness :
  stdout (snd (process_file 1 true
                 (encode sample_records 0x00 0x52 ++ sample_trailing))) =
  [Found_extraneous_bytes 5; CMD_file_looks_good].
Proof.
  assert (H : 1 <> 0) by discriminate.
  exact (proj1 (quiet_levels
                  1 true (encode sample_records 0x00 0x52 ++ sample_trailing)
                  H)).
Defined.

(** X14. Without an output file the program copies nothing, whatever the
    input, and what it returns and reports is what it returns and reports
    when it copies; [main] then has no file to check or close, so its exit
    status is the value [process_file] returned. *)
Theorem report_only_mode
        (q : Z) (input : list Z) (e : env) (argv : list string)
        (g : globals) :
  process_args e argv = Args_ok g ->
  OutputFile g = None ->
  copy (snd (process_file q false input)) = [] /\
  fst (process_file q false input) = fst (process_file q true input) /\
  stdout (snd (process_file q false input))
    = stdout (snd (process_file q true input)) /\
  stderr (snd (process_file q false input))
    = stderr (snd (process_file q true input)) /\
  copy_to (main e argv) = None /\
  copied (main e argv) = [] /\
  exit_status (main e argv)
    = fst (process_file (Quiet g) false (bytes_of e (InputFile g))).
Proof.
  intros Ha Ho.
  assert (C : forall q' i, copy (snd (process_file q' false i)) = []).
  { intros q' i. unfold process_file.
    pose proof (feed_copy q' false i init) as H.
    cbn [mirrored copy init app] in H.
    destruct (feed (step q' false) init i) as [m|h m];
      cbn [machine_of snd] in *; [|exact H].
    rewrite (proj1 (proj2 (final_report_spec q' m))). exact H. }
  assert (A : fst (process_file q false input) = fst (process_file q true input)
              /\ alike false true (snd (process_file q false input))
                                  (snd (process_file q true input))).
  { unfold process_file.
    pose proof (feed_alike q q false true false true input init init
                  (fun H : false = true =>
                     False_ind _ (Bool.diff_false_true H))
                  (fun _ => eq_refl)
                  (alike_refl false true init)) as H.
    destruct (feed (step q false) init input),
             (feed (step q true) init input);
      try contradiction; cbn [fst snd].
    - split; [reflexivity|]. apply final_report_alike; [reflexivity|exact H].
    - exact H. }
  destruct A as [A1 A2]. unfold alike in A2.
  split; [apply C|]. split; [exact A1|].
  split; [apply A2; reflexivity|]. split; [apply A2|].
  unfold main. rewrite Ha, Ho.
  pose proof (C (Quiet g) (bytes_of e (InputFile g))) as C'.
  destruct (process_file (Quiet g) false (bytes_of e (InputFile g)))
    as [h m]. cbn [fst snd] in *.
  destruct h as [[|p|p]|]; cbn [copy_to copied exit_status]; auto.
Qed.

Lemma report_only_mode_witness :
  copied (main sample_env ["stripcmd"%string]) = [] /\
  exit_status (main sample_env ["stripcmd"%string]) = Return 0.
Proof.
  pose proof (report_only_mode 0 [] sample_env ["stripcmd"%string]
                (Globals 0 Stdin None) eq_refl eq_refl) as H.
  split; [exact (proj1 (proj2 (proj2 (proj2 (proj2 (proj2 H))))))|].
  exact (eq_trans (proj2 (proj2 (proj2 (proj2 (proj2 (proj2 H)))))) eq_refl).
Defined.

Lemma store_some (a a' : list Z) (i v : Z) :
  store a i v = Some a' ->
  0 <= i < Z.of_nat (length a) /\ length a' = length a.
Proof.
  unfold store. destruct (i <? 0) eqn:E; [discriminate|].
  apply Z.ltb_ge in E. intros H.
  destruct (Nat.lt_ge_cases (Z.to_nat i) (length a)) as [L|L].
  - rewrite (store_at_spec a (Z.to_nat i) v L) in H. injection H as <-.
    rewrite length_stored by assumption. split; [lia|reflexivity].
  - rewrite (store_at_none a (Z.to_nat i) v L) in H. discriminate.
Qed.

Lemma uint8_nonneg (c : Z) : 0 <= uint8 c < 256.
Proof. unfold uint8. change (2 ^ 8) with 256. apply Z.mod_pos_bound. lia. Qed.

Ltac history_simple :=
  cbv zeta; break_ifs; intros H; inversion H; subst; clear H;
  unfold history_ok;
  cbn [state fname comment fname_len fname_idx comment_len comment_idx];
  repeat split; try assumption; intros X; discriminate X.

(** One more byte read, and what was read still accounts for the
    machine. *)
Lemma step_history
      (q : Z) (out : bool) (pre : list Z) (m m' : machine) (ch : Z) :
  history_ok pre m ->
  step q out m ch = Next m' ->
  history_ok (pre ++ [ch]) m'.
Proof.
  destruct m as [st la xa fn fl fi cm cl ci sk ex cp so se].
  unfold history_ok at 1;
    cbn [state fname comment fname_len fname_idx comment_len comment_idx].
  intros (Hfn & Hcm & Hf & Hc & Hfl & Hcl).
  destruct st.
  - rewrite step_hdr. cbv zeta.
    destruct (ch =? LOADBLK) eqn:E1; [history_simple|].
    destruct (ch =? XFERADDR) eqn:E2; [history_simple|].
    destruct (ch =? FNAMEREC) eqn:E3.
    { apply Z.eqb_eq in E3. subst ch. intros [= <-]. unfold history_ok.
      cbn [state fname comment]. repeat split; try assumption;
        try (intros X; discriminate X).
      intros _. exists pre. reflexivity. }
    destruct (ch =? COMMREC) eqn:E4; [|discriminate].
    apply Z.eqb_eq in E4. subst ch. intros [= <-]. unfold history_ok.
    cbn [state fname comment]. repeat split; try assumption;
      try (intros X; discriminate X).
    intros _. exists pre. reflexivity.
  - rewrite step_loadblk_len. history_simple.
  - rewrite step_loadblk_addrlo. history_simple.
  - rewrite step_loadblk_addrhi. history_simple.
  - rewrite step_xfer_len. history_simple.
  - rewrite step_xfer_addrlo. history_simple.
  - rewrite step_xfer_addrhi. history_simple.
  - rewrite step_fnamerec_len. cbv zeta.
    destruct (uint8 ch >? FNAME_SIZE); [discriminate|].
    intros [= <-]. unfold history_ok.
    cbn [state fname comment fname_len fname_idx].
    repeat split; try assumption; try (intros X; discriminate X).
    intros _. destruct (Hfl eq_refl) as [p ->].
    exists p, ch, []. rewrite <- app_assoc. cbn [app length].
    pose proof (uint8_nonneg ch).
    repeat split; try reflexivity; lia.
  - rewrite step_fnamerec_name. cbv zeta.
    destruct (store fn fi (to_uchar ch)) as [a|] eqn:S1; [|discriminate].
    apply store_some in S1 as [R1 L1].
    destruct (Hf eq_refl) as (p & c & qs & -> & -> & -> & Hq & Hlt).
    rewrite uint_small by (change (2 ^ 32) with 4294967296; lia).
    destruct (Z.of_nat (length qs) + 1 =? uint8 c) eqn:E.
    + destruct (store a (Z.of_nat (length qs) + 1) 0) as [a'|] eqn:S2;
        [|discriminate].
      apply store_some in S2 as [_ L2].
      intros [= <-]. unfold history_ok. cbn [state fname comment].
      repeat split; try congruence; intros X; discriminate X.
    + intros [= <-]. unfold history_ok.
      cbn [state fname comment fname_len fname_idx].
      repeat split; try congruence; try (intros X; discriminate X).
      intros _. exists p, c, (qs ++ [ch]).
      rewrite <- !app_assoc, length_app. cbn [app length].
      apply Z.eqb_neq in E.
      repeat split; try reflexivity; lia.
  - rewrite step_commrec_len. cbv zeta.
    destruct (uint8 ch >? COMMENT_SIZE); [discriminate|].
    intros [= <-]. unfold history_ok.
    cbn [state fname comment comment_len comment_idx].
    repeat split; try assumption; try (intros X; discriminate X).
    intros _. destruct (Hcl eq_refl) as [p ->].
    exists p, ch, []. rewrite <- app_assoc. cbn [app length].
    pose proof (uint8_nonneg ch).
    repeat split; try reflexivity; lia.
  - rewrite step_commrec_string. cbv zeta.
    destruct (store cm ci (to_uchar ch)) as [a|] eqn:S1; [|discriminate].
    apply store_some in S1 as [R1 L1].
    destruct (Hc eq_refl) as (p & c & qs & -> & -> & -> & Hq & Hlt).
    rewrite uint_small by (change (2 ^ 32) with 4294967296; lia).
    destruct (Z.of_nat (length qs) + 1 =? uint8 c) eqn:E.
    + destruct (store a (Z.of_nat (length qs) + 1) 0) as [a'|] eqn:S2;
        [|discriminate].
      apply store_some in S2 as [_ L2].
      intros [= <-]. unfold history_ok. cbn [state fname comment].
      repeat split; try congruence; intros X; discriminate X.
    + intros [= <-]. unfold history_ok.
      cbn [state fname comment comment_len comment_idx].
      repeat split; try congruence; try (intros X; discriminate X).
      intros _. exists p, c, (qs ++ [ch]).
      rewrite <- !app_assoc, length_app. cbn [app length].
      apply Z.eqb_neq in E.
      repeat split; try reflexivity; lia.
  - rewrite step_skip. history_simple.
  - rewrite step_extra_bytes. history_simple.
Qed.

Lemma feed_history (q : Z) (out : bool) (pre : list Z) (m : machine) :
  feed (step q out) init pre = Next m -> history_ok pre m.
Proof.
  revert m. induction pre as [|ch pre IH] using rev_ind; intros m.
  - intros [= <-]. unfold history_ok. cbn.
    repeat split; intros X; discriminate X.
  - rewrite feed_app.
    destruct (feed (step q out) init pre) as [m1|h m1]; [|discriminate].
    cbn [feed]. destruct (step q out m1 ch) as [m2|h m2] eqn:E;
      [|discriminate].
    intros [= <-]. eapply step_history; [apply IH; reflexivity|exact E].
Qed.

(** A store past the end of an array needs a record of length 0 with 256
    bytes stored. *)
Lemma step_overrun
      (q : Z) (out : bool) (pre : list Z) (m m' : machine) (ch : Z) :
  history_ok pre m ->
  step q out m ch = Ret Out_of_bounds m' ->
  exists tag p c qs,
    (tag = FNAMEREC \/ tag = COMMREC) /\
    pre = p ++ [tag; c] ++ qs /\ uint8 c = 0 /\ length qs = 256%nat.
Proof.
  destruct m as [st la xa fn fl fi cm cl ci sk ex cp so se].
  unfold history_ok;
    cbn [state fname comment fname_len fname_idx comment_len comment_idx].
  intros (Hfn & Hcm & Hf & Hc & _ & _).
  destruct st;
    try (intros H; apply step_ret_not_extra in H as H';
         revert H; (rewrite step_hdr || rewrite step_loadblk_len
                    || rewrite step_loadblk_addrlo
                    || rewrite step_loadblk_addrhi || rewrite step_xfer_len
                    || rewrite step_xfer_addrlo || rewrite step_xfer_addrhi
                    || rewrite step_fnamerec_len || rewrite step_commrec_len
                    || rewrite step_skip || rewrite step_extra_bytes);
         cbv zeta; break_ifs; discriminate).
  - rewrite step_fnamerec_name. cbv zeta.
    destruct (Hf eq_refl) as (p & c & qs & -> & -> & -> & Hq & Hlt).
    pose proof (uint8_nonneg c) as Rc.
    destruct (Nat.lt_ge_cases (length qs) (length fn)) as [L|L].
    + rewrite (store_spec fn (length qs) (to_uchar ch) L).
      rewrite uint_small by (change (2 ^ 32) with 4294967296; lia).
      destruct (Z.of_nat (length qs) + 1 =? uint8 c) eqn:E; [|discriminate].
      apply Z.eqb_eq in E.
      replace (Z.of_nat (length qs) + 1) with (Z.of_nat (S (length qs)))
        by lia.
      rewrite store_spec by (rewrite length_stored by assumption; lia).
      discriminate.
    + intros _. exists FNAMEREC, p, c, qs.
      assert (U : uint8 c = 0).
      { destruct (Z.eq_dec (uint8 c) 0) as [U|U]; [exact U|].
        specialize (Hlt U). lia. }
      repeat split; auto. lia.
  - rewrite step_commrec_string. cbv zeta.
    destruct (Hc eq_refl) as (p & c & qs & -> & -> & -> & Hq & Hlt).
    pose proof (uint8_nonneg c) as Rc.
    destruct (Nat.lt_ge_cases (length qs) (length cm)) as [L|L].
    + rewrite (store_spec cm (length qs) (to_uchar ch) L).
      rewrite uint_small by (change (2 ^ 32) with 4294967296; lia).
      destruct (Z.of_nat (length qs) + 1 =? uint8 c) eqn:E; [|discriminate].
      apply Z.eqb_eq in E.
      replace (Z.of_nat (length qs) + 1) with (Z.of_nat (S (length qs)))
        by lia.
      rewrite store_spec by (rewrite length_stored by assumption; lia).
      discriminate.
    + intros _. exists COMMREC, p, c, qs.
      assert (U : uint8 c = 0).
      { destruct (Z.eq_dec (uint8 c) 0) as [U|U]; [exact U|].
        specialize (Hlt U). lia. }
      repeat split; auto. lia.
Qed.

(** X15. [process_file] ends in one of three ways on every input: it
    returns 0, it returns 2, or it stores past the end of [fname] or
    [comment]; the 3 of its [default:] branch is never returned.  The store
    past the end happens only on an input that holds the type byte of a
    filename or comment record, a length byte that is 0 as a [uint8_t],
    and at least 257 further bytes: on no other input is an array
    overrun. *)
Theorem overrun_needs_zero_length (q : Z) (out : bool) (input : list Z) :
  (fst (process_file q out input) = Return 0 \/
   fst (process_file q out input) = Return 2 \/
   fst (process_file q out input) = Out_of_bounds) /\
  (fst (process_file q out input) = Out_of_bounds ->
   exists tag p c qs ch post,
     (tag = FNAMEREC \/ tag = COMMREC) /\
     input = p ++ [tag; c] ++ qs ++ ch :: post /\
     uint8 c = 0 /\ length qs = 256%nat).
Proof.
  unfold process_file.
  destruct (feed (step q out) init input) as [m|h m] eqn:E; cbn [fst].
  - split; [auto|discriminate].
  - apply feed_ret_inv in E as (pre & ch & post & m1 & -> & Hp & Hs).
    split.
    + apply step_ret_kinds in Hs as [-> | ->]; auto.
    + intros ->. apply feed_history in Hp.
      destruct (step_overrun q out pre m1 m ch Hp Hs)
        as (tag & p & c & qs & Ht & -> & Hc & Hl).
      exists tag, p, c, qs, ch, post.
      rewrite <- !app_assoc. repeat split; auto.
Qed.

Lemma feed_extra_any (q : Z) (out : bool) (t t' : list Z) :
  length t = length t' ->
  forall m, state m = EXTRA_BYTES ->
  feed (step q out) m t = feed (step q out) m t'.
Proof.
  revert t'; induction t as [|c t IH]; intros [|c' t'] H m Hs;
    try discriminate H; [reflexivity|].
  cbn [feed]. rewrite !step_extra by assumption.
  apply IH; [cbn in H; congruence|]. cbn. rewrite Hs. reflexivity.
Qed.

(** X16. Behind the transfer address the bytes are counted and not looked
    at: two inputs that agree up to a point where the parser is in
    [EXTRA_BYTES] and have the same length give the same return value, the
    same copy and the same report, whatever their remaining bytes are. *)
Theorem trailing_bytes_are_only_counted
        (q : Z) (out : bool) (p t t' : list Z) (m1 : machine) :
  feed (step q out) init p = Next m1 ->
  state m1 = EXTRA_BYTES ->
  length t = length t' ->
  process_file q out (p ++ t) = process_file q out (p ++ t').
Proof.
  intros Hp Hs Hl. unfold process_file.
  rewrite !(feed_app_next _ _ _ _ _ Hp).
  rewrite (feed_extra_any q out t t' Hl m1 Hs). reflexivity.
Qed.

Lemma trailing_bytes_are_only_counted_witness :
  process_file 0 true (transfer_record 0x00 0x52 ++ [1; 2; 3]) =
  process_file 0 true (transfer_record 0x00 0x52 ++ [0x05; 0x00; 0xff]).
Proof.
  eapply (trailing_bytes_are_only_counted
            0 true (transfer_record 0x00 0x52) [1; 2; 3] [0x05; 0x00; 0xff]).
  - vm_compute. reflexivity.
  - reflexivity.
  - reflexivity.
Defined.

(** [le16] is the little-endian value of the two bytes. *)
Lemma le16_little_endian (lo hi : Z) :
  0 <= lo < 256 -> 0 <= hi < 256 -> le16 lo hi = lo + 256 * hi.
Proof.
  intros Hlo Hhi. unfold le16, uint16.
  rewrite (Z.mod_small lo) by (change (2 ^ 16) with 65536; lia).
  assert (L : Z.land lo (Z.shiftl hi 8) = 0).
  { rewrite <- (Z.mod_small lo (2 ^ 8)) at 1
      by (change (2 ^ 8) with 256; lia).
    rewrite <- Z.land_ones, <- Z.land_assoc by lia.
    rewrite (Z.land_comm (Z.ones 8)), Z.land_ones by lia.
    rewrite Z.shiftl_mul_pow2, Z.mod_mul by lia.
    apply Z.land_0_r. }
  pose proof (Z.add_lor_land lo (Z.shiftl hi 8)) as A.
  rewrite L, Z.add_0_r in A. rewrite A, Z.shiftl_mul_pow2 by lia.
  change (2 ^ 8) with 256. change (2 ^ 16) with 65536.
  rewrite Z.mod_small; lia.
Qed.

(** X17. The addresses of the report are the little-endian values of
    their two bytes: a load block with address bytes [lo], [hi] and a
    transfer-address record with bytes [tlo], [thi] are reported at
    [lo + 256 * hi] and [tlo + 256 * thi], the load block with its decoded
    length. *)
Theorem addresses_are_little_endian
        (out : bool) (n lo hi tlo thi : Z) (payload : list Z) :
  wf_record (Load_block n lo hi payload) = true ->
  is_byteb tlo = true ->
  is_byteb thi = true ->
  exists m,
    process_file 0 out (encode [Load_block n lo hi payload] tlo thi)
    = (Return 0, m) /\
    stdout m = [Load_address (lo + 256 * hi) (BLK_LEN n);
                Transfer_address (tlo + 256 * thi);
                CMD_file_looks_good].
Proof.
  intros Hwf Htlo Hthi.
  assert (W : forallb wf_record [Load_block n lo hi payload] = true)
    by (cbn [forallb]; rewrite Hwf; reflexivity).
  destruct (process_encoded 0 out _ tlo thi [] W Htlo Hthi)
    as (m & P & _ & _ & O & _).
  rewrite app_nil_r in P. exists m. split; [exact P|].
  rewrite O. cbn [wf_record] in Hwf. rewrite !andb_true_iff in Hwf.
  destruct Hwf as [[[[_ Hlo] Hhi] _] _].
  apply is_byteb_spec in Hlo, Hhi, Htlo, Hthi.
  cbn [map report_of detail summary Z.eqb Z.ltb Z.compare length Z.of_nat
       uint app].
  rewrite !le16_little_endian by assumption. reflexivity.
Qed.

Lemma addresses_are_little_endian_witness :
  exists m,
    process_file 0 true
      (encode [Load_block 3 0x34 0x12 [0xc9]] 0x00 0x52)
    = (Return 0, m) /\
    stdout m = [Load_address (0x34 + 256 * 0x12) (BLK_LEN 3);
                Transfer_address (0x00 + 256 * 0x52);
                CMD_file_looks_good].
Proof.
  exact (addresses_are_little_endian true 3 0x34 0x12 0x00 0x52 [0xc9]
                                     eq_refl eq_refl eq_refl).
Defined.

Lemma c_str_no_nul (a : list Z) : ~ In 0 a -> c_str a = a.
Proof.
  induction a as [|c a IH]; intros H; [reflexivity|].
  cbn [c_str]. destruct (c =? 0) eqn:E.
  - apply Z.eqb_eq in E. subst c. exfalso. apply H. left. reflexivity.
  - rewrite IH; [reflexivity|]. intros X. apply H. right. exact X.
Qed.

(** X18. A name or a comment is printed as a C string: one that holds a
    NUL byte is reported up to that byte only, although all of its bytes
    are read as the record and copied; one without a NUL byte is reported
    whole. *)
Theorem name_is_printed_up_to_nul
        (out : bool) (a b : list Z) (lo hi : Z) :
  ~ In 0 a ->
  wf_record (Filename_record (a ++ 0 :: b)) = true ->
  wf_record (Comment_record (a ++ 0 :: b)) = true ->
  is_byteb lo = true ->
  is_byteb hi = true ->
  (exists m,
      process_file 0 out (encode [Filename_record (a ++ 0 :: b)] lo hi)
      = (Return 0, m) /\
      stdout m = [Filename a; Transfer_address (le16 lo hi);
                  CMD_file_looks_good] /\
      copy m = mirrored out
                 (encode [Filename_record (a ++ 0 :: b)] lo hi)) /\
  (exists m,
      process_file 0 out (encode [Comment_record (a ++ 0 :: b)] lo hi)
      = (Return 0, m) /\
      stdout m = [Comment a; Transfer_address (le16 lo hi);
                  CMD_file_looks_good]) /\
  report_of (Filename_record a) = Filename a.
Proof.
  intros Ha Wf Wc Hlo Hhi.
  assert (C : c_str (a ++ 0 :: b) = a)
    by (rewrite c_str_app_nul; apply c_str_no_nul, Ha).
  split; [|split].
  - assert (W : forallb wf_record [Filename_record (a ++ 0 :: b)] = true)
      by (cbn [forallb]; rewrite Wf; reflexivity).
    destruct (process_encoded 0 out _ lo hi [] W Hlo Hhi)
      as (m & P & _ & Cp & O & _).
    rewrite app_nil_r in P. exists m. split; [exact P|].
    split; [|exact Cp]. rewrite O.
    cbn [map report_of]. rewrite C. reflexivity.
  - assert (W : forallb wf_record [Comment_record (a ++ 0 :: b)] = true)
      by (cbn [forallb]; rewrite Wc; reflexivity).
    destruct (process_encoded 0 out _ lo hi [] W Hlo Hhi)
      as (m & P & _ & _ & O & _).
    rewrite app_nil_r in P. exists m. split; [exact P|].
    rewrite O. cbn [map report_of]. rewrite C. reflexivity.
  - cbn [report_of]. rewrite (c_str_no_nul a Ha). reflexivity.
Qed.

Lemma name_is_printed_up_to_nul_witness :
  exists m,
    process_file 0 true
      (encode [Filename_record ([0x41; 0x42] ++ 0 :: [0x43])] 0x00 0x52)
    = (Return 0, m) /\
    stdout m = [Filename [0x41; 0x42]; Transfer_address (le16 0x00 0x52);
                CMD_file_looks_good] /\
    copy m = mirrored true
               (encode [Filename_record ([0x41; 0x42] ++ 0 :: [0x43])]
                       0x00 0x52).
Proof.
  assert (H : ~ In 0 [0x41; 0x42]).
  { cbn [In]. intros [X|[X|X]]; [discriminate X|discriminate X|exact X]. }
  exact (proj1 (name_is_printed_up_to_nul true [0x41; 0x42] [0x43] 0x00 0x52
                                          H eq_refl eq_refl eq_refl eq_refl)).
Defined.

(** X19. The format errors behind well-formed records.  A byte that is not
    one of the four record types ends the run with status 2 and the
    message for that byte.  A transfer-address record whose length byte is
    not 2 ends it with status 2 as well, after its two address bytes were
    read and the address was reported, and the message gives the residue
    as an unsigned 16-bit number.  In both cases the copy holds every byte
    read, the records before the error stay reported, and the bytes behind
    the error are not read. *)
Theorem cmd_format_errors
        (q : Z) (out : bool) (rs : list record) (b n lo hi : Z)
        (rest : list Z) :
  forallb wf_record rs = true ->
  is_byteb b = true ->
  b <> LOADBLK -> b <> XFERADDR -> b <> FNAMEREC -> b <> COMMREC ->
  is_byteb n = true -> n <> 2 ->
  is_byteb lo = true -> is_byteb hi = true ->
  (exists m,
      process_file q out (concat (map encode_record rs) ++ b :: rest)
      = (Return 2, m) /\
      stderr m = [Unexpected_header_byte b] /\
      stdout m = detail q (map report_of rs) /\
      copy m = mirrored out (concat (map encode_record rs) ++ [b])) /\
  (exists m,
      process_file q out
        (concat (map encode_record rs) ++ [XFERADDR; n; lo; hi] ++ rest)
      = (Return 2, m) /\
      stderr m = [Unexpected_transfer_address_length (uint16 (n - 2))] /\
      uint16 (n - 2) = (if n <? 2 then n + 65534 else n - 2) /\
      stdout m = detail q (map report_of rs
                           ++ [Transfer_address (le16 lo hi)]) /\
      copy m = mirrored out
                 (concat (map encode_record rs) ++ [XFERADDR; n; lo; hi])).
Proof.
  intros Hwf Hb B1 B2 B3 B4 Hn N2 Hlo Hhi.
  destruct (feed_records q out rs Hwf init)
    as (m1 & E1 & S1 & _ & _ & P1 & O1 & D1); try reflexivity.
  cbn [copy stdout stderr init app] in P1, O1, D1.
  destruct m1 as [st la xa fn fl fi cm cl ci sk ex cp so se].
  cbn [state copy stdout stderr] in S1, P1, O1, D1. subst st cp so se.
  apply Z.eqb_neq in B1, B2, B3, B4.
  apply is_byteb_spec in Hn as Rn.
  assert (U : uint16 (n - 2) = if n <? 2 then n + 65534 else n - 2).
  { unfold uint16. change (2 ^ 16) with 65536.
    destruct (n <? 2) eqn:E.
    - apply Z.ltb_lt in E.
      rewrite <- (Z.mod_small (n + 65534) 65536) by lia.
      rewrite <- (Z_mod_plus_full (n - 2) 1 65536). f_equal. lia.
    - apply Z.ltb_ge in E. apply Z.mod_small. lia. }
  split.
  - eexists. unfold process_file.
    rewrite (feed_app_next _ _ _ _ _ E1). cbn [feed].
    rewrite step_hdr. cbv zeta. rewrite B1, B2, B3, B4.
    split; [reflexivity|]. cbn [stderr stdout copy app].
    rewrite (to_uchar_byte b Hb), <- mirrored_app.
    repeat split; reflexivity.
  - eexists. unfold process_file.
    rewrite (feed_app_next _ _ _ _ _ E1). cbn [app feed].
    rewrite step_hdr. cbv zeta.
    change (XFERADDR =? LOADBLK) with false.
    change (XFERADDR =? XFERADDR) with true. cbv iota.
    rewrite step_xfer_len, step_xfer_addrlo, step_xfer_addrhi. cbv zeta.
    replace (uint16 (n - 2) =? 0) with false.
    2:{ symmetry. apply Z.eqb_neq. rewrite U.
        destruct (n <? 2) eqn:E; [apply Z.ltb_lt in E|apply Z.ltb_ge in E];
          lia. }
    cbn [negb]. split; [reflexivity|]. cbn [stderr stdout copy app].
    split; [reflexivity|]. split; [exact U|]. split.
    + unfold detail. destruct (q =? 0); [|rewrite app_nil_r; reflexivity].
      reflexivity.
    + rewrite (to_uchar_byte n Hn), (to_uchar_byte lo Hlo),
        (to_uchar_byte hi Hhi), <- !app_assoc, <- !mirrored_app.
      reflexivity.
Qed.

Lemma cmd_format_errors_witness :
  exists m,
    process_file 0 true
      (concat (map encode_record sample_records)
       ++ [XFERADDR; 0; 0x00; 0x52] ++ [0xe5])
    = (Return 2, m) /\
    stderr m = [Unexpected_transfer_address_length (uint16 (0 - 2))] /\
    uint16 (0 - 2) = (if 0 <? 2 then 0 + 65534 else 0 - 2) /\
    stdout m = detail 0 (map report_of sample_records
                         ++ [Transfer_address (le16 0x00 0x52)]) /\
    copy m = mirrored true
               (concat (map encode_record sample_records)
                ++ [XFERADDR; 0; 0x00; 0x52]).
Proof.
  assert (B1 : 0x07 <> LOADBLK) by discriminate.
  assert (B2 : 0x07 <> XFERADDR) by discriminate.
  assert (B3 : 0x07 <> FNAMEREC) by discriminate.
  assert (B4 : 0x07 <> COMMREC) by discriminate.
  assert (N2 : 0 <> 2) by discriminate.
  exact (proj2 (cmd_format_errors 0 true sample_records 0x07 0 0x00 0x52
                                  [0xe5] eq_refl eq_refl B1 B2 B3 B4
                                  eq_refl N2 eq_refl eq_refl)).
Defined.

(** X20. Stripping is idempotent: the copy of a well-formed stream with
    bytes behind its transfer address is a stream that the program copies
    unchanged and reports with the same record lines and no count of
    trailing bytes. *)
Theorem stripping_is_idempotent
        (q : Z) (rs : list record) (lo hi : Z) (t : list Z) :
  forallb wf_record rs = true ->
  is_byteb lo = true ->
  is_byteb hi = true ->
  exists m m2,
    process_file q true (encode rs lo hi ++ t) = (Return 0, m) /\
    process_file q true (copy m) = (Return 0, m2) /\
    copy m2 = copy m /\
    stdout m2 =
      detail q (map report_of rs ++ [Transfer_address (le16 lo hi)])
      ++ summary q 0.
Proof.
  intros Hwf Hlo Hhi.
  destruct (process_encoded q true rs lo hi t Hwf Hlo Hhi)
    as (m & P & _ & C & _).
  destruct (process_encoded q true rs lo hi [] Hwf Hlo Hhi)
    as (m2 & P2 & _ & C2 & O2 & _).
  rewrite app_nil_r in P2. cbn [mirrored] in C, C2.
  exists m, m2. rewrite C. auto.
Qed.

Lemma stripping_is_idempotent_witness :
  exists m m2,
    process_file 0 true (encode sample_records 0x00 0x52 ++ sample_trailing)
    = (Return 0, m) /\
    process_file 0 true (copy m) = (Return 0, m2) /\
    copy m2 = copy m /\
    stdout m2 =
      detail 0 (map report_of sample_records
                ++ [Transfer_address (le16 0x00 0x52)])
      ++ summary 0 0.
Proof.
  exact (stripping_is_idempotent 0 sample_records 0x00 0x52 sample_trailing
                                 eq_refl eq_refl eq_refl).
Defined.

Lemma cmd_step_keeps_stderr
      (q : Z) (out : bool) (m m' : machine) (ch : Z) :
  step q out m ch = Next m' -> stderr m' = stderr m.
Proof.
  destruct m as [st la xa fn fl fi cm cl ci sk ex cp so se].
  unfold step, unless.
  destruct st, out, (q =? 0); simpl_step; break_inner; try congruence;
    intros H; inversion H; reflexivity.
Qed.

Lemma cmd_feed_keeps_stderr
      (q : Z) (out : bool) (input : list Z) (m m' : machine) :
  feed (step q out) m input = Next m' -> stderr m' = stderr m.
Proof.
  revert m; induction input as [|ch rest IH]; intros m; cbn [feed].
  - intros [= ->]; reflexivity.
  - destruct (step q out m ch) as [m1|h m1] eqn:E; [|discriminate].
    intros H. rewrite (IH _ H). eapply cmd_step_keeps_stderr, E.
Qed.

Lemma summary_ends (q ex : Z) :
  q < 2 -> exists reps, summary q ex = reps ++ [CMD_file_looks_good].
Proof.
  intros H. unfold summary.
  replace (q <? 2) with true by (symmetry; apply Z.ltb_lt; exact H).
  eauto.
Qed.

(** X21. A file that is cut short is not told from a whole one.  Whenever
    [process_file] returns 0 below quiet level 2, the last line of its
    report is the verdict that the file looks good; and it returns 0, with
    nothing on [stderr], on every truncation of a well-formed stream: on
    the empty file, on a file that ends inside a record, and on one that
    has no transfer address. *)
Theorem truncated_file_looks_good
        (q : Z) (out : bool) (input : list Z) (rs : list record) (lo hi : Z)
        (n : nat) :
  forallb wf_record rs = true ->
  is_byteb lo = true ->
  is_byteb hi = true ->
  q < 2 ->
  (fst (process_file q out input) = Return 0 ->
   exists reps,
     stdout (snd (process_file q out input))
     = reps ++ [CMD_file_looks_good]) /\
  (let r := process_file q out (firstn n (encode rs lo hi)) in
   fst r = Return 0 /\ stderr (snd r) = [] /\
   exists reps, stdout (snd r) = reps ++ [CMD_file_looks_good]).
Proof.
  intros Hwf Hlo Hhi Hq.
  assert (G : forall i m,
             feed (step q out) init i = Next m ->
             exists reps,
               stdout (final_report q m) = reps ++ [CMD_file_looks_good]).
  { intros i m _. destruct (final_report_spec q m) as (_ & _ & O & _).
    destruct (summary_ends q (extra_bytes m) Hq) as [reps R].
    exists (stdout m ++ reps). rewrite O, R, app_assoc. reflexivity. }
  split.
  - unfold process_file.
    destruct (feed (step q out) init input) as [m|h m] eqn:E; cbn [fst snd].
    + intros _. eapply G, E.
    + intros ->.
      apply feed_ret_inv in E as (pre & ch & post & m1 & _ & _ & Hs).
      apply step_ret_kinds in Hs as [Hs|Hs]; discriminate Hs.
  - cbv zeta.
    destruct (process_encoded q out rs lo hi [] Hwf Hlo Hhi)
      as (m & P & _). rewrite app_nil_r in P.
    assert (F : exists m0, feed (step q out) init (encode rs lo hi) = Next m0).
    { unfold process_file in P.
      destruct (feed (step q out) init (encode rs lo hi)) as [m0|h m0] eqn:E;
        [eauto|].
      injection P as -> _.
      apply feed_ret_inv in E as (pre & ch & post & m1 & _ & _ & Hs).
      apply step_ret_kinds in Hs as [Hs|Hs]; discriminate Hs. }
    destruct F as [m0 F].
    assert (T : exists m', feed (step q out) init
                                (firstn n (encode rs lo hi)) = Next m').
    { destruct (feed_firstn (step q out) init (encode rs lo hi) n)
        as [T|T]; [exact T|]. rewrite T, F. eauto. }
    destruct T as [m' T]. unfold process_file. rewrite T. cbn [fst snd].
    split; [reflexivity|]. split.
    + rewrite (proj2 (proj2 (proj2 (final_report_spec q m')))).
      apply (cmd_feed_keeps_stderr q out _ init m' T).
    + eapply G, T.
Qed.

Lemma truncated_file_looks_good_witness :
  let r := process_file 0 true (firstn 7 (encode sample_records 0x00 0x52)) in
  fst r = Return 0 /\ stderr (snd r) = [] /\
  exists reps, stdout (snd r) = reps ++ [CMD_file_looks_good].
Proof.
  assert (H : 0 < 2) by lia.
  exact (proj2 (truncated_file_looks_good 0 true [] sample_records 0x00 0x52 7
                                          eq_refl eq_refl eq_refl H)).
Defined.

(** A name of length 0: every byte is stored, none ends the record. *)
Lemma feed_zero_fname (q : Z) (out : bool) (qs : list Z) :
  forall fn k cp la xa cm cl ci sk ex so se,
  length fn = 256%nat -> (k + length qs <= 256)%nat ->
  exists fn',
    length fn' = 256%nat /\
    feed (step q out)
         (Machine FNAMEREC_NAME la xa fn 0 (Z.of_nat k) cm cl ci sk ex cp so
                  se) qs =
    Next (Machine FNAMEREC_NAME la xa fn' 0 (Z.of_nat (k + length qs)) cm cl
                  ci sk ex (cp ++ mirrored out (map to_uchar qs)) so se).
Proof.
  induction qs as [|ch qs IH]; intros fn k cp la xa cm cl ci sk ex so se Hfn Hk.
  - exists fn. cbn [feed length map]. rewrite Nat.add_0_r.
    unfold mirrored. destruct out; rewrite app_nil_r; auto.
  - cbn [length] in Hk. cbn [feed]. rewrite step_fnamerec_name. cbv zeta.
    rewrite store_spec by lia.
    rewrite uint_small by (change (2 ^ 32) with 4294967296; lia).
    replace (Z.of_nat k + 1 =? 0) with false
      by (symmetry; apply Z.eqb_neq; lia).
    replace (Z.of_nat k + 1) with (Z.of_nat (S k)) by lia.
    destruct (IH (firstn k fn ++ to_uchar ch :: skipn (S k) fn) (S k)
                 (cp ++ mirrored out [to_uchar ch]) la xa cm cl ci sk ex so se)
      as (fn' & L & E).
    + rewrite length_stored; [assumption|lia].
    + lia.
    + exists fn'. split; [exact L|]. rewrite E.
      replace (S k + length qs)%nat with (k + length (ch :: qs))%nat
        by (cbn [length]; lia).
      rewrite <- app_assoc, <- mirrored_app. reflexivity.
Qed.

Lemma feed_zero_comment (q : Z) (out : bool) (qs : list Z) :
  forall cm k cp la xa fn fl fi sk ex so se,
  length cm = 256%nat -> (k + length qs <= 256)%nat ->
  exists cm',
    length cm' = 256%nat /\
    feed (step q out)
         (Machine COMMREC_STRING la xa fn fl fi cm 0 (Z.of_nat k) sk ex cp so
                  se) qs =
    Next (Machine COMMREC_STRING la xa fn fl fi cm' 0
                  (Z.of_nat (k + length qs)) sk ex
                  (cp ++ mirrored out (map to_uchar qs)) so se).
Proof.
  induction qs as [|ch qs IH]; intros cm k cp la xa fn fl fi sk ex so se Hcm Hk.
  - exists cm. cbn [feed length map]. rewrite Nat.add_0_r.
    unfold mirrored. destruct out; rewrite app_nil_r; auto.
  - cbn [length] in Hk. cbn [feed]. rewrite step_commrec_string. cbv zeta.
    rewrite store_spec by lia.
    rewrite uint_small by (change (2 ^ 32) with 4294967296; lia).
    replace (Z.of_nat k + 1 =? 0) with false
      by (symmetry; apply Z.eqb_neq; lia).
    replace (Z.of_nat k + 1) with (Z.of_nat (S k)) by lia.
    destruct (IH (firstn k cm ++ to_uchar ch :: skipn (S k) cm) (S k)
                 (cp ++ mirrored out [to_uchar ch]) la xa fn fl fi sk ex so se)
      as (cm' & L & E).
    + rewrite length_stored; [assumption|lia].
    + lia.
    + exists cm'. split; [exact L|]. rewrite E.
      replace (S k + length qs)%nat with (k + length (ch :: qs))%nat
        by (cbn [length]; lia).
      rewrite <- app_assoc, <- mirrored_app. reflexivity.
Qed.

(** X22. What a record of length 0 does, wherever it stands.  When the
    parser is at a record header and reads the type byte of a filename or
    comment record and a length byte that is 0 as a [uint8_t], no later
    byte is read as a record: with up to 256 bytes behind the length byte
    the run returns 0 in the name state, having reported nothing since the
    header but its closing lines; with more the 257th is stored past the
    end of the array. *)
Theorem zero_length_record_swallows_the_rest
        (q : Z) (out : bool) (p rest : list Z) (tag c : Z) (m : machine) :
  feed (step q out) init p = Next m ->
  state m = CMD_HDR ->
  tag = FNAMEREC \/ tag = COMMREC ->
  uint8 c = 0 ->
  ((length rest <= 256)%nat ->
   exists m',
     process_file q out (p ++ [tag; c] ++ rest) = (Return 0, m') /\
     (state m' = FNAMEREC_NAME \/ state m' = COMMREC_STRING) /\
     stdout m' = stdout m ++ summary q (extra_bytes m) /\
     copy m' = copy m ++ mirrored out (map to_uchar ([tag; c] ++ rest))) /\
  ((256 < length rest)%nat ->
   fst (process_file q out (p ++ [tag; c] ++ rest)) = Out_of_bounds).
Proof.
  intros Hp Hs Ht Hc.
  pose proof (feed_history q out p m Hp) as (Hfn & Hcm & _).
  destruct m as [st la xa fn fl fi cm cl ci sk ex cp so se].
  cbn [state fname comment stdout extra_bytes copy] in *. subst st.
  unfold process_file. rewrite !(feed_app_next _ _ _ _ _ Hp).
  destruct Ht as [-> | ->].
  - cbn [app feed]. rewrite step_hdr. cbv zeta.
    change (FNAMEREC =? LOADBLK) with false.
    change (FNAMEREC =? XFERADDR) with false.
    change (FNAMEREC =? FNAMEREC) with true. cbv iota.
    rewrite step_fnamerec_len. cbv zeta. rewrite Hc.
    change (0 >? FNAME_SIZE) with false. cbv iota.
    split.
    + intros Hl.
      destruct (feed_zero_fname q out rest fn 0
                  ((cp ++ mirrored out [to_uchar FNAMEREC])
                   ++ mirrored out [to_uchar c]) la xa cm cl ci sk ex so se
                  Hfn) as (fn' & L & E); [lia|].
      change (Z.of_nat 0) with 0 in E. rewrite E.
      eexists. split; [reflexivity|].
      destruct (final_report_spec q
                  (Machine FNAMEREC_NAME la xa fn' 0
                           (Z.of_nat (0 + length rest)) cm cl ci sk ex
                           (((cp ++ mirrored out [to_uchar FNAMEREC])
                             ++ mirrored out [to_uchar c])
                            ++ mirrored out (map to_uchar rest)) so se))
        as (S' & P' & O' & _).
      rewrite S', P', O'. cbn [state copy stdout extra_bytes].
      split; [left; reflexivity|]. split; [reflexivity|].
      rewrite <- !app_assoc, <- !mirrored_app. reflexivity.
    + intros Hl.
      rewrite <- (firstn_skipn 256 rest).
      destruct (skipn 256 rest) as [|x tail] eqn:Sk.
      { apply (f_equal (@length Z)) in Sk. rewrite length_skipn in Sk.
        cbn [length] in Sk. lia. }
      assert (L256 : length (firstn 256 rest) = 256%nat)
        by (rewrite length_firstn; lia).
      destruct (feed_zero_fname q out (firstn 256 rest) fn 0
                  ((cp ++ mirrored out [to_uchar FNAMEREC])
                   ++ mirrored out [to_uchar c]) la xa cm cl ci sk ex so se
                  Hfn) as (fn' & L & E); [lia|].
      change (Z.of_nat 0) with 0 in E.
      rewrite feed_app, E. cbn [feed]. rewrite step_fnamerec_name. cbv zeta.
      rewrite L256, store_none by lia. reflexivity.
  - cbn [app feed]. rewrite step_hdr. cbv zeta.
    change (COMMREC =? LOADBLK) with false.
    change (COMMREC =? XFERADDR) with false.
    change (COMMREC =? FNAMEREC) with false.
    change (COMMREC =? COMMREC) with true. cbv iota.
    rewrite step_commrec_len. cbv zeta. rewrite Hc.
    change (0 >? COMMENT_SIZE) with false. cbv iota.
    split.
    + intros Hl.
      destruct (feed_zero_comment q out rest cm 0
                  ((cp ++ mirrored out [to_uchar COMMREC])
                   ++ mirrored out [to_uchar c]) la xa fn fl fi sk ex so se
                  Hcm) as (cm' & L & E); [lia|].
      change (Z.of_nat 0) with 0 in E. rewrite E.
      eexists. split; [reflexivity|].
      destruct (final_report_spec q
                  (Machine COMMREC_STRING la xa fn fl fi cm' 0
                           (Z.of_nat (0 + length rest)) sk ex
                           (((cp ++ mirrored out [to_uchar COMMREC])
                             ++ mirrored out [to_uchar c])
                            ++ mirrored out (map to_uchar rest)) so se))
        as (S' & P' & O' & _).
      rewrite S', P', O'. cbn [state copy stdout extra_bytes].
      split; [right; reflexivity|]. split; [reflexivity|].
      rewrite <- !app_assoc, <- !mirrored_app. reflexivity.
    + intros Hl.
      rewrite <- (firstn_skipn 256 rest).
      destruct (skipn 256 rest) as [|x tail] eqn:Sk.
      { apply (f_equal (@length Z)) in Sk. rewrite length_skipn in Sk.
        cbn [length] in Sk. lia. }
      assert (L256 : length (firstn 256 rest) = 256%nat)
        by (rewrite length_firstn; lia).
      destruct (feed_zero_comment q out (firstn 256 rest) cm 0
                  ((cp ++ mirrored out [to_uchar COMMREC])
                   ++ mirrored out [to_uchar c]) la xa fn fl fi sk ex so se
                  Hcm) as (cm' & L & E); [lia|].
      change (Z.of_nat 0) with 0 in E.
      rewrite feed_app, E. cbn [feed]. rewrite step_commrec_string. cbv zeta.
      rewrite L256, store_none by lia. reflexivity.
Qed.

Lemma zero_length_record_swallows_the_rest_witness :
  fst (process_file 0 true
         ([LOADBLK; 3; 0x00; 0x52; 0xc9] ++ [COMMREC; 0]
          ++ repeat 0x20 300)) = Out_of_bounds.
Proof.
  eapply (fun m Hp Hs =>
            proj2 (zero_length_record_swallows_the_rest
                     0 true [LOADBLK; 3; 0x00; 0x52; 0xc9] (repeat 0x20 300)
                     COMMREC 0 m Hp Hs (or_intror eq_refl) eq_refl)).
  - vm_compute. reflexivity.
  - reflexivity.
  - rewrite repeat_length. lia.
Defined.

(** *** Beyond the claims: [process_args] *)

Lemma getopt_scan_q (n : nat) :
  getopt_scan "q" (repeat "-q"%string n) = (repeat "q"%char n, []).
Proof.
  induction n as [|n IH]; [reflexivity|].
  cbn [repeat getopt_scan]. rewrite IH. reflexivity.
Qed.

Lemma scan_options_q (n : nat) (k : Z) :
  scan_options (repeat "q"%char n) k = Some (k + Z.of_nat n).
Proof.
  revert k; induction n as [|n IH]; intros k.
  - cbn. rewrite Z.add_0_r. reflexivity.
  - cbn [repeat scan_options Ascii.eqb Bool.eqb]. rewrite IH.
    f_equal. lia.
Qed.

(** X23. The quiet level is the number of [-q] options given: [n] of them
    set [Quiet] to [n], with standard input as the input and no output
    file when there are no operands. *)
Theorem quiet_counts_the_options (e : env) (pgm : string) (n : nat) :
  process_args e (pgm :: repeat "-q"%string n) =
  Args_ok (Globals (Z.of_nat n) Stdin None).
Proof.
  unfold process_args. cbn [tl]. rewrite getopt_scan_q, scan_options_q.
  reflexivity.
Qed.


(** X25. An empty first operand is the one operand on which the test of
    [process_args] reads the byte behind the terminator of the string: for
    every other operand both characters it looks at are inside the
    string. *)
Theorem empty_operand_is_read_past_its_end
        (e : env) (pgm arg : string) (more : list string) :
  (names_input_file (arg :: more) = None <-> arg = EmptyString) /\
  process_args e [pgm; EmptyString] = Args_out_of_bounds /\
  exit_status (main e [pgm; EmptyString]) = Out_of_bounds.
Proof.
  split; [|split; reflexivity].
  unfold names_input_file, char_at. destruct arg as [|c [|d s]].
  - cbn. split; reflexivity.
  - cbn. destruct (Ascii.eqb c "-"); cbn; split; discriminate.
  - cbn. destruct (Ascii.eqb c "-"); cbn; split; discriminate.
Qed.

Lemma cmd_process_file_status (q : Z) (out : bool) (input : list Z) :
  fst (process_file q out input) = Return 0 \/
  fst (process_file q out input) = Return 2 \/
  fst (process_file q out input) = Out_of_bounds.
Proof.
  unfold process_file.
  destruct (feed (step q out) init input) as [m|h m] eqn:E; cbn [fst].
  - auto.
  - apply feed_ret_inv in E as (pre & ch & post & m1 & _ & _ & Hs).
    apply step_ret_kinds in Hs as [-> | ->]; auto.
Qed.

(** X26. The exit status of the program is 0, 1, 2 or 3, unless a store or
    a read went past the end of an array.  It is 1 exactly when
    [process_args] fails, and then nothing was read, copied or reported;
    it is 3 only with an output file, when the copy was complete and the
    output stream reports an error or fails to close. *)
Theorem cmd_exit_statuses (e : env) (argv : list string) :
  let r := main e argv in
  (exit_status r = Return 0 \/ exit_status r = Return 1 \/
   exit_status r = Return 2 \/ exit_status r = Return 3 \/
   exit_status r = Out_of_bounds) /\
  (exit_status r = Return 1 <->
   exists msgs, process_args e argv = Args_fail msgs) /\
  (exit_status r = Return 1 ->
   copy_to r = None /\ copied r = [] /\ printed r = []) /\
  (exit_status r = Return 3 ->
   (exists ofile, copy_to r = Some ofile) /\
   (ferror_out e = true \/ fclose_eof e = true)).
Proof.
  cbv zeta. unfold main.
  destruct (process_args e argv) as [g|msgs|] eqn:P.
  - pose proof (cmd_process_file_status
                  (Quiet g)
                  (match OutputFile g with Some _ => true | None => false end)
                  (bytes_of e (InputFile g))) as S.
    destruct (process_file (Quiet g)
                (match OutputFile g with Some _ => true | None => false end)
                (bytes_of e (InputFile g))) as [h m].
    cbn [fst] in S.
    destruct S as [-> | [-> | ->]]; destruct (OutputFile g) as [ofile|];
      try destruct (ferror_out e) eqn:Fe; try destruct (fclose_eof e) eqn:Fc;
      cbn [exit_status copy_to copied printed];
      (split; [auto 6|]);
      (split; [split; [discriminate|intros [? H]; discriminate H]|]);
      (split; [discriminate|]);
      try discriminate; intros _; eauto.
  - cbn [exit_status copy_to copied printed].
    split; [auto|]. split; [split; eauto|]. split; [auto|discriminate].
  - cbn [exit_status copy_to copied printed].
    split; [auto 6|]. split; [split; [discriminate|intros [? H]; discriminate H]|].
    split; discriminate.
Qed.

End CmdFacts.
